(** * Aurivox: multiband wide-dynamic-range compressor

    A shallow embedding of [Aurivox/config.h], [Aurivox/wdrc.cpp] and
    [Aurivox/multiband_wdrc.cpp], and the properties of the frequency-domain
    compressor that the specification states about them.

    The C++ code computes on [float] and [double].  The embedding is written
    once, over an interface [CFloat] of the arithmetic the code uses, and is
    read at two instances:

    - [R_CFloat]: exact real arithmetic, for the algebraic properties (knee
      continuity, envelope convergence, the worked scenario, the transform
      round trip);
    - [ieee]: IEEE-754 binary floating point ([spec_float] of the standard
      library, with its rounding, signed zeros, infinities and NaN), for the
      properties that are about special values (clamping, finiteness).

    Structural properties (band classification, which bins the loop writes)
    are proved for every instance. *)

From Stdlib Require Import ZArith QArith List Bool Lia.
From Stdlib Require Import Reals Lra Qreals.
From Stdlib Require Import Floats.SpecFloat.
Import ListNotations.

Set Implicit Arguments.

(* ================================================================== *)
(** * The arithmetic interface *)
(* ================================================================== *)

(** The operations of C [float]/[double] arithmetic and of [<math.h>] that
    the sources use.  Comparisons are boolean, as in C, so that an instance
    with NaN can make all of them false. *)
Class CFloat (F : Type) : Type := {
  lit    : Q -> F;          (* a decimal literal, e.g. [0.99f] *)
  of_int : Z -> F;          (* conversion of an [int] operand *)
  fadd   : F -> F -> F;
  fsub   : F -> F -> F;
  fmul   : F -> F -> F;
  fdiv   : F -> F -> F;
  fneg   : F -> F;
  fabs   : F -> F;
  flt    : F -> F -> bool;
  fle    : F -> F -> bool;
  f_exp   : F -> F;
  f_log10 : F -> F;
  f_pow   : F -> F -> F
}.

(** The functions of [<math.h>] that only the conversion between a complex
    bin and its magnitude and phase uses. *)
Class CPolar (D : Type) : Type := {
  f_sqrt  : D -> D;
  f_cos   : D -> D;
  f_sin   : D -> D;
  f_atan2 : D -> D -> D
}.

Definition fgt {F} `{CFloat F} (x y : F) : bool := flt y x.
Definition fge {F} `{CFloat F} (x y : F) : bool := fle y x.

Declare Scope cfloat_scope.
Delimit Scope cfloat_scope with cf.
Notation "x + y" := (fadd x y) : cfloat_scope.
Notation "x - y" := (fsub x y) : cfloat_scope.
Notation "x * y" := (fmul x y) : cfloat_scope.
Notation "x / y" := (fdiv x y) : cfloat_scope.
Notation "- x" := (fneg x) : cfloat_scope.
Notation "x <? y" := (flt x y) : cfloat_scope.
Notation "x <=? y" := (fle x y) : cfloat_scope.
Notation "x >? y" := (fgt x y) : cfloat_scope.
Notation "x >=? y" := (fge x y) : cfloat_scope.

(** Conversions between the two precisions, [(float)d] and [(double)f]. *)
Class CCast (F D : Type) : Type := {
  to_float  : D -> F;
  to_double : F -> D
}.

(* ================================================================== *)
(** * Arrays *)
(* ================================================================== *)

(** A C array of fixed length is a list; [upd i x l] is the assignment
    [l[i] = x].  Every index the code writes is in range; outside the range
    [upd] leaves the list as it is. *)
Fixpoint upd {A} (i : nat) (x : A) (l : list A) : list A :=
  match l, i with
  | [], _ => []
  | _ :: t, O => x :: t
  | h :: t, S i' => h :: upd i' x t
  end.

(* ================================================================== *)
(** * config.h *)
(* ================================================================== *)

Module Config.
Section Config.
Context {F : Type} `{CFloat F}.

(** [struct BandParams] *)
Record BandParams : Type := {
  threshold    : F;   (* Umbral de compresion en dB *)
  ratio        : F;   (* Ratio de compresion *)
  knee_width   : F;   (* Ancho de la rodilla en dB *)
  gain         : F;   (* Ganancia adicional en dB *)
  attack_time  : F;   (* Tiempo de ataque en segundos *)
  release_time : F    (* Tiempo de liberacion en segundos *)
}.

(** The [#define]s and [const] tables of the header that the compressor
    reads, gathered so that a property can be stated for other tables
    than the header's. *)
Record t : Type := {
  SAMPLE_RATE : Z;
  NUM_BANDS   : nat;
  FFT_SIZE    : nat;
  BAND_LIMITS : list F;            (* NUM_BANDS + 1 entries *)
  BAND_PARAMS : list BandParams    (* NUM_BANDS entries *)
}.

(** The header as it is. *)
Definition config_h : t := {|
  SAMPLE_RATE := 44100;
  NUM_BANDS   := 3;
  FFT_SIZE    := 512;
  BAND_LIMITS := [of_int 250; of_int 1000; of_int 4000; of_int 8000];
  BAND_PARAMS :=
    [ (* Banda Baja (250-1000Hz) *)
      {| threshold := (- lit 50)%cf; ratio := lit 2; knee_width := lit 10;
         gain := lit 15; attack_time := lit (10 # 1000);
         release_time := lit (100 # 1000) |};
      (* Banda Media (1000-4000Hz) *)
      {| threshold := (- lit 45)%cf; ratio := lit 3; knee_width := lit 8;
         gain := lit 10; attack_time := lit (5 # 1000);
         release_time := lit (50 # 1000) |};
      (* Banda Alta (4000-8000Hz) *)
      {| threshold := (- lit 40)%cf; ratio := lit 4; knee_width := lit 6;
         gain := lit 5; attack_time := lit (3 # 1000);
         release_time := lit (25 # 1000) |} ]
|}.
End Config.
Arguments BandParams F : clear implicits.
Arguments t F : clear implicits.
End Config.

(* ================================================================== *)
(** * wdrc.cpp *)
(* ================================================================== *)

Module WDRC.
Section WDRC.
Context {F : Type} `{CFloat F}.
Local Open Scope cfloat_scope.

(** The private members of [class WDRC]. *)
Record t : Type := {
  alpha_attack  : F;
  alpha_release : F;
  envelope      : F;
  threshold     : F;
  ratio         : F;
  knee_width    : F;
  band_gain     : F
}.

Definition set_envelope (e : F) (w : t) : t :=
  {| alpha_attack := alpha_attack w; alpha_release := alpha_release w;
     envelope := e; threshold := threshold w; ratio := ratio w;
     knee_width := knee_width w; band_gain := band_gain w |}.

(** [WDRC::WDRC() : envelope(0.0f)].  The constructor writes the envelope
    only; the other members keep what the storage [mem] held until
    [setParameters] assigns them. *)
Definition ctor (mem : t) : t := set_envelope (lit 0) mem.

(** [WDRC::setParameters]: every member but the envelope is assigned. *)
Definition setParameters (SAMPLE_RATE : Z) (params : Config.BandParams F)
    (w : t) : t :=
  {| threshold := Config.threshold params;
     ratio := Config.ratio params;
     knee_width := Config.knee_width params;
     band_gain := Config.gain params;
     alpha_attack :=
       f_exp (- lit 1 / (of_int SAMPLE_RATE * Config.attack_time params));
     alpha_release :=
       f_exp (- lit 1 / (of_int SAMPLE_RATE * Config.release_time params));
     envelope := envelope w |}.

(** [WDRC::db_to_linear] *)
Definition db_to_linear (db : F) : F := f_pow (lit 10) (db / lit 20).

(** [WDRC::linear_to_db] *)
Definition linear_to_db (linear : F) : F :=
  lit 20 * f_log10 (fabs linear + lit (1 # 1000000000)).

(** [WDRC::process], step 2: the envelope detector. *)
Definition update_envelope (w : t) (input_db : F) : F :=
  if input_db >? envelope w
  then alpha_attack w * envelope w + (lit 1 - alpha_attack w) * input_db
  else alpha_release w * envelope w + (lit 1 - alpha_release w) * input_db.


(** [WDRC::process], step 3: the compression gain for
    [diff = envelope - threshold]. *)
Definition compression_gain (w : t) (diff : F) : F :=
  if fabs diff <=? knee_width w / of_int 2 then
    let knee_factor := diff + knee_width w / of_int 2 in
    (ratio w - of_int 1) * knee_factor * knee_factor
      / (of_int 2 * knee_width w)
  else if diff >? knee_width w / of_int 2 then
    (ratio w - of_int 1) * diff
  else lit 0.

(** [WDRC::process], step 4: [input * db_to_linear(-gain_db + band_gain)],
    the output before the limiter. *)
Definition apply_gain (w : t) (input gain_db : F) : F :=
  input * db_to_linear (- gain_db + band_gain w).

(** [WDRC::process], step 5: the two [if]s of the limiter. *)
Definition limit (output : F) : F :=
  let output := if output >? lit (99 # 100) then lit (99 # 100) else output in
  if output <? - lit (99 # 100) then - lit (99 # 100) else output.

(** The values of [diff], of [gain_db] and of [output] before step 5 in a
    call of [process] on the object [w]. *)
Definition diff_of (w : t) (input : F) : F :=
  update_envelope w (linear_to_db input) - threshold w.

Definition gain_db_of (w : t) (input : F) : F :=
  compression_gain w (diff_of w input).

Definition pre_limit (w : t) (input : F) : F :=
  apply_gain w input (gain_db_of w input).

(** [WDRC::process]: the returned sample and the object after the call. *)
Definition process (w : t) (input : F) : F * t :=
  let input_db := linear_to_db input in
  let env := update_envelope w input_db in
  let w' := set_envelope env w in
  let gain_db := compression_gain w' (envelope w' - threshold w') in
  let output := apply_gain w' input gain_db in
  (limit output, w').

(** [n] successive calls with the same input; the outputs are dropped. *)
Fixpoint feed (n : nat) (input : F) (w : t) : t :=
  match n with
  | O => w
  | S n' => feed n' input (snd (process w input))
  end.
End WDRC.
Arguments t F : clear implicits.
End WDRC.

(* ================================================================== *)
(** * The transform library *)
(* ================================================================== *)

(** [arduinoFFT] is an external library: the object [FFT] points to and the
  two methods the code calls on it.  Both work in place on the pair of
  buffers [(vReal, vImag)] the object was built on.  The embedding takes
  the object as a parameter. *)
Module ArduinoFFT.
Inductive FFTWindow : Set := FFT_WIN_TYP_RECTANGLE | FFT_WIN_TYP_HAMMING.
Inductive FFTDirection : Set := FFT_FORWARD | FFT_REVERSE.

Record t (D : Type) : Type := {
  windowing : FFTWindow -> FFTDirection -> list D * list D -> list D * list D;
  compute   : FFTDirection -> list D * list D -> list D * list D
}.
End ArduinoFFT.

(* ================================================================== *)
(** * multiband_wdrc.cpp *)
(* ================================================================== *)

Module MultibandWDRC.
Import ArduinoFFT.
Section MultibandWDRC.
Context {F D : Type} `{CFloat F} `{CFloat D} `{CPolar D} `{CCast F D}.
Variable cfg : Config.t F.
Local Open Scope cfloat_scope.

Local Abbreviation NUM_BANDS := (Config.NUM_BANDS cfg).
Local Abbreviation FFT_SIZE := (Config.FFT_SIZE cfg).
Local Abbreviation SAMPLE_RATE := (Config.SAMPLE_RATE cfg).

(** [BAND_LIMITS[i]], converted to [double] for the comparison with a
    [double] frequency.  A [const] array is zero where the initialiser
    gives no value. *)
Definition BAND_LIMITS (i : nat) : D :=
  to_double (nth i (Config.BAND_LIMITS cfg) (lit 0)).

(** The private members of [class MultibandWDRC]. *)
Record t : Type := {
  FFT        : ArduinoFFT.t D;
  wdrc_bands : list (WDRC.t F);
  real       : list D;
  imag       : list D
}.

(** [MultibandWDRC::MultibandWDRC]: the band compressors are constructed
    (envelope 0) and each is given its parameters; the transform object
    is built on the two buffers, which the constructor does not write. *)
Definition ctor (fft : ArduinoFFT.t D) (mem : t) : t :=
  {| FFT := fft;
     wdrc_bands :=
       map (fun wp => WDRC.setParameters SAMPLE_RATE (snd wp) (WDRC.ctor (fst wp)))
           (firstn NUM_BANDS (combine (wdrc_bands mem) (Config.BAND_PARAMS cfg)));
     real := real mem;
     imag := imag mem |}.

(** The test of the [if] in [MultibandWDRC::getBandIndex]. *)
Definition in_band (i : nat) (frequency : D) : bool :=
  (frequency >=? BAND_LIMITS i) && (frequency <? BAND_LIMITS (i + 1)).

(** [MultibandWDRC::getBandIndex]: the [for] loop from index [i] with [n]
    iterations left, then the [return -1]. *)
Fixpoint getBandIndex_loop (n i : nat) (frequency : D) : Z :=
  match n with
  | O => (-1)%Z
  | S n' =>
      if in_band i frequency then Z.of_nat i
      else getBandIndex_loop n' (S i) frequency
  end.

Definition getBandIndex (frequency : D) : Z :=
  getBandIndex_loop NUM_BANDS 0 frequency.

(** What the bin loop of [process] works on: the band compressors and
    the two buffers. *)
Definition bins : Type := (list (WDRC.t F) * (list D * list D))%type.

(** The frequency of bin [i]: [(double)i * SAMPLE_RATE / FFT_SIZE]. *)
Definition bin_frequency (i : nat) : D :=
  of_int (Z.of_nat i) * of_int SAMPLE_RATE / of_int (Z.of_nat FFT_SIZE).

(** One iteration of the loop of step 3.  The compressor is read at
    [wdrc_bands[band]]; [band_in_range] below shows the index is inside
    the array, so the [None] case does not arise. *)
Definition bin_step (i : nat) (s : bins) : bins :=
  let '(bands, (re, im)) := s in
  let frequency := bin_frequency i in
  let band := getBandIndex frequency in
  if (band >=? 0)%Z then
    match nth_error bands (Z.to_nat band) with
    | None => s
    | Some w =>
        let re_i := nth i re (lit 0) in
        let im_i := nth i im (lit 0) in
        let mag := f_sqrt (re_i * re_i + im_i * im_i) in
        let phase := f_atan2 im_i re_i in
        let '(out, w') := WDRC.process w (to_float mag) in
        let mag := to_double out in
        let re := upd i (mag * f_cos phase) re in
        let im := upd i (mag * f_sin phase) im in
        let bands := upd (Z.to_nat band) w' bands in
        if Nat.eqb i 0 then (bands, (re, im))
        else (bands, (upd (FFT_SIZE - i) (nth i re (lit 0)) re,
                      upd (FFT_SIZE - i) (- nth i im (lit 0)) im))
    end
  else s.

(** The loop of step 3 over a list of bin indices, in the order given. *)
Definition bin_steps (l : list nat) (s : bins) : bins :=
  fold_left (fun s i => bin_step i s) l s.

(** The loop [for (i = 0; i < FFT_SIZE/2; i++)], in ascending order. *)
Definition bin_loop (s : bins) : bins :=
  bin_steps (seq 0 (FFT_SIZE / 2)) s.

(** Observations on the loop state: the two buffers, and the state with
    bin [h] of both buffers overwritten. *)
Definition re_of (s : bins) : list D := fst (snd s).
Definition im_of (s : bins) : list D := snd (snd s).
Definition poke (h : nat) (x y : D) (s : bins) : bins :=
  (fst s, (upd h x (re_of s), upd h y (im_of s))).

(** The band of bin [i], and whether the loop compresses it. *)
Definition bin_band (i : nat) : Z := getBandIndex (bin_frequency i).
Definition compressed (i : nat) : bool := (bin_band i >=? 0)%Z.

(** Bin [j] is out of the reach of iteration [i]: the iteration compresses
    nothing, or [j] is neither [i] nor the mirror index [FFT_SIZE - i] it
    writes when [i <> 0]. *)
Definition untouched_by (i j : nat) : Prop :=
  compressed i = false \/
  (j <> i /\ (i = 0%nat \/ j <> (FFT_SIZE - i)%nat)).

(** Step 1: copy the input and pad with zeros. *)
Definition prepare (input : list F) (size : nat) : list D * list D :=
  (map (fun i => if (i <? size)%nat then to_double (nth i input (lit 0))
                 else lit 0) (seq 0 FFT_SIZE),
   map (fun _ => lit 0) (seq 0 FFT_SIZE)).

(** Step 5: [output[i] = (float)(real[i] / FFT_SIZE)] for [i < size].  The
    code indexes [real[i]], an array of [FFT_SIZE] entries: this is the loop
    for [size <= FFT_SIZE]; for a larger [size] the code reads past the
    array, which the list lookup does not model. *)
Definition normalize (re : list D) (size : nat) : list F :=
  map (fun i => to_float (nth i re (lit 0) / of_int (Z.of_nat FFT_SIZE)))
      (seq 0 size).

(** [MultibandWDRC::process]: the [size] samples written to [output] and
    the object after the call. *)
Definition process (m : t) (input : list F) (size : nat) : list F * t :=
  let buf := prepare input size in
  let buf := windowing (FFT m) FFT_WIN_TYP_HAMMING FFT_FORWARD buf in
  let buf := compute (FFT m) FFT_FORWARD buf in
  let '(bands, buf) := bin_loop (wdrc_bands m, buf) in
  let buf := compute (FFT m) FFT_REVERSE buf in
  (normalize (fst buf) size,
   {| FFT := FFT m; wdrc_bands := bands; real := fst buf; imag := snd buf |}).
End MultibandWDRC.
End MultibandWDRC.

(* ================================================================== *)
(** * Instance: exact real arithmetic *)
(* ================================================================== *)

(** The idealised reading of the code: every [float] and [double] is a real
    number and every operation is exact.  There is no NaN and no overflow
    here; [x / 0] is the standard library's [x * / 0], which is 0, where the
    code gets an infinity or NaN: what is proved at this instance is stated
    for the calls in which the code divides by a number other than 0. *)
Module Exact.
Local Open Scope R_scope.

Definition Rltb (x y : R) : bool := if Rlt_dec x y then true else false.
Definition Rleb (x y : R) : bool := if Rle_dec x y then true else false.

Definition log10 (x : R) : R := ln x / ln 10.

(** [atan2(y, x)], the angle of the point [(x, y)] in [(-PI, PI]]. *)
Definition atan2 (y x : R) : R :=
  if Rlt_dec 0 x then atan (y / x)
  else if Rlt_dec x 0 then
    (if Rle_dec 0 y then atan (y / x) + PI else atan (y / x) - PI)
  else if Rlt_dec 0 y then PI / 2
  else if Rlt_dec y 0 then - (PI / 2)
  else 0.

#[export] Instance R_CFloat : CFloat R := {|
  lit := Q2R;
  of_int := IZR;
  fadd := Rplus;
  fsub := Rminus;
  fmul := Rmult;
  fdiv := Rdiv;
  fneg := Ropp;
  fabs := Rabs;
  flt := Rltb;
  fle := Rleb;
  f_exp := exp;
  f_log10 := log10;
  f_pow := Rpower
|}.

#[export] Instance R_CPolar : CPolar R := {|
  f_sqrt := sqrt;
  f_cos := cos;
  f_sin := sin;
  f_atan2 := atan2
|}.

#[export] Instance R_CCast : CCast R R := {|
  to_float := fun d => d;
  to_double := fun f => f
|}.

(** The compressor of band [i] of [config.h], as [setParameters] leaves it,
    at the moment its envelope is [env]. *)
Definition band (i : nat) (env : R) : WDRC.t R :=
  WDRC.set_envelope env
    (WDRC.setParameters (Config.SAMPLE_RATE Config.config_h)
       (nth i (Config.BAND_PARAMS Config.config_h)
            (Config.Build_BandParams 0 0 0 0 0 0))
       (WDRC.Build_t 0 0 0 0 0 0 0)).

(** A table of band limits that is not increasing. *)
Definition malformed : Config.t R := {|
  Config.SAMPLE_RATE := 44100;
  Config.NUM_BANDS := 3;
  Config.FFT_SIZE := 512;
  Config.BAND_LIMITS := [1000; 250; 4000; 100];
  Config.BAND_PARAMS := Config.BAND_PARAMS Config.config_h
|}.

(** The loop state of the processor of [config.h] on a block of 512 ones:
    three compressors with their envelope at 0, a real buffer of ones and an
    imaginary buffer of zeros. *)
Definition ones : MultibandWDRC.bins (F := R) (D := R) :=
  ([band 0 0; band 1 0; band 2 0], (repeat 1 512, repeat 0 512)).

(** The sample whose level is exactly -30 dB: [|x| + 1e-9 = 10^(-30/20)]. *)
Definition sample_minus_30 : R := Rpower 10 (- (3 / 2)) - / 1000000000.

(** ** The transform library in exact arithmetic *)

Fixpoint sum_n (f : nat -> R) (n : nat) : R :=
  match n with
  | O => 0
  | S n' => sum_n f n' + f n'
  end.

Definition angle (N k n : nat) : R := 2 * PI * INR k * INR n / INR N.

(** The sum [X[k] = sum over n of x[n] * e^(sgn * i * angle k n)] on the
    real and imaginary buffers; [sgn] is -1 forward and 1 in reverse. *)
Definition dft (sgn : R) (buf : list R * list R) : list R * list R :=
  let N := length (fst buf) in
  let re n := nth n (fst buf) 0 in
  let im n := nth n (snd buf) 0 in
  (map (fun k => sum_n (fun n => re n * cos (angle N k n)
                                 - sgn * im n * sin (angle N k n)) N)
       (seq 0 N),
   map (fun k => sum_n (fun n => im n * cos (angle N k n)
                                 + sgn * re n * sin (angle N k n)) N)
       (seq 0 N)).

(** The Hamming weight of sample [i] of [N]; the library computes it for the
    first half and uses it for the mirror sample too. *)
Definition hamming (N i : nat) : R :=
  let w j := 54 / 100 - 46 / 100 * cos (2 * PI * (INR j / (INR N - 1))) in
  if (i <? N / 2)%nat then w i
  else if (N - 1 - i <? N / 2)%nat then w (N - 1 - i)%nat
  else 1.

(** Modelled from the spec: the transform library [arduinoFFT] is not among
    the sources.  Section 4.1 of the specification describes what the code
    uses of it: a Hamming window on the real buffer, the [N]-point forward
    transform, and the inverse transform, with a forward and inverse round
    trip that scales by [N] (the inverse does not divide). *)
Definition arduinoFFT : ArduinoFFT.t R := {|
  ArduinoFFT.windowing := fun wt dir buf =>
    match wt with
    | ArduinoFFT.FFT_WIN_TYP_RECTANGLE => buf
    | ArduinoFFT.FFT_WIN_TYP_HAMMING =>
        let N := length (fst buf) in
        (map (fun i =>
                match dir with
                | ArduinoFFT.FFT_FORWARD => nth i (fst buf) 0 * hamming N i
                | ArduinoFFT.FFT_REVERSE => nth i (fst buf) 0 / hamming N i
                end) (seq 0 N),
         snd buf)
    end;
  ArduinoFFT.compute := fun dir =>
    match dir with
    | ArduinoFFT.FFT_FORWARD => dft (-1)
    | ArduinoFFT.FFT_REVERSE => dft 1
    end
|}.

(** What section 4.1 says of a transform object on buffers of length [N]:
    the window multiplies sample [i] of the real buffer by a weight, and
    the forward transform followed by the inverse one scales by [N]. *)
Definition window_contract (fft : ArduinoFFT.t R) (N : nat)
    (weight : nat -> R) : Prop :=
  forall re im : list R, length re = N ->
    ArduinoFFT.windowing fft ArduinoFFT.FFT_WIN_TYP_HAMMING
      ArduinoFFT.FFT_FORWARD (re, im)
    = (map (fun i => nth i re 0 * weight i) (seq 0 N), im).

Definition round_trip_contract (fft : ArduinoFFT.t R) (N : nat) : Prop :=
  forall re im : list R, length re = N -> length im = N ->
    ArduinoFFT.compute fft ArduinoFFT.FFT_REVERSE
      (ArduinoFFT.compute fft ArduinoFFT.FFT_FORWARD (re, im))
    = (map (Rmult (INR N)) re, map (Rmult (INR N)) im).

(** [config.h] with the band table emptied: no band, no limit, no
    parameters. *)
Definition no_bands : Config.t R := {|
  Config.SAMPLE_RATE := 44100;
  Config.NUM_BANDS := 0;
  Config.FFT_SIZE := 512;
  Config.BAND_LIMITS := [];
  Config.BAND_PARAMS := []
|}.

(** The processor for [no_bands] on the exact transform. *)
Definition no_bands_processor : MultibandWDRC.t (F := R) (D := R) := {|
  MultibandWDRC.FFT := arduinoFFT;
  MultibandWDRC.wdrc_bands := [];
  MultibandWDRC.real := repeat 0 512;
  MultibandWDRC.imag := repeat 0 512
|}.

(** The invariant of the data model: the band limits are strictly
    increasing. *)
Definition increasing (cfg : Config.t R) : Prop :=
  forall i j : nat, (i < j <= Config.NUM_BANDS cfg)%nat ->
    MultibandWDRC.BAND_LIMITS cfg i < MultibandWDRC.BAND_LIMITS cfg j.
End Exact.

(* ================================================================== *)
(** * Instance: IEEE-754 binary floating point *)
(* ================================================================== *)

(** [float] is binary32 and [double] is binary64.  The arithmetic is the
    standard library's specification of IEEE-754 ([SFadd], [SFmul], [SFdiv],
    ... on [spec_float], round to nearest even), so rounding, overflow,
    signed zeros, infinities and NaN are what the hardware computes.  The
    three functions of [<math.h>] are a parameter [libm]: what is proved for
    every [libm] does not depend on how a C library rounds them.  [ideal] is
    the library that rounds the exact value correctly and treats the special
    values as Annex F of the C standard says. *)
Module IEEE.

Record libm : Type := {
  m_exp   : spec_float -> spec_float;
  m_log10 : spec_float -> spec_float;
  m_pow   : spec_float -> spec_float -> spec_float
}.

Section Format.
Variables prec emax : Z.

Definition of_Z (z : Z) : spec_float := binary_normalize prec emax z 0 false.

(** A literal [n/d], for [n] and [d] that the format holds exactly (every
    literal of the sources is one): the quotient is rounded once. *)
Definition of_Q (q : Q) : spec_float :=
  SFdiv prec emax (of_Z (Qnum q)) (of_Z (Zpos (Qden q))).

Definition ieee (L : libm) : CFloat spec_float := {|
  lit := of_Q;
  of_int := of_Z;
  fadd := SFadd prec emax;
  fsub := SFsub prec emax;
  fmul := SFmul prec emax;
  fdiv := SFdiv prec emax;
  fneg := SFopp;
  fabs := SFabs;
  flt := SFltb;
  fle := SFleb;
  f_exp := m_exp L;
  f_log10 := m_log10 L;
  f_pow := m_pow L
|}.

(** ** The correctly rounded library *)

Local Open Scope R_scope.

(** The real number a floating-point datum stands for (0 for the special
    values). *)
Definition SF2R (x : spec_float) : R :=
  match x with
  | S754_finite s m e => IZR (cond_Zopp s (Zpos m)) * powerRZ 2 e
  | _ => 0
  end.

Definition Zfloor (x : R) : Z := (up x - 1)%Z.

Definition Znearest_even (x : R) : Z :=
  let f := Zfloor x in
  if Rlt_dec (x - IZR f) (/ 2) then f
  else if Rlt_dec (/ 2) (x - IZR f) then (f + 1)%Z
  else if Z.even f then f else (f + 1)%Z.

(** Rounding of [a > 0] with sign [s]: the integer nearest to [a] in units
    of the last place of its binade, then [binary_normalize] for the carry
    out of the mantissa and for overflow. *)
Definition round_pos (s : bool) (a : R) : spec_float :=
  let e := fexp prec emax (Zfloor (ln a / ln 2) + 1) in
  binary_normalize prec emax
    (cond_Zopp s (Znearest_even (a * powerRZ 2 (- e)))) e s.

Definition round (x : R) : spec_float :=
  if Rlt_dec 0 x then round_pos false x
  else if Rlt_dec x 0 then round_pos true (- x)
  else S754_zero false.

Definition SFone : spec_float := of_Z 1.

Definition is_neg (x : spec_float) : bool := SFltb x (S754_zero false).

(** [y] is an odd integer. *)
Definition is_odd (y : spec_float) : bool :=
  match y with
  | S754_finite _ m e =>
      match e with
      | Z0 => Z.odd (Zpos m)
      | Zpos _ => false
      | Zneg k => (Zpos m mod 2 ^ Zpos k =? 0)%Z && Z.odd (Zpos m / 2 ^ Zpos k)
      end
  | _ => false
  end.

(** [y] is an integer. *)
Definition is_int (y : spec_float) : bool :=
  match y with
  | S754_finite _ m e =>
      match e with
      | Zneg k => (Zpos m mod 2 ^ Zpos k =? 0)%Z
      | _ => true
      end
  | _ => false
  end.

Definition ideal_exp (x : spec_float) : spec_float :=
  match x with
  | S754_nan => S754_nan
  | S754_infinity false => S754_infinity false
  | S754_infinity true => S754_zero false
  | S754_zero _ => SFone
  | S754_finite _ _ _ => round (exp (SF2R x))
  end.

Definition ideal_log10 (x : spec_float) : spec_float :=
  match x with
  | S754_nan => S754_nan
  | S754_zero _ => S754_infinity true
  | S754_infinity false => S754_infinity false
  | S754_infinity true => S754_nan
  | S754_finite true _ _ => S754_nan
  | S754_finite false _ _ => round (ln (SF2R x) / ln 10)
  end.

Definition ideal_pow (x y : spec_float) : spec_float :=
  match y with
  | S754_zero _ => SFone
  | _ =>
    if SFeqb x SFone then SFone else
    match x, y with
    | S754_nan, _ | _, S754_nan => S754_nan
    | S754_zero sx, _ =>
        if is_neg y then S754_infinity (sx && is_odd y)
        else S754_zero (sx && is_odd y)
    | S754_infinity sx, _ =>
        if is_neg y then S754_zero (sx && is_odd y)
        else S754_infinity (sx && is_odd y)
    | S754_finite _ _ _, S754_infinity sy =>
        match SFcompare (SFabs x) SFone with
        | Some Lt => if sy then S754_infinity false else S754_zero false
        | Some Gt => if sy then S754_zero false else S754_infinity false
        | _ => SFone
        end
    | S754_finite false _ _, _ => round (Rpower (SF2R x) (SF2R y))
    | S754_finite true _ _, _ =>
        if is_int y then
          round ((if is_odd y then -1 else 1) * Rpower (- SF2R x) (SF2R y))
        else S754_nan
    end
  end.

Definition ideal : libm := {|
  m_exp := ideal_exp;
  m_log10 := ideal_log10;
  m_pow := ideal_pow
|}.

Definition is_nan (x : spec_float) : bool :=
  match x with S754_nan => true | _ => false end.

Definition is_finite (x : spec_float) : bool :=
  match x with S754_zero _ | S754_finite _ _ _ => true | _ => false end.

Definition is_zero (x : spec_float) : bool :=
  match x with S754_zero _ => true | _ => false end.
End Format.

(** [float] and [double]. *)
Definition binary32 : libm -> CFloat spec_float := ieee 24 128.
Definition binary64 : libm -> CFloat spec_float := ieee 53 1024.

(** A compressor as the constructor and [setParameters] leave it for the
    parameters [{0.0f, 2.0f, 0.0f, 0.0f, 0.010f, 0.100f}]: a hard knee
    (width 0) at a threshold of 0 dB, ratio 2, no band gain.  The two
    coefficients are [exp(-1/441)] and [exp(-1/4410)] rounded to binary32,
    0.99773502 and 0.99977326. *)
Definition hard_knee : WDRC.t spec_float := {|
  WDRC.alpha_attack := S754_finite false 16739216 (-24);
  WDRC.alpha_release := S754_finite false 16773412 (-24);
  WDRC.envelope := of_Q 24 128 0;
  WDRC.threshold := of_Q 24 128 0;
  WDRC.ratio := of_Q 24 128 2;
  WDRC.knee_width := of_Q 24 128 0;
  WDRC.band_gain := of_Q 24 128 0
|}.


(** [(double)f] is exact and [(float)d] rounds; both put the mantissa in
    the canonical form of the target format. *)
Definition float_double : CCast spec_float spec_float := {|
  to_float := fun d =>
    match d with
    | S754_finite s m e => binary_round 24 128 s m e
    | _ => d
    end;
  to_double := fun f =>
    match f with
    | S754_finite s m e => binary_round 53 1024 s m e
    | _ => f
    end
|}.
End IEEE.

(* ================================================================== *)
(** * Aurivox2/audio_hardware.cpp *)
(* ================================================================== *)

(** The I2S driver is external.  The embedding keeps the two [static]
    flags of the file and the log of the calls made to the driver, each
    with the value it returned; what a call returns is a parameter
    [driver], a function of the call and of the log before it. *)
Module AudioHardware.

Inductive i2s_port_t : Set := I2S_PORT_MIC | I2S_PORT_DAC.

Inductive driver_call : Set :=
| i2s_driver_install (port : i2s_port_t)
| i2s_set_pin (port : i2s_port_t)
| i2s_driver_uninstall (port : i2s_port_t)
| i2s_start (port : i2s_port_t)
| i2s_stop (port : i2s_port_t).

Definition esp_err_t : Set := Z.
Definition ESP_OK : esp_err_t := 0%Z.

Definition log : Set := list (driver_call * esp_err_t).

Record state : Set := {
  i2s_hardware_initialized : bool;
  audio_streams_running    : bool;
  calls                    : log
}.

(** The file's static initialisers, before any driver call. *)
Definition boot : state := {|
  i2s_hardware_initialized := false;
  audio_streams_running := false;
  calls := []
|}.

Definition port_eqb (p q : i2s_port_t) : bool :=
  match p, q with
  | I2S_PORT_MIC, I2S_PORT_MIC | I2S_PORT_DAC, I2S_PORT_DAC => true
  | _, _ => false
  end.

Section AudioHardware.
Variable driver : log -> driver_call -> esp_err_t.

(** One call to the driver: its value, and the log with the call added. *)
Definition call (c : driver_call) (s : state) : esp_err_t * state :=
  let err := driver (calls s) c in
  (err, {| i2s_hardware_initialized := i2s_hardware_initialized s;
           audio_streams_running := audio_streams_running s;
           calls := calls s ++ [(c, err)] |}).

(** [configure_microphone] *)
Definition configure_microphone (s : state) : esp_err_t * state :=
  let '(err, s) := call (i2s_driver_install I2S_PORT_MIC) s in
  if negb (err =? ESP_OK)%Z then (err, s)
  else
    let '(err, s) := call (i2s_set_pin I2S_PORT_MIC) s in
    if negb (err =? ESP_OK)%Z
    then (err, snd (call (i2s_driver_uninstall I2S_PORT_MIC) s))
    else (ESP_OK, s).

(** [configure_dac] *)
Definition configure_dac (s : state) : esp_err_t * state :=
  let '(err, s) := call (i2s_driver_install I2S_PORT_DAC) s in
  if negb (err =? ESP_OK)%Z then (err, s)
  else
    let '(err, s) := call (i2s_set_pin I2S_PORT_DAC) s in
    if negb (err =? ESP_OK)%Z
    then (err, snd (call (i2s_driver_uninstall I2S_PORT_DAC) s))
    else (ESP_OK, s).

(** [initialize_i2s_hardware] *)
Definition initialize_i2s_hardware (s : state) : state :=
  if i2s_hardware_initialized s then s
  else
    let '(mic_result, s) := configure_microphone s in
    if negb (mic_result =? ESP_OK)%Z then s
    else
      let '(dac_result, s) := configure_dac s in
      if negb (dac_result =? ESP_OK)%Z
      then snd (call (i2s_driver_uninstall I2S_PORT_MIC) s)
      else {| i2s_hardware_initialized := true;
              audio_streams_running := audio_streams_running s;
              calls := calls s |}.

(** [start_audio_streams] *)
Definition start_audio_streams (s : state) : state :=
  if negb (i2s_hardware_initialized s) then s
  else if audio_streams_running s then s
  else
    let '(mic_start, s) := call (i2s_start I2S_PORT_MIC) s in
    if negb (mic_start =? ESP_OK)%Z then s
    else
      let '(dac_start, s) := call (i2s_start I2S_PORT_DAC) s in
      if negb (dac_start =? ESP_OK)%Z
      then snd (call (i2s_stop I2S_PORT_MIC) s)
      else {| i2s_hardware_initialized := i2s_hardware_initialized s;
              audio_streams_running := true;
              calls := calls s |}.

(** [stop_audio_streams] *)
Definition stop_audio_streams (s : state) : state :=
  if negb (audio_streams_running s) then s
  else
    let s := snd (call (i2s_stop I2S_PORT_MIC) s) in
    let s := snd (call (i2s_stop I2S_PORT_DAC) s) in
    {| i2s_hardware_initialized := i2s_hardware_initialized s;
       audio_streams_running := false;
       calls := calls s |}.

(** [restart_audio_streams]; the [delay(100)] between the two calls has no
    effect on the state. *)
Definition restart_audio_streams (s : state) : state :=
  start_audio_streams (stop_audio_streams s).

(** [is_i2s_hardware_ready], [are_audio_streams_running] *)
Definition is_i2s_hardware_ready (s : state) : bool :=
  i2s_hardware_initialized s.
Definition are_audio_streams_running (s : state) : bool :=
  audio_streams_running s.

(** The public functions that change the state, and a sequence of calls
    of them. *)
Inductive operation : Set :=
| Initialize | Start | Stop | Restart.

Definition exec (o : operation) (s : state) : state :=
  match o with
  | Initialize => initialize_i2s_hardware s
  | Start => start_audio_streams s
  | Stop => stop_audio_streams s
  | Restart => restart_audio_streams s
  end.

Definition run (ops : list operation) (s : state) : state :=
  fold_left (fun s o => exec o s) ops s.
End AudioHardware.

(** What a log says of the driver of [port]: it is installed from an
    [i2s_driver_install] that returned [ESP_OK] until the next
    [i2s_driver_uninstall], and its stream runs from an [i2s_start] that
    returned [ESP_OK] until the next [i2s_stop]. *)
Definition installed_step (port : i2s_port_t) (b : bool)
    (e : driver_call * esp_err_t) : bool :=
  match e with
  | (i2s_driver_install p, err) =>
      if port_eqb p port && (err =? ESP_OK)%Z then true else b
  | (i2s_driver_uninstall p, _) => if port_eqb p port then false else b
  | _ => b
  end.

Definition started_step (port : i2s_port_t) (b : bool)
    (e : driver_call * esp_err_t) : bool :=
  match e with
  | (i2s_start p, err) =>
      if port_eqb p port && (err =? ESP_OK)%Z then true else b
  | (i2s_stop p, _) => if port_eqb p port then false else b
  | _ => b
  end.

Definition installed (port : i2s_port_t) (l : log) : bool :=
  fold_left (installed_step port) l false.

Definition started (port : i2s_port_t) (l : log) : bool :=
  fold_left (started_step port) l false.

(** The two flags say what the log says: the hardware flag is set exactly
    when both drivers are installed, the stream flag exactly when both
    streams run, and streams run on initialised hardware only. *)
Definition consistent (s : state) : Prop :=
  installed I2S_PORT_MIC (calls s) = i2s_hardware_initialized s
  /\ installed I2S_PORT_DAC (calls s) = i2s_hardware_initialized s
  /\ started I2S_PORT_MIC (calls s) = audio_streams_running s
  /\ started I2S_PORT_DAC (calls s) = audio_streams_running s
  /\ (audio_streams_running s = true -> i2s_hardware_initialized s = true).
End AudioHardware.

(* ================================================================== *)
(** * Aurivox2/audio_config.h, audio_config.cpp *)
(* ================================================================== *)

Module AudioConfig.

(** The [#define]s of [audio_config.h] that the code below reads. *)
Definition CONFIG_VERSION : Z := 1.
Definition GAIN_LEVELS_COUNT : Z := 5.
Definition EQ_BANDS_COUNT : nat := 6.
Definition DEBOUNCE_DELAY : Z := 50.
Definition SLEEP_HOLD_TIME : Z := 3000.
Definition PIP_FREQUENCY : Z := 1000.
Definition PIP_AMPLITUDE : Q := 5 # 10.
Definition PIP_DURATION_MS : Z := 200.
Definition PIP_GAP_MS : Z := 100.
Definition PI : Q := 314159265359 # 100000000000.

(** [enum PresetType] *)
Inductive PresetType : Set :=
| PRESET_DEFAULT | PRESET_MILD_LOSS | PRESET_MODERATE_LOSS
| PRESET_SEVERE_LOSS | PRESET_MUSIC | PRESET_SPEECH | PRESET_CUSTOM.

Section AudioConfig.
Context {F : Type} `{CFloat F}.
Local Open Scope cfloat_scope.

(** [extern const int SAMPLE_RATE], [BUFFER_SIZE]: the sources declare
    them and leave their definition to the sketch. *)
Variables SAMPLE_RATE BUFFER_SIZE : Z.

(** [struct PipSystem] *)
Record PipSystem : Type := {
  active                 : bool;
  total_pips             : Z;
  remaining_pips         : Z;
  samples_in_current_pip : Z;
  pip_start_time         : Z;
  pip_gap_start          : Z;
  in_gap                 : bool;
  phase                  : F
}.

(** [struct AudioConfig]; the array [eq_gains] is a list of
    [EQ_BANDS_COUNT] entries. *)
Record AudioConfig : Type := {
  version            : Z;
  gain_level         : Z;
  highpass_enabled   : bool;
  highpass_freq      : F;
  eq_enabled         : bool;
  eq_gains           : list F;
  wdrc_enabled       : bool;
  wdrc_threshold     : F;
  wdrc_ratio         : F;
  wdrc_attack        : F;
  wdrc_release       : F;
  limiter_enabled    : bool;
  limiter_threshold  : F;
  bluetooth_enabled  : bool;
  cross_mode_enabled : bool;
  checksum           : Z
}.

(** [const int PIP_SAMPLES = (SAMPLE_RATE * 200) / 1000], in [int]
    arithmetic (the division truncates). *)
Definition PIP_SAMPLES : Z := Z.quot (SAMPLE_RATE * 200) 1000.

(** [const float gain_levels[5]] and the read [gain_levels[i]]; there is no
    value outside the array. *)
Definition gain_levels : list F :=
  [lit 0; lit (25 # 100); lit (50 # 100); lit (75 # 100); lit 1].

Definition gain_levels_at (i : Z) : option F :=
  if (0 <=? i)%Z && (i <? 5)%Z then nth_error gain_levels (Z.to_nat i)
  else None.

(** [ms_to_samples], [samples_to_ms] *)
Definition ms_to_samples (ms : F) : F := ms * of_int SAMPLE_RATE / lit 1000.

Definition samples_to_ms (samples : Z) : F :=
  of_int samples * lit 1000 / of_int SAMPLE_RATE.

(** [validate_system_config]; the two tests [4096 < 2048] are false. *)
Definition validate_system_config : bool :=
  let latency_ms := samples_to_ms BUFFER_SIZE in
  if latency_ms >? lit 25 then false
  else if (4096 <? 2048)%Z then false
  else if (4096 <? 2048)%Z then false
  else true.

(** [calculate_default_checksum] adds up the bytes of the object, all but
    the last four, which hold the field [checksum].  The bytes of an object
    are the compiler's; the embedding takes the sum as a function of the
    fields. *)
Variable calculate_default_checksum : AudioConfig -> Z.

Definition set_checksum (k : Z) (c : AudioConfig) : AudioConfig :=
  {| version := version c; gain_level := gain_level c;
     highpass_enabled := highpass_enabled c; highpass_freq := highpass_freq c;
     eq_enabled := eq_enabled c; eq_gains := eq_gains c;
     wdrc_enabled := wdrc_enabled c; wdrc_threshold := wdrc_threshold c;
     wdrc_ratio := wdrc_ratio c; wdrc_attack := wdrc_attack c;
     wdrc_release := wdrc_release c; limiter_enabled := limiter_enabled c;
     limiter_threshold := limiter_threshold c;
     bluetooth_enabled := bluetooth_enabled c;
     cross_mode_enabled := cross_mode_enabled c; checksum := k |}.

(** The last statement of every preset:
    [config.checksum = calculate_default_checksum(&config)]. *)
Definition seal (config : AudioConfig) : AudioConfig :=
  set_checksum (calculate_default_checksum config) config.

(** [DEFAULT_CONFIG] *)
Definition DEFAULT_CONFIG : AudioConfig :=
  seal {| version := CONFIG_VERSION;
          gain_level := 2;
          highpass_enabled := false;
          highpass_freq := lit 100;
          eq_enabled := false;
          eq_gains := [lit 0; lit 0; lit 0; lit 0; lit 0; lit 0];
          wdrc_enabled := false;
          wdrc_threshold := - lit 20;
          wdrc_ratio := lit 2;
          wdrc_attack := lit 10;
          wdrc_release := lit 100;
          limiter_enabled := false;
          limiter_threshold := - lit 6;
          bluetooth_enabled := false;
          cross_mode_enabled := false;
          checksum := 0 |}.

(** [MILD_LOSS_CONFIG] *)
Definition MILD_LOSS_CONFIG : AudioConfig :=
  let config := DEFAULT_CONFIG in
  seal {| version := version config;
          gain_level := 3;
          highpass_enabled := true;
          highpass_freq := lit 80;
          eq_enabled := true;
          eq_gains := [- lit 2; lit 0; lit 2; lit 4; lit 6; lit 3];
          wdrc_enabled := true;
          wdrc_threshold := - lit 25;
          wdrc_ratio := lit (15 # 10);
          wdrc_attack := wdrc_attack config;
          wdrc_release := wdrc_release config;
          limiter_enabled := limiter_enabled config;
          limiter_threshold := limiter_threshold config;
          bluetooth_enabled := bluetooth_enabled config;
          cross_mode_enabled := cross_mode_enabled config;
          checksum := checksum config |}.

(** [MODERATE_LOSS_CONFIG] *)
Definition MODERATE_LOSS_CONFIG : AudioConfig :=
  let config := DEFAULT_CONFIG in
  seal {| version := version config;
          gain_level := 4;
          highpass_enabled := true;
          highpass_freq := lit 120;
          eq_enabled := true;
          eq_gains := [- lit 3; lit 1; lit 5; lit 8; lit 10; lit 6];
          wdrc_enabled := true;
          wdrc_threshold := - lit 20;
          wdrc_ratio := lit (25 # 10);
          wdrc_attack := wdrc_attack config;
          wdrc_release := wdrc_release config;
          limiter_enabled := true;
          limiter_threshold := - lit 3;
          bluetooth_enabled := bluetooth_enabled config;
          cross_mode_enabled := cross_mode_enabled config;
          checksum := checksum config |}.

(** [SEVERE_LOSS_CONFIG] *)
Definition SEVERE_LOSS_CONFIG : AudioConfig :=
  let config := DEFAULT_CONFIG in
  seal {| version := version config;
          gain_level := 4;
          highpass_enabled := true;
          highpass_freq := lit 150;
          eq_enabled := true;
          eq_gains := [- lit 5; lit 2; lit 8; lit 12; lit 15; lit 8];
          wdrc_enabled := true;
          wdrc_threshold := - lit 15;
          wdrc_ratio := lit 4;
          wdrc_attack := lit 5;
          wdrc_release := lit 200;
          limiter_enabled := true;
          limiter_threshold := - lit 1;
          bluetooth_enabled := bluetooth_enabled config;
          cross_mode_enabled := cross_mode_enabled config;
          checksum := checksum config |}.

(** [MUSIC_CONFIG] *)
Definition MUSIC_CONFIG : AudioConfig :=
  let config := DEFAULT_CONFIG in
  seal {| version := version config;
          gain_level := 2;
          highpass_enabled := false;
          highpass_freq := highpass_freq config;
          eq_enabled := true;
          eq_gains := [lit 2; lit 1; lit 0; lit 1; lit 3; lit 4];
          wdrc_enabled := true;
          wdrc_threshold := - lit 30;
          wdrc_ratio := lit (12 # 10);
          wdrc_attack := lit 20;
          wdrc_release := lit 500;
          limiter_enabled := limiter_enabled config;
          limiter_threshold := limiter_threshold config;
          bluetooth_enabled := bluetooth_enabled config;
          cross_mode_enabled := cross_mode_enabled config;
          checksum := checksum config |}.

(** [SPEECH_CONFIG] *)
Definition SPEECH_CONFIG : AudioConfig :=
  let config := DEFAULT_CONFIG in
  seal {| version := version config;
          gain_level := 3;
          highpass_enabled := true;
          highpass_freq := lit 100;
          eq_enabled := true;
          eq_gains := [- lit 2; lit 1; lit 4; lit 6; lit 8; lit 2];
          wdrc_enabled := true;
          wdrc_threshold := - lit 18;
          wdrc_ratio := lit 3;
          wdrc_attack := lit 8;
          wdrc_release := lit 150;
          limiter_enabled := limiter_enabled config;
          limiter_threshold := limiter_threshold config;
          bluetooth_enabled := bluetooth_enabled config;
          cross_mode_enabled := cross_mode_enabled config;
          checksum := checksum config |}.

(** [get_preset_config]; [None] is the [nullptr]. *)
Definition get_preset_config (preset_type : PresetType)
    : option AudioConfig :=
  match preset_type with
  | PRESET_DEFAULT => Some DEFAULT_CONFIG
  | PRESET_MILD_LOSS => Some MILD_LOSS_CONFIG
  | PRESET_MODERATE_LOSS => Some MODERATE_LOSS_CONFIG
  | PRESET_SEVERE_LOSS => Some SEVERE_LOSS_CONFIG
  | PRESET_MUSIC => Some MUSIC_CONFIG
  | PRESET_SPEECH => Some SPEECH_CONFIG
  | PRESET_CUSTOM => None
  end.

(** [validate_audio_config] *)
Definition validate_audio_config (config : option AudioConfig) : bool :=
  match config with
  | None => false
  | Some config =>
    if negb (version config =? CONFIG_VERSION)%Z then false
    else if (gain_level config <? 0)%Z
            || (gain_level config >=? GAIN_LEVELS_COUNT)%Z then false
    else if (highpass_freq config <? lit 20)
            || (highpass_freq config >? lit 1000) then false
    else if existsb
              (fun i => (nth i (eq_gains config) (lit 0) <? - lit 20)
                        || (nth i (eq_gains config) (lit 0) >? lit 20))
              (seq 0 EQ_BANDS_COUNT) then false
    else if (wdrc_threshold config <? - lit 60)
            || (wdrc_threshold config >? lit 0) then false
    else if (wdrc_ratio config <? lit 1)
            || (wdrc_ratio config >? lit 10) then false
    else if (wdrc_attack config <? lit 1)
            || (wdrc_attack config >? lit 1000) then false
    else if (wdrc_release config <? lit 10)
            || (wdrc_release config >? lit 5000) then false
    else if negb (calculate_default_checksum config =? checksum config)%Z
         then false
    else true
  end.

(** [copy_audio_config]: the value returned and the object [dest] points
    to after the call. *)
Definition copy_audio_config (dest src : option AudioConfig)
    : bool * option AudioConfig :=
  match dest, src with
  | None, _ | _, None => (false, dest)
  | Some _, Some _ =>
      if negb (validate_audio_config src) then (false, dest)
      else (true, src)
  end.
End AudioConfig.
Arguments PipSystem F : clear implicits.
Arguments AudioConfig F : clear implicits.
End AudioConfig.

(* ================================================================== *)
(** * Aurivox2/button_control.cpp *)
(* ================================================================== *)

(** The file's globals, the globals of the sketch it declares [extern], and
    what it does to its environment.  [millis()] is a parameter [clock]:
    the value of the [k]-th reading, counted in [reads].  A call of
    [esp_light_sleep_start()] returns at wake-up; [light_sleeps] counts
    the calls.  The two audio functions the file calls are the ones of
    [audio_hardware.cpp].  An interrupt is a call of its routine between
    two calls of the handlers. *)
Module ButtonControl.
Import AudioConfig.

Section ButtonControl.
Context {F D : Type} `{CFloat F} `{CFloat D} `{CPolar D} `{CCast F D}.
Local Open Scope cfloat_scope.

Variable SAMPLE_RATE : Z.
Variable clock : nat -> Z.
Variable driver :
  AudioHardware.log -> AudioHardware.driver_call -> AudioHardware.esp_err_t.

(** The conversion [(int16_t)d] of a [double]. *)
Variable to_int16 : D -> Z.

Record state : Type := {
  (* volatile, set by the interrupt routines *)
  btn_gain_up_flag        : bool;
  btn_gain_down_flag      : bool;
  btn_sleep_flag          : bool;
  last_interrupt_time     : Z;
  (* static *)
  btn_sleep_press_start   : Z;
  btn_sleep_held          : bool;
  sleep_sequence_started  : bool;
  (* extern *)
  audio_processing_active : bool;
  system_sleeping         : bool;
  current_gain_level      : Z;
  gain_factor             : F;
  (* static PipSystem pip_system *)
  pip_system              : PipSystem F;
  (* the environment *)
  reads                   : nat;
  light_sleeps            : nat;
  hardware                : AudioHardware.state
}.

Definition set_btn_gain_up_flag (x : bool) (s : state) : state :=
  {| btn_gain_up_flag := x; btn_gain_down_flag := btn_gain_down_flag s;
     btn_sleep_flag := btn_sleep_flag s;
     last_interrupt_time := last_interrupt_time s;
     btn_sleep_press_start := btn_sleep_press_start s;
     btn_sleep_held := btn_sleep_held s;
     sleep_sequence_started := sleep_sequence_started s;
     audio_processing_active := audio_processing_active s;
     system_sleeping := system_sleeping s;
     current_gain_level := current_gain_level s;
     gain_factor := gain_factor s; pip_system := pip_system s;
     reads := reads s; light_sleeps := light_sleeps s;
     hardware := hardware s |}.

Definition set_btn_gain_down_flag (x : bool) (s : state) : state :=
  {| btn_gain_up_flag := btn_gain_up_flag s; btn_gain_down_flag := x;
     btn_sleep_flag := btn_sleep_flag s;
     last_interrupt_time := last_interrupt_time s;
     btn_sleep_press_start := btn_sleep_press_start s;
     btn_sleep_held := btn_sleep_held s;
     sleep_sequence_started := sleep_sequence_started s;
     audio_processing_active := audio_processing_active s;
     system_sleeping := system_sleeping s;
     current_gain_level := current_gain_level s;
     gain_factor := gain_factor s; pip_system := pip_system s;
     reads := reads s; light_sleeps := light_sleeps s;
     hardware := hardware s |}.

Definition set_btn_sleep_flag (x : bool) (s : state) : state :=
  {| btn_gain_up_flag := btn_gain_up_flag s;
     btn_gain_down_flag := btn_gain_down_flag s; btn_sleep_flag := x;
     last_interrupt_time := last_interrupt_time s;
     btn_sleep_press_start := btn_sleep_press_start s;
     btn_sleep_held := btn_sleep_held s;
     sleep_sequence_started := sleep_sequence_started s;
     audio_processing_active := audio_processing_active s;
     system_sleeping := system_sleeping s;
     current_gain_level := current_gain_level s;
     gain_factor := gain_factor s; pip_system := pip_system s;
     reads := reads s; light_sleeps := light_sleeps s;
     hardware := hardware s |}.

Definition set_last_interrupt_time (x : Z) (s : state) : state :=
  {| btn_gain_up_flag := btn_gain_up_flag s;
     btn_gain_down_flag := btn_gain_down_flag s;
     btn_sleep_flag := btn_sleep_flag s; last_interrupt_time := x;
     btn_sleep_press_start := btn_sleep_press_start s;
     btn_sleep_held := btn_sleep_held s;
     sleep_sequence_started := sleep_sequence_started s;
     audio_processing_active := audio_processing_active s;
     system_sleeping := system_sleeping s;
     current_gain_level := current_gain_level s;
     gain_factor := gain_factor s; pip_system := pip_system s;
     reads := reads s; light_sleeps := light_sleeps s;
     hardware := hardware s |}.

Definition set_btn_sleep_press_start (x : Z) (s : state) : state :=
  {| btn_gain_up_flag := btn_gain_up_flag s;
     btn_gain_down_flag := btn_gain_down_flag s;
     btn_sleep_flag := btn_sleep_flag s;
     last_interrupt_time := last_interrupt_time s;
     btn_sleep_press_start := x; btn_sleep_held := btn_sleep_held s;
     sleep_sequence_started := sleep_sequence_started s;
     audio_processing_active := audio_processing_active s;
     system_sleeping := system_sleeping s;
     current_gain_level := current_gain_level s;
     gain_factor := gain_factor s; pip_system := pip_system s;
     reads := reads s; light_sleeps := light_sleeps s;
     hardware := hardware s |}.

Definition set_btn_sleep_held (x : bool) (s : state) : state :=
  {| btn_gain_up_flag := btn_gain_up_flag s;
     btn_gain_down_flag := btn_gain_down_flag s;
     btn_sleep_flag := btn_sleep_flag s;
     last_interrupt_time := last_interrupt_time s;
     btn_sleep_press_start := btn_sleep_press_start s; btn_sleep_held := x;
     sleep_sequence_started := sleep_sequence_started s;
     audio_processing_active := audio_processing_active s;
     system_sleeping := system_sleeping s;
     current_gain_level := current_gain_level s;
     gain_factor := gain_factor s; pip_system := pip_system s;
     reads := reads s; light_sleeps := light_sleeps s;
     hardware := hardware s |}.

Definition set_sleep_sequence_started (x : bool) (s : state) : state :=
  {| btn_gain_up_flag := btn_gain_up_flag s;
     btn_gain_down_flag := btn_gain_down_flag s;
     btn_sleep_flag := btn_sleep_flag s;
     last_interrupt_time := last_interrupt_time s;
     btn_sleep_press_start := btn_sleep_press_start s;
     btn_sleep_held := btn_sleep_held s; sleep_sequence_started := x;
     audio_processing_active := audio_processing_active s;
     system_sleeping := system_sleeping s;
     current_gain_level := current_gain_level s;
     gain_factor := gain_factor s; pip_system := pip_system s;
     reads := reads s; light_sleeps := light_sleeps s;
     hardware := hardware s |}.

Definition set_audio_processing_active (x : bool) (s : state) : state :=
  {| btn_gain_up_flag := btn_gain_up_flag s;
     btn_gain_down_flag := btn_gain_down_flag s;
     btn_sleep_flag := btn_sleep_flag s;
     last_interrupt_time := last_interrupt_time s;
     btn_sleep_press_start := btn_sleep_press_start s;
     btn_sleep_held := btn_sleep_held s;
     sleep_sequence_started := sleep_sequence_started s;
     audio_processing_active := x; system_sleeping := system_sleeping s;
     current_gain_level := current_gain_level s;
     gain_factor := gain_factor s; pip_system := pip_system s;
     reads := reads s; light_sleeps := light_sleeps s;
     hardware := hardware s |}.

Definition set_system_sleeping (x : bool) (s : state) : state :=
  {| btn_gain_up_flag := btn_gain_up_flag s;
     btn_gain_down_flag := btn_gain_down_flag s;
     btn_sleep_flag := btn_sleep_flag s;
     last_interrupt_time := last_interrupt_time s;
     btn_sleep_press_start := btn_sleep_press_start s;
     btn_sleep_held := btn_sleep_held s;
     sleep_sequence_started := sleep_sequence_started s;
     audio_processing_active := audio_processing_active s;
     system_sleeping := x; current_gain_level := current_gain_level s;
     gain_factor := gain_factor s; pip_system := pip_system s;
     reads := reads s; light_sleeps := light_sleeps s;
     hardware := hardware s |}.

Definition set_current_gain_level (x : Z) (s : state) : state :=
  {| btn_gain_up_flag := btn_gain_up_flag s;
     btn_gain_down_flag := btn_gain_down_flag s;
     btn_sleep_flag := btn_sleep_flag s;
     last_interrupt_time := last_interrupt_time s;
     btn_sleep_press_start := btn_sleep_press_start s;
     btn_sleep_held := btn_sleep_held s;
     sleep_sequence_started := sleep_sequence_started s;
     audio_processing_active := audio_processing_active s;
     system_sleeping := system_sleeping s; current_gain_level := x;
     gain_factor := gain_factor s; pip_system := pip_system s;
     reads := reads s; light_sleeps := light_sleeps s;
     hardware := hardware s |}.

Definition set_gain_factor (x : F) (s : state) : state :=
  {| btn_gain_up_flag := btn_gain_up_flag s;
     btn_gain_down_flag := btn_gain_down_flag s;
     btn_sleep_flag := btn_sleep_flag s;
     last_interrupt_time := last_interrupt_time s;
     btn_sleep_press_start := btn_sleep_press_start s;
     btn_sleep_held := btn_sleep_held s;
     sleep_sequence_started := sleep_sequence_started s;
     audio_processing_active := audio_processing_active s;
     system_sleeping := system_sleeping s;
     current_gain_level := current_gain_level s; gain_factor := x;
     pip_system := pip_system s; reads := reads s;
     light_sleeps := light_sleeps s; hardware := hardware s |}.

Definition set_pip_system (x : PipSystem F) (s : state) : state :=
  {| btn_gain_up_flag := btn_gain_up_flag s;
     btn_gain_down_flag := btn_gain_down_flag s;
     btn_sleep_flag := btn_sleep_flag s;
     last_interrupt_time := last_interrupt_time s;
     btn_sleep_press_start := btn_sleep_press_start s;
     btn_sleep_held := btn_sleep_held s;
     sleep_sequence_started := sleep_sequence_started s;
     audio_processing_active := audio_processing_active s;
     system_sleeping := system_sleeping s;
     current_gain_level := current_gain_level s;
     gain_factor := gain_factor s; pip_system := x; reads := reads s;
     light_sleeps := light_sleeps s; hardware := hardware s |}.

Definition set_reads (x : nat) (s : state) : state :=
  {| btn_gain_up_flag := btn_gain_up_flag s;
     btn_gain_down_flag := btn_gain_down_flag s;
     btn_sleep_flag := btn_sleep_flag s;
     last_interrupt_time := last_interrupt_time s;
     btn_sleep_press_start := btn_sleep_press_start s;
     btn_sleep_held := btn_sleep_held s;
     sleep_sequence_started := sleep_sequence_started s;
     audio_processing_active := audio_processing_active s;
     system_sleeping := system_sleeping s;
     current_gain_level := current_gain_level s;
     gain_factor := gain_factor s; pip_system := pip_system s; reads := x;
     light_sleeps := light_sleeps s; hardware := hardware s |}.

Definition set_light_sleeps (x : nat) (s : state) : state :=
  {| btn_gain_up_flag := btn_gain_up_flag s;
     btn_gain_down_flag := btn_gain_down_flag s;
     btn_sleep_flag := btn_sleep_flag s;
     last_interrupt_time := last_interrupt_time s;
     btn_sleep_press_start := btn_sleep_press_start s;
     btn_sleep_held := btn_sleep_held s;
     sleep_sequence_started := sleep_sequence_started s;
     audio_processing_active := audio_processing_active s;
     system_sleeping := system_sleeping s;
     current_gain_level := current_gain_level s;
     gain_factor := gain_factor s; pip_system := pip_system s;
     reads := reads s; light_sleeps := x; hardware := hardware s |}.

Definition set_hardware (x : AudioHardware.state) (s : state) : state :=
  {| btn_gain_up_flag := btn_gain_up_flag s;
     btn_gain_down_flag := btn_gain_down_flag s;
     btn_sleep_flag := btn_sleep_flag s;
     last_interrupt_time := last_interrupt_time s;
     btn_sleep_press_start := btn_sleep_press_start s;
     btn_sleep_held := btn_sleep_held s;
     sleep_sequence_started := sleep_sequence_started s;
     audio_processing_active := audio_processing_active s;
     system_sleeping := system_sleeping s;
     current_gain_level := current_gain_level s;
     gain_factor := gain_factor s; pip_system := pip_system s;
     reads := reads s; light_sleeps := light_sleeps s; hardware := x |}.

(** [unsigned long] is 32 bits wide on the target: a difference of two
    readings wraps around. *)
Definition usub (a b : Z) : Z := ((a - b) mod 2 ^ 32)%Z.

(** [millis()] *)
Definition millis (s : state) : Z * state :=
  (clock (reads s), set_reads (S (reads s)) s).

(** [start_pip_sequence] *)
Definition start_pip_sequence (num_pips : Z) (s : state) : state :=
  let '(now, s) := millis s in
  set_pip_system
    {| active := true;
       total_pips := num_pips;
       remaining_pips := num_pips;
       samples_in_current_pip := PIP_SAMPLES SAMPLE_RATE;
       pip_start_time := now;
       pip_gap_start := pip_gap_start (pip_system s);
       in_gap := false;
       phase := lit 0 |} s.

(** [stop_pip_sequence] *)
Definition stop_pip_sequence (s : state) : state :=
  set_pip_system
    {| active := false;
       total_pips := total_pips (pip_system s);
       remaining_pips := 0;
       samples_in_current_pip := samples_in_current_pip (pip_system s);
       pip_start_time := pip_start_time (pip_system s);
       pip_gap_start := pip_gap_start (pip_system s);
       in_gap := false;
       phase := lit 0 |} s.

(** [btn_gain_up_isr], [btn_gain_down_isr], [btn_sleep_isr] *)
Definition btn_gain_up_isr (s : state) : state :=
  let '(interrupt_time, s) := millis s in
  if (usub interrupt_time (last_interrupt_time s) >? DEBOUNCE_DELAY)%Z
  then set_last_interrupt_time interrupt_time (set_btn_gain_up_flag true s)
  else s.

Definition btn_gain_down_isr (s : state) : state :=
  let '(interrupt_time, s) := millis s in
  if (usub interrupt_time (last_interrupt_time s) >? DEBOUNCE_DELAY)%Z
  then set_last_interrupt_time interrupt_time (set_btn_gain_down_flag true s)
  else s.

Definition btn_sleep_isr (s : state) : state :=
  let '(interrupt_time, s) := millis s in
  if (usub interrupt_time (last_interrupt_time s) >? DEBOUNCE_DELAY)%Z
  then set_last_interrupt_time interrupt_time (set_btn_sleep_flag true s)
  else s.

(** The assignment [gain_factor = gain_levels[current_gain_level]]; [None]
    when the index is outside the array. *)
Definition load_gain_factor (s : state) : option state :=
  match gain_levels_at (current_gain_level s) with
  | Some g => Some (set_gain_factor g s)
  | None => None
  end.

(** [handle_gain_buttons], the block of either button. *)
Definition gain_up (s : state) : option state :=
  if btn_gain_up_flag s then
    let s := set_btn_gain_up_flag false s in
    if (current_gain_level s <? 4)%Z then
      let s := set_current_gain_level (current_gain_level s + 1)%Z s in
      match load_gain_factor s with
      | Some s => Some (start_pip_sequence (current_gain_level s + 1)%Z s)
      | None => None
      end
    else Some (start_pip_sequence 3 s)
  else Some s.

Definition gain_down (s : state) : option state :=
  if btn_gain_down_flag s then
    let s := set_btn_gain_down_flag false s in
    if (current_gain_level s >? 0)%Z then
      let s := set_current_gain_level (current_gain_level s - 1)%Z s in
      match load_gain_factor s with
      | Some s => Some (start_pip_sequence (current_gain_level s + 1)%Z s)
      | None => None
      end
    else Some (start_pip_sequence 1 s)
  else Some s.

(** [handle_gain_buttons] *)
Definition handle_gain_buttons (s : state) : option state :=
  match gain_up s with
  | Some s => gain_down s
  | None => None
  end.

(** [enter_sleep_mode]; [delay], [esp_sleep_enable_ext0_wakeup] and the
    printing leave the state as it is. *)
Definition enter_sleep_mode (s : state) : state :=
  let s := stop_pip_sequence s in
  let s := set_audio_processing_active false s in
  let s := set_system_sleeping true s in
  let s := set_hardware (AudioHardware.stop_audio_streams driver (hardware s)) s in
  let s := set_light_sleeps (S (light_sleeps s)) s in
  (* at wake-up *)
  let s := set_system_sleeping false s in
  let s := set_audio_processing_active true s in
  let s := set_btn_sleep_held false s in
  let s := set_sleep_sequence_started false s in
  let s := set_hardware (AudioHardware.start_audio_streams driver (hardware s)) s in
  start_pip_sequence 2 s.

(** [handle_sleep_button], its three parts; [btn_currently_pressed] is
    [digitalRead(BTN_SLEEP) == LOW], read once at the start. *)
Definition sleep_flag_block (btn_currently_pressed : bool) (s : state)
    : state :=
  if btn_sleep_flag s then
    let s := set_btn_sleep_flag false s in
    if btn_currently_pressed && negb (btn_sleep_held s) then
      let '(now, s) := millis s in
      set_sleep_sequence_started false
        (set_btn_sleep_held true (set_btn_sleep_press_start now s))
    else if negb btn_currently_pressed && btn_sleep_held s then
      let '(now, s) := millis s in
      let press_duration := usub now (btn_sleep_press_start s) in
      let s := set_btn_sleep_held false s in
      let s :=
        if (press_duration >=? 1000)%Z && (press_duration <? SLEEP_HOLD_TIME)%Z
        then stop_pip_sequence s else s in
      set_sleep_sequence_started false s
    else s
  else s.

Definition sleep_hold_block (btn_currently_pressed : bool) (s : state)
    : state :=
  if btn_sleep_held s && btn_currently_pressed then
    let '(now, s) := millis s in
    let press_duration := usub now (btn_sleep_press_start s) in
    if (press_duration >=? 1000)%Z && negb (sleep_sequence_started s) then
      set_sleep_sequence_started true (start_pip_sequence 3 s)
    else if (press_duration >=? SLEEP_HOLD_TIME)%Z then enter_sleep_mode s
    else s
  else s.

Definition sleep_reset_block (btn_currently_pressed : bool) (s : state)
    : state :=
  if negb btn_currently_pressed
  then set_sleep_sequence_started false (set_btn_sleep_held false s)
  else s.

Definition handle_sleep_button (btn_currently_pressed : bool) (s : state)
    : state :=
  sleep_reset_block btn_currently_pressed
    (sleep_hold_block btn_currently_pressed
       (sleep_flag_block btn_currently_pressed s)).

(** [handle_button_events] *)
Definition handle_button_events (btn_currently_pressed : bool) (s : state)
    : option state :=
  if system_sleeping s then Some s
  else
    match handle_gain_buttons s with
    | Some s => Some (handle_sleep_button btn_currently_pressed s)
    | None => None
    end.

(** [const float phase_increment = 2.0 * PI * PIP_FREQUENCY / SAMPLE_RATE],
    computed in [double]. *)
Definition phase_increment : F :=
  to_float (lit 2 * lit PI * of_int PIP_FREQUENCY / of_int SAMPLE_RATE).

(** The sample of the tone at a phase:
    [(int16_t)(sin(phase) * PIP_AMPLITUDE * 32767)]. *)
Definition tone (ph : F) : Z :=
  to_int16 (f_sin (to_double ph) * lit PIP_AMPLITUDE * of_int 32767).

(** The phase after a sample of the tone. *)
Definition next_phase (ph : F) : F :=
  let ph := ph + phase_increment in
  if to_double ph >=? lit 2 * lit PI
  then to_float (to_double ph - lit 2 * lit PI)
  else ph.

(** [process_pip_audio], one iteration of the loop: sample [i] of the
    buffer. *)
Definition pip_sample (i : nat) (bs : list Z * state) : list Z * state :=
  let '(buffer, s) := bs in
  let p := pip_system s in
  if in_gap p then
    let buffer := upd i 0%Z buffer in
    let '(now, s) := millis s in
    if (usub now (pip_gap_start p) >=? PIP_GAP_MS)%Z then
      let '(now, s) := millis s in
      (buffer,
       set_pip_system
         {| active := active p; total_pips := total_pips p;
            remaining_pips := remaining_pips p;
            samples_in_current_pip := PIP_SAMPLES SAMPLE_RATE;
            pip_start_time := now; pip_gap_start := pip_gap_start p;
            in_gap := false; phase := phase p |} s)
    else (buffer, s)
  else if (samples_in_current_pip p >? 0)%Z then
    (upd i (tone (phase p)) buffer,
     set_pip_system
       {| active := active p; total_pips := total_pips p;
          remaining_pips := remaining_pips p;
          samples_in_current_pip := (samples_in_current_pip p - 1)%Z;
          pip_start_time := pip_start_time p;
          pip_gap_start := pip_gap_start p;
          in_gap := in_gap p; phase := next_phase (phase p) |} s)
  else if (remaining_pips p - 1 >? 0)%Z then
    let '(now, s) := millis s in
    (upd i 0%Z buffer,
     set_pip_system
       {| active := active p; total_pips := total_pips p;
          remaining_pips := (remaining_pips p - 1)%Z;
          samples_in_current_pip := samples_in_current_pip p;
          pip_start_time := pip_start_time p; pip_gap_start := now;
          in_gap := true; phase := phase p |} s)
  else
    (upd i 0%Z buffer,
     set_pip_system
       {| active := false; total_pips := total_pips p;
          remaining_pips := (remaining_pips p - 1)%Z;
          samples_in_current_pip := samples_in_current_pip p;
          pip_start_time := pip_start_time p;
          pip_gap_start := pip_gap_start p;
          in_gap := in_gap p; phase := phase p |} s).

(** The loop [for (i = 0; i < num_samples; i++)] from sample [i] on, with
    [n] iterations left. *)
Fixpoint pip_samples (n i : nat) (bs : list Z * state) : list Z * state :=
  match n with
  | O => bs
  | S n' => pip_samples n' (S i) (pip_sample i bs)
  end.

(** [process_pip_audio]: the value returned, the buffer and the state. *)
Definition process_pip_audio (buffer : list Z) (num_samples : nat)
    (s : state) : bool * (list Z * state) :=
  if negb (active (pip_system s)) then (false, (buffer, s))
  else (true, pip_samples num_samples 0 (buffer, s)).

(** [are_pips_active], [force_stop_pips] *)
Definition are_pips_active (s : state) : bool := active (pip_system s).

Definition force_stop_pips (s : state) : state :=
  if active (pip_system s) then stop_pip_sequence s else s.

(** [get_current_gain_level], [get_current_gain_factor],
    [is_system_sleeping] *)
Definition get_current_gain_level (s : state) : Z :=
  (current_gain_level s + 1)%Z.
Definition get_current_gain_factor (s : state) : F := gain_factor s.
Definition is_system_sleeping (s : state) : bool := system_sleeping s.

(** The gain level is an index of [gain_levels] and the gain factor is the
    entry at that index. *)
Definition gain_ok (s : state) : Prop :=
  (0 <= current_gain_level s <= 4)%Z
  /\ gain_levels_at (current_gain_level s) = Some (gain_factor s).

(** The state at start-up: the initialisers of the file for its own
    globals, and the values the sketch gives the four it defines. *)
Definition initial (audio_active sleeping : bool) (level : Z) (factor : F)
    : state :=
  {| btn_gain_up_flag := false; btn_gain_down_flag := false;
     btn_sleep_flag := false; last_interrupt_time := 0;
     btn_sleep_press_start := 0; btn_sleep_held := false;
     sleep_sequence_started := false;
     audio_processing_active := audio_active; system_sleeping := sleeping;
     current_gain_level := level; gain_factor := factor;
     pip_system :=
       {| active := false; total_pips := 0; remaining_pips := 0;
          samples_in_current_pip := 0; pip_start_time := 0;
          pip_gap_start := 0; in_gap := false; phase := lit 0 |};
     reads := 0; light_sleeps := 0; hardware := AudioHardware.boot |}.

(** What happens to the state between start-up and now: the three
    interrupts, the calls of [handle_button_events] by the control task
    (each with the level of the sleep pin it reads) and the calls of
    [process_pip_audio] by the audio task (each with its buffer). *)
Inductive event : Type :=
| Gain_up_interrupt
| Gain_down_interrupt
| Sleep_interrupt
| Button_events (btn_currently_pressed : bool)
| Pip_audio (buffer : list Z) (num_samples : nat).

Definition step (e : event) (s : state) : option state :=
  match e with
  | Gain_up_interrupt => Some (btn_gain_up_isr s)
  | Gain_down_interrupt => Some (btn_gain_down_isr s)
  | Sleep_interrupt => Some (btn_sleep_isr s)
  | Button_events pressed => handle_button_events pressed s
  | Pip_audio buffer num_samples =>
      Some (snd (snd (process_pip_audio buffer num_samples s)))
  end.

Fixpoint run (es : list event) (s : state) : option state :=
  match es with
  | [] => Some s
  | e :: es' =>
      match step e s with
      | Some s' => run es' s'
      | None => None
      end
  end.
End ButtonControl.
Arguments state F : clear implicits.
End ButtonControl.

(* ================================================================== *)
(** * Aurivox2/serial_commands.cpp *)
(* ================================================================== *)

(** The configuration in RAM, its synchronisation with the globals of the
    sketch, and the functions that load it from and save it to NVS.  NVS is
    external: what [nvs_get_blob] returns (an error code and the object it
    filled) and the codes [nvs_set_blob] and [nvs_commit] return are
    arguments.  The parsing of a command line is not modelled; a command is
    embedded from its parsed arguments on. *)
Module SerialCommands.

Section SerialCommands.
Context {F : Type} `{CFloat F}.
Local Open Scope cfloat_scope.

(** [struct AudioConfig] of this file (it has no Bluetooth fields). *)
Record AudioConfig : Type := {
  version           : Z;
  gain_level        : Z;
  highpass_enabled  : bool;
  highpass_freq     : F;
  eq_enabled        : bool;
  eq_gains          : list F;
  wdrc_enabled      : bool;
  wdrc_threshold    : F;
  wdrc_ratio        : F;
  wdrc_attack       : F;
  wdrc_release      : F;
  limiter_enabled   : bool;
  limiter_threshold : F;
  checksum          : Z
}.

(** [default_config] *)
Definition default_config : AudioConfig := {|
  version := 1;
  gain_level := 2;
  highpass_enabled := false;
  highpass_freq := lit 100;
  eq_enabled := false;
  eq_gains := [lit 0; lit 0; lit 0; lit 0; lit 0; lit 0];
  wdrc_enabled := false;
  wdrc_threshold := - lit 20;
  wdrc_ratio := lit 2;
  wdrc_attack := lit 10;
  wdrc_release := lit 100;
  limiter_enabled := false;
  limiter_threshold := - lit 6;
  checksum := 0
|}.

(** [calculate_checksum] adds up the bytes of the object, all but the last
    four, which hold the field [checksum]; the embedding takes the sum as a
    function of the fields. *)
Variable calculate_checksum : AudioConfig -> Z.

(** The file's statics and the globals of the sketch it shares with
    [button_control.cpp]. *)
Record state : Type := {
  nvs_initialized : bool;
  current_config  : AudioConfig;
  system          : ButtonControl.state F
}.

Definition set_current_config (c : AudioConfig) (s : state) : state :=
  {| nvs_initialized := nvs_initialized s; current_config := c;
     system := system s |}.

Definition set_system (y : ButtonControl.state F) (s : state) : state :=
  {| nvs_initialized := nvs_initialized s;
     current_config := current_config s; system := y |}.

(** [sync_config_to_system]; [None] when [gain_levels] is read outside the
    array. *)
Definition sync_config_to_system (s : state) : option state :=
  let y :=
    ButtonControl.set_current_gain_level (gain_level (current_config s))
      (system s) in
  match ButtonControl.load_gain_factor y with
  | Some y => Some (set_system y s)
  | None => None
  end.

Definition set_checksum (k : Z) (c : AudioConfig) : AudioConfig :=
  {| version := version c; gain_level := gain_level c;
     highpass_enabled := highpass_enabled c;
     highpass_freq := highpass_freq c;
     eq_enabled := eq_enabled c; eq_gains := eq_gains c;
     wdrc_enabled := wdrc_enabled c; wdrc_threshold := wdrc_threshold c;
     wdrc_ratio := wdrc_ratio c; wdrc_attack := wdrc_attack c;
     wdrc_release := wdrc_release c;
     limiter_enabled := limiter_enabled c;
     limiter_threshold := limiter_threshold c;
     checksum := k |}.

(** [sync_system_to_config]: the version and the gain level are assigned,
    then the checksum of the object so changed. *)
Definition sync_system_to_config (s : state) : state :=
  let c := current_config s in
  let c :=
    {| version := 1;
       gain_level := ButtonControl.current_gain_level (system s);
       highpass_enabled := highpass_enabled c;
       highpass_freq := highpass_freq c;
       eq_enabled := eq_enabled c; eq_gains := eq_gains c;
       wdrc_enabled := wdrc_enabled c; wdrc_threshold := wdrc_threshold c;
       wdrc_ratio := wdrc_ratio c; wdrc_attack := wdrc_attack c;
       wdrc_release := wdrc_release c;
       limiter_enabled := limiter_enabled c;
       limiter_threshold := limiter_threshold c;
       checksum := checksum c |} in
  set_current_config (set_checksum (calculate_checksum c) c) s.

(** [load_config_from_nvs]; [blob] is what [nvs_get_blob] returned: its
    error code and the object [loaded_config] it filled. *)
Definition load_config_from_nvs
    (blob : AudioHardware.esp_err_t * AudioConfig) (s : state)
    : option (bool * state) :=
  if negb (nvs_initialized s) then Some (false, s)
  else
    let '(err, loaded_config) := blob in
    if (err =? AudioHardware.ESP_OK)%Z then
      let calculated_checksum := calculate_checksum loaded_config in
      if (calculated_checksum =? checksum loaded_config)%Z
         && (version loaded_config =? 1)%Z then
        match sync_config_to_system (set_current_config loaded_config s) with
        | Some s => Some (true, s)
        | None => None
        end
      else Some (false, s)
    else Some (false, s).

(** [save_config_to_nvs]; [set_err] and [commit_err] are what
    [nvs_set_blob] and [nvs_commit] return.  The object handed to
    [nvs_set_blob] is [current_config] of the state returned. *)
Definition save_config_to_nvs
    (set_err commit_err : AudioHardware.esp_err_t) (s : state)
    : bool * state :=
  if negb (nvs_initialized s) then (false, s)
  else
    let s := sync_system_to_config s in
    if (set_err =? AudioHardware.ESP_OK)%Z then
      if (commit_err =? AudioHardware.ESP_OK)%Z then (true, s)
      else (false, s)
    else (false, s).

(** [reset_to_default] *)
Definition reset_to_default (s : state) : option state :=
  sync_config_to_system (set_current_config default_config s).

(** The command [set_gain_level] of [handle_serial_commands], from
    [int level = param.toInt()] on. *)
Definition command_set_gain_level (level : Z) (s : state) : option state :=
  if (level >=? 1)%Z && (level <=? 5)%Z then
    let y := ButtonControl.set_current_gain_level (level - 1)%Z (system s) in
    match ButtonControl.load_gain_factor y with
    | Some y => Some (set_system (ButtonControl.force_stop_pips y) s)
    | None => None
    end
  else Some s.
End SerialCommands.
Arguments AudioConfig F : clear implicits.
Arguments state F : clear implicits.
End SerialCommands.

(* ================================================================== *)
(** * Properties of the embedding, for every arithmetic *)
(* ================================================================== *)

Section Arrays.
Context {A : Type}.

Lemma length_upd (i : nat) (x : A) (l : list A) : length (upd i x l) = length l.
Proof.
  revert i; induction l as [|h t IH]; intros [|i]; simpl; auto.
Qed.

Lemma nth_upd_eq (i : nat) (x d : A) (l : list A) :
  (i < length l)%nat -> nth i (upd i x l) d = x.
Proof.
  revert i; induction l as [|h t IH]; intros [|i] Hi; simpl in *;
    try lia; auto.
  apply IH; lia.
Qed.

Lemma nth_upd_neq (i j : nat) (x d : A) (l : list A) :
  i <> j -> nth j (upd i x l) d = nth j l d.
Proof.
  revert i j; induction l as [|h t IH]; intros [|i] [|j] Hij; simpl;
    try congruence; auto.
Qed.

Lemma upd_comm (i j : nat) (x y : A) (l : list A) :
  i <> j -> upd i x (upd j y l) = upd j y (upd i x l).
Proof.
  revert i j; induction l as [|h t IH]; intros [|i] [|j] Hij; simpl;
    try congruence; auto.
  f_equal; apply IH; congruence.
Qed.
End Arrays.

Section Classifier.
Context {F D : Type} `{CFloat F} `{CFloat D} `{CPolar D} `{CCast F D}.
Variable cfg : Config.t F.
Import MultibandWDRC.
Local Open Scope cfloat_scope.

Lemma getBandIndex_loop_range (n i : nat) (f : D) :
  getBandIndex_loop cfg n i f = (-1)%Z \/
  (Z.of_nat i <= getBandIndex_loop cfg n i f < Z.of_nat (i + n))%Z.
Proof.
  revert i; induction n as [|n IH]; intros i; simpl; auto.
  destruct (in_band cfg i f).
  - right; lia.
  - destruct (IH (S i)) as [E|E]; [left; exact E | right; lia].
Qed.

Lemma getBandIndex_loop_none (n i : nat) (f : D) :
  getBandIndex_loop cfg n i f = (-1)%Z <->
  forall j, (i <= j < i + n)%nat -> in_band cfg j f = false.
Proof.
  revert i; induction n as [|n IH]; intros i; simpl.
  - split; auto; intros _ j Hj; lia.
  - destruct (in_band cfg i f) eqn:E.
    + split; [lia|]. intros Hn. rewrite (Hn i) in E by lia. discriminate.
    + rewrite IH. split; intros Hn j Hj.
      * destruct (Nat.eq_dec j i) as [->|]; auto. apply Hn; lia.
      * apply Hn; lia.
Qed.

Lemma getBandIndex_loop_some (n i k : nat) (f : D) :
  getBandIndex_loop cfg n i f = Z.of_nat k <->
  (i <= k < i + n)%nat /\ in_band cfg k f = true /\
  forall j, (i <= j < k)%nat -> in_band cfg j f = false.
Proof.
  revert i; induction n as [|n IH]; intros i; simpl.
  - split; [lia | intros [? _]; lia].
  - destruct (in_band cfg i f) eqn:E.
    + split.
      * intros Hk. apply Nat2Z.inj in Hk. subst k.
        repeat split; auto; try lia.
      * intros [Hk [Ek Hj]]. f_equal.
        destruct (Nat.eq_dec i k) as [|Hne]; auto.
        rewrite (Hj i) in E by lia. discriminate.
    + rewrite IH. split.
      * intros [Hk [Ek Hj]]. repeat split; auto; try lia.
        intros j Hj'. destruct (Nat.eq_dec j i) as [->|]; auto.
        apply Hj; lia.
      * intros [Hk [Ek Hj]].
        assert (k <> i) by (intros ->; congruence).
        repeat split; auto; try lia. intros j Hj'; apply Hj; lia.
Qed.

(** The index [getBandIndex] returns is inside [wdrc_bands]. *)
Lemma band_in_range (f : D) (bands : list (WDRC.t F)) :
  length bands = Config.NUM_BANDS cfg ->
  (getBandIndex cfg f >=? 0)%Z = true ->
  nth_error bands (Z.to_nat (getBandIndex cfg f)) <> None.
Proof.
  intros Hlen Hge. apply nth_error_Some. rewrite Hlen.
  unfold getBandIndex in *.
  destruct (getBandIndex_loop_range (Config.NUM_BANDS cfg) 0 f) as [E|E];
    [rewrite E in Hge; discriminate | lia].
Qed.
End Classifier.

Section BinLoop.
Context {F D : Type} `{CFloat F} `{CFloat D} `{CPolar D} `{CCast F D}.
Variable cfg : Config.t F.
Import MultibandWDRC.

Local Abbreviation N := (Config.FFT_SIZE cfg).

Lemma bin_step_frame (i j : nat) (s : bins) (d : D) :
  untouched_by cfg i j ->
  nth j (re_of (bin_step cfg i s)) d = nth j (re_of s) d /\
  nth j (im_of (bin_step cfg i s)) d = nth j (im_of s) d.
Proof.
  intros Hu. destruct s as [bands [re im]]. unfold bin_step.
  unfold untouched_by, compressed, bin_band in Hu.
  destruct (getBandIndex cfg (bin_frequency cfg i) >=? 0)%Z eqn:Eb; auto.
  destruct Hu as [Hu|[Hji Hm]]; [discriminate|].
  destruct (nth_error bands _) as [w|]; auto.
  destruct (WDRC.process w _) as [out w'].
  destruct (Nat.eqb_spec i 0) as [Hi|Hi]; unfold re_of, im_of; simpl.
  - split; apply nth_upd_neq; congruence.
  - destruct Hm as [Hm|Hm]; [contradiction|].
    split; rewrite !nth_upd_neq by congruence; reflexivity.
Qed.

Lemma bin_steps_frame (l : list nat) (j : nat) (s : bins) (d : D) :
  (forall i, In i l -> untouched_by cfg i j) ->
  nth j (re_of (bin_steps cfg l s)) d = nth j (re_of s) d /\
  nth j (im_of (bin_steps cfg l s)) d = nth j (im_of s) d.
Proof.
  revert s; induction l as [|i l IH]; intros s Hu; auto.
  change (bin_steps cfg (i :: l) s) with (bin_steps cfg l (bin_step cfg i s)).
  destruct (IH (bin_step cfg i s)) as [Hr Hi];
    [intros k Hk; apply Hu; right; exact Hk|].
  destruct (bin_step_frame s d (Hu i (or_introl eq_refl))) as [Hr' Hi'].
  split; congruence.
Qed.

(** An iteration whose own bin and mirror bin are not [h] neither reads nor
    writes bin [h]: it commutes with overwriting that bin. *)
Lemma bin_step_poke (i h : nat) (x y : D) (s : bins) :
  i <> h -> (i = 0%nat \/ (N - i)%nat <> h) ->
  bin_step cfg i (poke h x y s) = poke h x y (bin_step cfg i s).
Proof.
  intros Hi Hm. destruct s as [bands [re im]].
  unfold bin_step, poke, re_of, im_of; cbn [fst snd].
  destruct (getBandIndex cfg (bin_frequency cfg i) >=? 0)%Z; auto.
  destruct (nth_error bands _) as [w|]; auto.
  rewrite !(@nth_upd_neq _ h i) by congruence.
  destruct (WDRC.process w _) as [out w'].
  destruct (Nat.eqb_spec i 0) as [Hz|Hz]; cbn [fst snd].
  - rewrite !(@upd_comm _ i h) by congruence. reflexivity.
  - destruct Hm as [Hm|Hm]; [contradiction|].
    rewrite !(@upd_comm _ i h) by congruence.
    rewrite !(@nth_upd_neq _ h i) by congruence.
    rewrite !(@upd_comm _ (N - i)%nat h) by congruence.
    reflexivity.
Qed.

Lemma bin_steps_poke (l : list nat) (h : nat) (x y : D) (s : bins) :
  (forall i, In i l -> i <> h /\ (i = 0%nat \/ (N - i)%nat <> h)) ->
  bin_steps cfg l (poke h x y s) = poke h x y (bin_steps cfg l s).
Proof.
  revert s; induction l as [|i l IH]; intros s Hl; auto.
  destruct (Hl i (or_introl eq_refl)) as [Hi Hm].
  change (bin_steps cfg (i :: l) (poke h x y s))
    with (bin_steps cfg l (bin_step cfg i (poke h x y s))).
  rewrite bin_step_poke by assumption.
  apply IH. intros k Hk; apply Hl; right; exact Hk.
Qed.

(** With no band that matches, an iteration changes nothing at all. *)
Lemma bin_step_none (i : nat) (s : bins) :
  compressed cfg i = false -> bin_step cfg i s = s.
Proof.
  intros Hc. destruct s as [bands [re im]]. unfold bin_step.
  unfold compressed, bin_band in Hc. rewrite Hc. reflexivity.
Qed.

Lemma bin_steps_none (l : list nat) (s : bins) :
  (forall i, In i l -> compressed cfg i = false) -> bin_steps cfg l s = s.
Proof.
  revert s; induction l as [|i l IH]; intros s Hl; auto.
  change (bin_steps cfg (i :: l) s) with (bin_steps cfg l (bin_step cfg i s)).
  rewrite bin_step_none by (apply Hl; left; reflexivity).
  apply IH. intros k Hk; apply Hl; right; exact Hk.
Qed.

Lemma half_lt_mirror (i : nat) : (i < N / 2 -> N / 2 < N - i)%nat.
Proof.
  intros Hi.
  pose proof (Nat.div_mod_eq N 2) as E.
  pose proof (Nat.mod_upper_bound N 2 ltac:(lia)). lia.
Qed.
End BinLoop.

(** C8: in the bin loop of [MultibandWDRC::process], a bin below [N/2] whose
    frequency classifies as none keeps its real and imaginary values; the
    Nyquist bin [N/2] is not written, and not read either (the loop commutes
    with overwriting it); the loop changes only the bins [i < N/2] it
    compresses and, for [i <> 0], their mirrors [N - i], which lie strictly
    between [N/2] and [N]; the loop runs over the indices [0 <= i < N/2]. *)
Theorem bin_loop_frame {F D : Type} `{CFloat F} `{CFloat D} `{CPolar D}
    `{CCast F D} (cfg : Config.t F) (s : MultibandWDRC.bins) (d : D) :
  let N := Config.FFT_SIZE cfg in
  let s' := MultibandWDRC.bin_loop cfg s in
  let same j :=
    nth j (MultibandWDRC.re_of s') d = nth j (MultibandWDRC.re_of s) d /\
    nth j (MultibandWDRC.im_of s') d = nth j (MultibandWDRC.im_of s) d in
  (forall i, (i < N / 2)%nat -> (MultibandWDRC.bin_band cfg i < 0)%Z -> same i)
  /\ same (N / 2)%nat
  /\ (forall x y, MultibandWDRC.bin_loop cfg (MultibandWDRC.poke (N / 2) x y s)
                  = MultibandWDRC.poke (N / 2) x y s')
  /\ (forall j,
        (forall i, (i < N / 2)%nat -> MultibandWDRC.compressed cfg i = true ->
                   j <> i /\ (i = 0%nat \/ j <> (N - i)%nat)) ->
        same j)
  /\ (forall i, (0 < i < N / 2)%nat -> (N / 2 < N - i < N)%nat)
  /\ s' = MultibandWDRC.bin_steps cfg (seq 0 (N / 2)) s
  /\ (forall i, In i (seq 0 (N / 2)) <-> (i < N / 2)%nat).
Proof.
  intros N s' same.
  assert (HN : Config.FFT_SIZE cfg = N) by reflexivity.
  assert (Hfr : forall j,
    (forall i, (i < N / 2)%nat -> MultibandWDRC.compressed cfg i = true ->
               j <> i /\ (i = 0%nat \/ j <> (N - i)%nat)) -> same j).
  { intros j Hj. apply bin_steps_frame. intros i Hi.
    apply in_seq in Hi. rewrite HN in Hi. unfold MultibandWDRC.untouched_by.
    destruct (MultibandWDRC.compressed cfg i) eqn:Ec; [right|left; auto].
    apply Hj; [lia | exact Ec]. }
  assert (Hmir : forall i, (i < N / 2)%nat -> (N / 2 < N - i)%nat)
    by (intros i; apply (half_lt_mirror cfg)).
  clearbody N.
  split; [|split; [|split; [|split; [|split; [|split]]]]].
  - intros i Hi Hb. apply Hfr. intros k Hk Hc. split.
    + intros ->. unfold MultibandWDRC.compressed in Hc.
      apply Z.geb_le in Hc. lia.
    + right. specialize (Hmir k Hk). lia.
  - apply Hfr. intros k Hk Hc. split; [lia|].
    right. specialize (Hmir k Hk). lia.
  - intros x y. apply bin_steps_poke. intros i Hi. apply in_seq in Hi.
    rewrite HN in *.
    split; [lia|]. right. specialize (Hmir i ltac:(lia)). lia.
  - exact Hfr.
  - intros i Hi. specialize (Hmir i ltac:(lia)). lia.
  - unfold s', MultibandWDRC.bin_loop. rewrite HN. reflexivity.
  - intros i. rewrite in_seq. lia.
Qed.

(** C9: for every table of band limits (increasing or not) and every
    frequency, [getBandIndex] returns either -1 or an index of
    [0 .. NUM_BANDS-1]; it returns -1 exactly when the scan finds no
    interval that holds the frequency; an index it returns is inside
    [wdrc_bands]; and an iteration of the bin loop whose bin classifies as
    -1 takes the path that leaves the whole state as it is, so that the
    loop leaves that bin unmodified. *)
Theorem classify_total {F D : Type} `{CFloat F} `{CFloat D} `{CPolar D}
    `{CCast F D} (cfg : Config.t F) (frequency : D) :
  let band := MultibandWDRC.getBandIndex cfg frequency in
  (band = (-1)%Z \/ (0 <= band < Z.of_nat (Config.NUM_BANDS cfg))%Z)
  /\ (band = (-1)%Z <->
      forall j, (j < Config.NUM_BANDS cfg)%nat ->
                MultibandWDRC.in_band cfg j frequency = false)
  /\ (forall bands : list (WDRC.t F),
        length bands = Config.NUM_BANDS cfg ->
        (band >=? 0)%Z = true ->
        nth_error bands (Z.to_nat band) <> None)
  /\ (forall i s, MultibandWDRC.bin_band cfg i = (-1)%Z ->
                  MultibandWDRC.bin_step cfg i s = s)
  /\ (forall i s d, (i < Config.FFT_SIZE cfg / 2)%nat ->
        MultibandWDRC.bin_band cfg i = (-1)%Z ->
        nth i (MultibandWDRC.re_of (MultibandWDRC.bin_loop cfg s)) d
          = nth i (MultibandWDRC.re_of s) d /\
        nth i (MultibandWDRC.im_of (MultibandWDRC.bin_loop cfg s)) d
          = nth i (MultibandWDRC.im_of s) d).
Proof.
  intros band. unfold band, MultibandWDRC.getBandIndex.
  split; [|split; [|split; [|split]]].
  - destruct (getBandIndex_loop_range cfg (Config.NUM_BANDS cfg) 0 frequency)
      as [E|E]; [left; exact E | right; lia].
  - rewrite getBandIndex_loop_none. split; intros Hn j Hj; apply Hn; lia.
  - intros bands Hlen Hge. apply band_in_range; assumption.
  - intros i s Hb. apply bin_step_none.
    unfold MultibandWDRC.compressed. rewrite Hb. reflexivity.
  - intros i s d Hi Hb. apply bin_steps_frame. intros k Hk.
    apply in_seq in Hk. unfold MultibandWDRC.untouched_by.
    destruct (MultibandWDRC.compressed cfg k) eqn:Ec; [right|left; auto].
    split.
    + intros ->. unfold MultibandWDRC.compressed in Ec.
      rewrite Hb in Ec. discriminate.
    + right. assert (Hk' : (k < Config.FFT_SIZE cfg / 2)%nat) by lia.
      pose proof (half_lt_mirror cfg Hk'). lia.
Qed.

(* ================================================================== *)
(** * Properties in exact arithmetic *)
(* ================================================================== *)

Module ExactFacts.
Import Exact.
Local Open Scope R_scope.

Lemma Rltb_true (x y : R) : Rltb x y = true <-> x < y.
Proof. unfold Rltb. destruct (Rlt_dec x y); split; intros; try easy. Qed.

Lemma Rltb_false (x y : R) : Rltb x y = false <-> y <= x.
Proof.
  unfold Rltb. destruct (Rlt_dec x y); split; intros; try easy; lra.
Qed.

Lemma Rleb_true (x y : R) : Rleb x y = true <-> x <= y.
Proof. unfold Rleb. destruct (Rle_dec x y); split; intros; try easy. Qed.

Lemma Rleb_false (x y : R) : Rleb x y = false <-> y < x.
Proof.
  unfold Rleb. destruct (Rle_dec x y); split; intros; try easy; lra.
Qed.

Lemma lit_Z (z : Z) : Q2R (inject_Z z) = IZR z.
Proof. unfold Q2R, inject_Z. simpl. lra. Qed.

(** ** The band classifier *)

Lemma in_band_true (cfg : Config.t R) (j : nat) (f : R) :
  MultibandWDRC.in_band cfg j f = true <->
  MultibandWDRC.BAND_LIMITS cfg j <= f < MultibandWDRC.BAND_LIMITS cfg (j + 1).
Proof.
  unfold MultibandWDRC.in_band, fge. simpl.
  rewrite andb_true_iff, Rleb_true, Rltb_true. tauto.
Qed.

Lemma in_band_false (cfg : Config.t R) (j : nat) (f : R) :
  MultibandWDRC.in_band cfg j f = false <->
  ~ (MultibandWDRC.BAND_LIMITS cfg j <= f < MultibandWDRC.BAND_LIMITS cfg (j + 1)).
Proof.
  rewrite <- in_band_true. destruct (MultibandWDRC.in_band cfg j f);
    split; intros; congruence.
Qed.

Lemma band_limits_h (j : nat) :
  MultibandWDRC.BAND_LIMITS Config.config_h j =
  match j with
  | 0%nat => 250 | 1%nat => 1000 | 2%nat => 4000 | 3%nat => 8000
  | _ => 0
  end.
Proof.
  unfold MultibandWDRC.BAND_LIMITS. simpl.
  destruct j as [|[|[|[|[|j]]]]]; simpl; try reflexivity;
    unfold Q2R; simpl; lra.
Qed.

Lemma increasing_h : increasing Config.config_h.
Proof.
  intros i j Hij. simpl in Hij. rewrite !band_limits_h.
  destruct i as [|[|[|[|i]]]]; destruct j as [|[|[|[|j]]]]; try lia; lra.
Qed.

Lemma classify_h (f : R) :
  MultibandWDRC.getBandIndex Config.config_h f =
  if Rlt_dec f 250 then (-1)%Z
  else if Rlt_dec f 1000 then 0%Z
  else if Rlt_dec f 4000 then 1%Z
  else if Rlt_dec f 8000 then 2%Z
  else (-1)%Z.
Proof.
  unfold MultibandWDRC.getBandIndex.
  change (Config.NUM_BANDS Config.config_h) with 3%nat.
  cbn [MultibandWDRC.getBandIndex_loop].
  unfold MultibandWDRC.in_band, fge.
  rewrite !band_limits_h. simpl. unfold Rleb, Rltb.
  repeat match goal with
  | |- context [Rle_dec ?a ?b] => destruct (Rle_dec a b)
  | |- context [Rlt_dec ?a ?b] => destruct (Rlt_dec a b)
  end; simpl; try reflexivity; lra.
Qed.
(** C3: [getBandIndex] returns the first index [k] with
    [BAND_LIMITS[k] <= frequency < BAND_LIMITS[k+1]], and -1 exactly when no
    band holds the frequency.  For increasing limits that is when the
    frequency is below the lowest or at or above the highest limit, and a
    frequency equal to a limit [BAND_LIMITS[i]], [i < NUM_BANDS], is in band
    [i], the upper of the two bands that meet there.  For the limits of
    [config.h], {250, 1000, 4000, 8000}: 1000 is in band 1, 249.999 and 8000
    are in no band. *)
Theorem classify_first_match :
  (forall (cfg : Config.t R) (f : R) (k : nat),
     MultibandWDRC.getBandIndex cfg f = Z.of_nat k <->
     (k < Config.NUM_BANDS cfg)%nat /\
     MultibandWDRC.BAND_LIMITS cfg k <= f < MultibandWDRC.BAND_LIMITS cfg (k + 1) /\
     forall j, (j < k)%nat ->
       ~ (MultibandWDRC.BAND_LIMITS cfg j <= f
          < MultibandWDRC.BAND_LIMITS cfg (j + 1)))
  /\ (forall (cfg : Config.t R) (f : R),
     MultibandWDRC.getBandIndex cfg f = (-1)%Z <->
     forall j, (j < Config.NUM_BANDS cfg)%nat ->
       ~ (MultibandWDRC.BAND_LIMITS cfg j <= f
          < MultibandWDRC.BAND_LIMITS cfg (j + 1)))
  /\ (forall (cfg : Config.t R) (f : R),
     increasing cfg ->
     f < MultibandWDRC.BAND_LIMITS cfg 0 \/
     MultibandWDRC.BAND_LIMITS cfg (Config.NUM_BANDS cfg) <= f ->
     MultibandWDRC.getBandIndex cfg f = (-1)%Z)
  /\ (forall (cfg : Config.t R) (i : nat),
     increasing cfg -> (i < Config.NUM_BANDS cfg)%nat ->
     MultibandWDRC.getBandIndex cfg (MultibandWDRC.BAND_LIMITS cfg i)
       = Z.of_nat i)
  /\ MultibandWDRC.getBandIndex Config.config_h 1000 = 1%Z
  /\ MultibandWDRC.getBandIndex Config.config_h (249999 / 1000) = (-1)%Z
  /\ MultibandWDRC.getBandIndex Config.config_h 8000 = (-1)%Z.
Proof.
  assert (Hnone : forall (cfg : Config.t R) (f : R),
     MultibandWDRC.getBandIndex cfg f = (-1)%Z <->
     forall j, (j < Config.NUM_BANDS cfg)%nat ->
       ~ (MultibandWDRC.BAND_LIMITS cfg j <= f
          < MultibandWDRC.BAND_LIMITS cfg (j + 1))).
  { intros cfg f. unfold MultibandWDRC.getBandIndex.
    rewrite getBandIndex_loop_none. split; intros Hn j Hj.
    - apply in_band_false, Hn. lia.
    - apply in_band_false, Hn. lia. }
  assert (Hsome : forall (cfg : Config.t R) (f : R) (k : nat),
     MultibandWDRC.getBandIndex cfg f = Z.of_nat k <->
     (k < Config.NUM_BANDS cfg)%nat /\
     MultibandWDRC.BAND_LIMITS cfg k <= f < MultibandWDRC.BAND_LIMITS cfg (k + 1) /\
     forall j, (j < k)%nat ->
       ~ (MultibandWDRC.BAND_LIMITS cfg j <= f
          < MultibandWDRC.BAND_LIMITS cfg (j + 1))).
  { intros cfg f k. unfold MultibandWDRC.getBandIndex.
    rewrite getBandIndex_loop_some, in_band_true.
    split; intros [Hk [Hb Hj]]; (split; [lia|split; [exact Hb|]]);
      intros j Hlt; apply in_band_false, Hj; lia. }
  split; [exact Hsome|]. split; [exact Hnone|].
  split; [|split; [|repeat split]].
  - intros cfg f Hinc Hf. apply Hnone. intros j Hj [Hlo Hhi].
    destruct Hf as [Hf|Hf].
    + destruct (Nat.eq_dec j 0) as [->|Hne]; [lra|].
      pose proof (Hinc 0%nat j ltac:(lia)). lra.
    + destruct (Nat.eq_dec (j + 1) (Config.NUM_BANDS cfg)) as [E|Hne].
      * rewrite E in Hhi. lra.
      * pose proof (Hinc (j + 1)%nat (Config.NUM_BANDS cfg) ltac:(lia)). lra.
  - intros cfg i Hinc Hi. apply Hsome. split; [exact Hi|]. split.
    + pose proof (Hinc i (i + 1)%nat ltac:(lia)). lra.
    + intros j Hj [_ Hhi].
      destruct (Nat.eq_dec (j + 1) i) as [E|Hne].
      * rewrite E in Hhi. lra.
      * pose proof (Hinc (j + 1)%nat i ltac:(lia)). lra.
  - rewrite classify_h.
    repeat match goal with
    | |- context [Rlt_dec ?a ?b] => destruct (Rlt_dec a b)
    end; try reflexivity; lra.
  - rewrite classify_h.
    repeat match goal with
    | |- context [Rlt_dec ?a ?b] => destruct (Rlt_dec a b)
    end; try reflexivity; lra.
  - rewrite classify_h.
    repeat match goal with
    | |- context [Rlt_dec ?a ?b] => destruct (Rlt_dec a b)
    end; try reflexivity; lra.
Qed.

(** The limits of [config.h] are increasing, and its interior limit 1000
    belongs to band 1. *)
Lemma classify_first_match_witness :
  increasing Config.config_h /\
  MultibandWDRC.getBandIndex Config.config_h
    (MultibandWDRC.BAND_LIMITS Config.config_h 1) = 1%Z.
Proof.
  split; [exact increasing_h|].
  exact (proj1 (proj2 (proj2 (proj2 classify_first_match)))
           Config.config_h 1%nat increasing_h ltac:(simpl; lia)).
Defined.
(** On the table {1000, 250, 4000, 100} the scan still ends: 300 Hz and
    500 Hz fall in the interval [250, 4000) of band 1, and 50 Hz and 5000 Hz
    in none. *)
Lemma classify_malformed :
  MultibandWDRC.getBandIndex malformed 300 = 1%Z
  /\ MultibandWDRC.getBandIndex malformed 500 = 1%Z
  /\ MultibandWDRC.getBandIndex malformed 50 = (-1)%Z
  /\ MultibandWDRC.getBandIndex malformed 5000 = (-1)%Z.
Proof.
  unfold MultibandWDRC.getBandIndex.
  change (Config.NUM_BANDS malformed) with 3%nat.
  cbn [MultibandWDRC.getBandIndex_loop].
  unfold MultibandWDRC.in_band, MultibandWDRC.BAND_LIMITS, fge. simpl.
  unfold Rleb, Rltb.
  repeat split;
    repeat match goal with
    | |- context [Rle_dec ?a ?b] => destruct (Rle_dec a b)
    | |- context [Rlt_dec ?a ?b] => destruct (Rlt_dec a b)
    end; simpl; try reflexivity; lra.
Qed.

(** Bin 0 of [config.h] is at 0 Hz, below the lowest limit. *)
Lemma bin_0_none : MultibandWDRC.bin_band Config.config_h 0 = (-1)%Z.
Proof.
  unfold MultibandWDRC.bin_band. rewrite classify_h.
  replace (MultibandWDRC.bin_frequency Config.config_h 0) with 0
    by (unfold MultibandWDRC.bin_frequency; simpl; lra).
  destruct (Rlt_dec 0 250); [reflexivity | lra].
Qed.

(** Bin 0 of [config.h] classifies as none and keeps its value through the
    loop. *)
Lemma bin_loop_frame_witness :
  nth 0 (MultibandWDRC.re_of (MultibandWDRC.bin_loop Config.config_h ones)) 0
  = nth 0 (MultibandWDRC.re_of ones) 0.
Proof.
  apply (proj1 (bin_loop_frame Config.config_h ones 0) 0%nat).
  - simpl. lia.
  - rewrite bin_0_none. lia.
Defined.

(** The iteration of bin 0 of [config.h] leaves the loop state as it is. *)
Lemma classify_total_witness :
  MultibandWDRC.bin_step Config.config_h 0 ones = ones.
Proof.
  apply (proj1 (proj2 (proj2 (proj2
           (classify_total Config.config_h 0)))) 0%nat ones).
  exact bin_0_none.
Defined.

(** ** The band compressor *)

Lemma lit_1 : Q2R 1 = 1.
Proof. unfold Q2R; simpl; lra. Qed.

Lemma lit_0 : Q2R 0 = 0.
Proof. unfold Q2R; simpl; lra. Qed.

Lemma ln10_gt_1 : 1 < ln 10.
Proof.
  rewrite <- (ln_exp 1) at 1. apply ln_increasing; [apply exp_pos|].
  pose proof exp_le_3. lra.
Qed.

(** The smoothing coefficient [exp(-1 / (SAMPLE_RATE * time))]. *)
Lemma alpha_range (SR : Z) (time : R) :
  (0 < SR)%Z -> 0 < time ->
  0 < f_exp (- lit 1 / (of_int SR * time))%cf < 1.
Proof.
  intros HSR Ht. simpl. rewrite lit_1. split; [apply exp_pos|].
  assert (0 < IZR SR) by (apply IZR_lt; exact HSR).
  assert (0 < IZR SR * time) by (apply Rmult_lt_0_compat; assumption).
  assert (0 < / (IZR SR * time)) by (apply Rinv_0_lt_compat; assumption).
  assert (E : exp (- 1 / (IZR SR * time)) < exp 0)
    by (apply exp_increasing; unfold Rdiv; lra).
  rewrite exp_0 in E. exact E.
Qed.


Lemma update_envelope_exact (w : WDRC.t R) (v : R) :
  WDRC.update_envelope w v =
  if Rlt_dec (WDRC.envelope w) v
  then WDRC.alpha_attack w * WDRC.envelope w + (1 - WDRC.alpha_attack w) * v
  else WDRC.alpha_release w * WDRC.envelope w + (1 - WDRC.alpha_release w) * v.
Proof.
  unfold WDRC.update_envelope, fgt. simpl. rewrite lit_1. unfold Rltb.
  destruct (Rlt_dec (WDRC.envelope w) v); reflexivity.
Qed.

Lemma process_envelope (w : WDRC.t R) (x : R) :
  WDRC.envelope (snd (WDRC.process w x)) =
  WDRC.update_envelope w (WDRC.linear_to_db x).
Proof. reflexivity. Qed.

Lemma feed_alpha (n : nat) (x : R) (w : WDRC.t R) :
  WDRC.alpha_attack (WDRC.feed n x w) = WDRC.alpha_attack w /\
  WDRC.alpha_release (WDRC.feed n x w) = WDRC.alpha_release w.
Proof.
  revert w; induction n as [|n IH]; intros w; [split; reflexivity|].
  change (WDRC.feed (S n) x w) with (WDRC.feed n x (snd (WDRC.process w x))).
  destruct (IH (snd (WDRC.process w x))) as [Ha Hr].
  rewrite Ha, Hr. split; reflexivity.
Qed.

Lemma feed_S (n : nat) (x : R) (w : WDRC.t R) :
  WDRC.feed (S n) x w = snd (WDRC.process (WDRC.feed n x w) x).
Proof.
  revert w; induction n as [|n IH]; intros w; [reflexivity|].
  change (WDRC.feed (S (S n)) x w)
    with (WDRC.feed (S n) x (snd (WDRC.process w x))).
  rewrite IH. reflexivity.
Qed.



(** The level of the sample 0.0 is [20 * log10(1e-9)], -180 dB. *)
Lemma level_silence : WDRC.linear_to_db 0 = -180.
Proof.
  unfold WDRC.linear_to_db. simpl. unfold log10.
  rewrite Rabs_R0, Rplus_0_l.
  replace (Q2R (1 # 1000000000)) with (/ 10 ^ 9)
    by (unfold Q2R; simpl; lra).
  rewrite ln_Rinv by (apply pow_lt; lra).
  rewrite ln_pow by lra.
  replace (Q2R 20) with 20 by (unfold Q2R; simpl; lra).
  pose proof ln10_gt_1. simpl INR. field. lra.
Qed.


(** C5: for a knee width above 0 the gain curve is the knee formula for
    [|diff| <= knee_width/2], the line [(ratio-1)*diff] above and 0 below;
    at [diff = knee_width/2] the knee formula has the value of the line, and
    at [diff = -knee_width/2] it is 0: the curve is continuous at both
    edges. *)
Theorem knee_continuity (w : WDRC.t R) :
  0 < WDRC.knee_width w ->
  let k := WDRC.knee_width w in
  let r := WDRC.ratio w in
  let knee diff := (r - 1) * (diff + k / 2) * (diff + k / 2) / (2 * k) in
  (forall diff, Rabs diff <= k / 2 -> WDRC.compression_gain w diff = knee diff)
  /\ (forall diff, k / 2 < diff -> WDRC.compression_gain w diff = (r - 1) * diff)
  /\ (forall diff, diff < - (k / 2) -> WDRC.compression_gain w diff = 0)
  /\ knee (k / 2) = (r - 1) * (k / 2)
  /\ knee (- (k / 2)) = 0
  /\ WDRC.compression_gain w (k / 2) = (r - 1) * (k / 2)
  /\ WDRC.compression_gain w (- (k / 2)) = 0.
Proof.
  intros Hk k r knee.
  assert (Hin : forall diff, Rabs diff <= k / 2 ->
                  WDRC.compression_gain w diff = knee diff).
  { intros diff Hd. unfold WDRC.compression_gain. simpl.
    fold k r. destruct (Rleb_true (Rabs diff) (k / 2)) as [_ E].
    rewrite (E Hd). reflexivity. }
  assert (Hup : knee (k / 2) = (r - 1) * (k / 2)).
  { unfold knee. field. unfold k. lra. }
  assert (Hlo : knee (- (k / 2)) = 0).
  { unfold knee. field. unfold k. lra. }
  split; [exact Hin|]. split; [|split; [|split; [|split; [|split]]]].
  - intros diff Hd. unfold WDRC.compression_gain, fgt. simpl. fold k r.
    destruct (Rleb_false (Rabs diff) (k / 2)) as [_ E].
    rewrite E by (rewrite Rabs_pos_eq; unfold k in *; lra).
    destruct (Rltb_true (k / 2) diff) as [_ E'].
    rewrite (E' Hd). reflexivity.
  - intros diff Hd. unfold WDRC.compression_gain, fgt. simpl. fold k r.
    destruct (Rleb_false (Rabs diff) (k / 2)) as [_ E].
    rewrite E by (rewrite Rabs_left; unfold k in *; lra).
    destruct (Rltb_false (k / 2) diff) as [_ E'].
    rewrite E' by (unfold k in *; lra). apply lit_0.
  - exact Hup.
  - exact Hlo.
  - rewrite Hin; [exact Hup|]. rewrite Rabs_pos_eq; unfold k; lra.
  - rewrite Hin; [exact Hlo|]. rewrite Rabs_Ropp, Rabs_pos_eq; unfold k; lra.
Qed.

(** Band 0 of [config.h]: knee width 10, ratio 2; the gain is 5 dB at the
    upper edge of the knee. *)
Lemma knee_continuity_witness :
  0 < WDRC.knee_width (band 0 0) /\
  WDRC.compression_gain (band 0 0) (Q2R 10 / 2) = (Q2R 2 - 1) * (Q2R 10 / 2).
Proof.
  assert (Hk : 0 < WDRC.knee_width (band 0 0))
    by (simpl; unfold Q2R; simpl; lra).
  split; [exact Hk|].
  exact (proj1 (proj2 (proj2 (proj2 (proj2 (proj2
           (knee_continuity (band 0 0) Hk))))))).
Defined.

(** The level of the sample 1.0, [20 * log10(1 + 1e-9)], is between 0 and
    1e-7 dB. *)
Lemma level_full_scale : 0 < WDRC.linear_to_db 1 < 1 / 10000000.
Proof.
  unfold WDRC.linear_to_db. simpl. unfold log10.
  rewrite Rabs_R1.
  replace (Q2R (1 # 1000000000)) with (/ 1000000000)
    by (unfold Q2R; simpl; lra).
  replace (Q2R 20) with 20 by (unfold Q2R; simpl; lra).
  pose proof ln10_gt_1 as H10.
  assert (Hl : 0 < ln (1 + / 1000000000) < / 1000000000).
  { split.
    - rewrite <- ln_1. apply ln_increasing; lra.
    - rewrite <- (ln_exp (/ 1000000000)) at 2.
      apply ln_increasing; [lra|]. apply exp_ineq1. lra. }
  assert (Hi : 0 < / ln 10 < 1).
  { split; [apply Rinv_0_lt_compat; lra|].
    rewrite <- Rinv_1. apply Rinv_lt_contravar; lra. }
  unfold Rdiv. split.
  + apply Rmult_lt_0_compat; [lra|]. apply Rmult_lt_0_compat; lra.
  + assert (ln (1 + / 1000000000) * / ln 10 < / 1000000000 * 1).
    { apply Rmult_gt_0_lt_compat; lra. }
    lra.
Qed.

(** ** Bounds on powers of ten *)

(** [10^(-p/q)] against a rational [n/d], decided on integers. *)
Lemma Rpower10_bounds (n d : Z) (p q : nat) :
  (0 < n)%Z -> (0 < d)%Z -> (0 < q)%nat ->
  ((d ^ Z.of_nat q < 10 ^ Z.of_nat p * n ^ Z.of_nat q)%Z ->
     Rpower 10 (- (INR p / INR q)) < IZR n / IZR d) /\
  ((10 ^ Z.of_nat p * n ^ Z.of_nat q < d ^ Z.of_nat q)%Z ->
     IZR n / IZR d < Rpower 10 (- (INR p / INR q))).
Proof.
  intros Hn Hd Hq.
  assert (Hn' : 0 < IZR n) by (apply IZR_lt; exact Hn).
  assert (Hd' : 0 < IZR d) by (apply IZR_lt; exact Hd).
  assert (Hq' : 0 < INR q) by (apply lt_0_INR; exact Hq).
  assert (Ha : 0 < IZR n / IZR d) by (apply Rdiv_lt_0_compat; assumption).
  assert (H10 : 0 < ln 10) by (pose proof ln10_gt_1; lra).
  (* the comparison, after taking logarithms and clearing the denominator *)
  assert (Hkey : INR q * (ln (IZR n / IZR d) - - (INR p / INR q) * ln 10)
                 = ln (10 ^ p * IZR n ^ q) - ln (IZR d ^ q)).
  { rewrite ln_mult by (apply pow_lt; lra).
    rewrite !ln_pow by lra.
    unfold Rdiv at 1. rewrite ln_mult by (try apply Rinv_0_lt_compat; lra).
    rewrite ln_Rinv by lra. field. lra. }
  assert (Hz : forall a b : Z, (0 < a)%Z -> (0 < b)%Z -> (a < b)%Z ->
                 ln (IZR a) < ln (IZR b)).
  { intros a b H0a H0b Hab. apply ln_increasing; apply IZR_lt; assumption. }
  assert (Epow : 10 ^ p * IZR n ^ q
                 = IZR (10 ^ Z.of_nat p * n ^ Z.of_nat q)).
  { rewrite mult_IZR, <- !pow_IZR. reflexivity. }
  assert (Epow' : IZR d ^ q = IZR (d ^ Z.of_nat q)).
  { rewrite <- pow_IZR. reflexivity. }
  rewrite Epow, Epow' in Hkey.
  assert (Hpd : (0 < d ^ Z.of_nat q)%Z) by (apply Z.pow_pos_nonneg; lia).
  assert (Hpn : (0 < 10 ^ Z.of_nat p * n ^ Z.of_nat q)%Z).
  { apply Z.mul_pos_pos; apply Z.pow_pos_nonneg; lia. }
  split; intros Hlt.
  - pose proof (Hz _ _ Hpd Hpn Hlt) as Hl.
    assert (Hc : - (INR p / INR q) * ln 10 < ln (IZR n / IZR d)).
    { apply Rlt_0_minus. apply Rmult_lt_reg_l with (INR q); [exact Hq'|].
      rewrite Hkey. lra. }
    unfold Rpower. apply Rlt_le_trans with (exp (ln (IZR n / IZR d))).
    + apply exp_increasing. exact Hc.
    + rewrite exp_ln by exact Ha. lra.
  - pose proof (Hz _ _ Hpn Hpd Hlt) as Hl.
    assert (Hc : ln (IZR n / IZR d) < - (INR p / INR q) * ln 10).
    { apply Rminus_lt. apply Rmult_lt_reg_l with (INR q); [exact Hq'|].
      rewrite Hkey. lra. }
    unfold Rpower. apply Rle_lt_trans with (exp (ln (IZR n / IZR d))).
    + rewrite exp_ln by exact Ha. lra.
    + apply exp_increasing. exact Hc.
Qed.

(** [10^(-5/20)] is 0.5623 to four places. *)
Lemma db_minus_5 : 5623 / 10000 < Rpower 10 (- 5 / 20) < 5624 / 10000.
Proof.
  replace (- 5 / 20) with (- (INR 1 / INR 4)) by (simpl; lra).
  split.
  - apply (@Rpower10_bounds 5623%Z 10000%Z 1%nat 4%nat); [lia | lia | lia |].
    vm_compute. reflexivity.
  - apply (@Rpower10_bounds 5624%Z 10000%Z 1%nat 4%nat); [lia | lia | lia |].
    vm_compute. reflexivity.
Qed.

Lemma INR_lit (n : nat) : INR n = IZR (Z.of_nat n).
Proof. apply INR_IZR_INZ. Qed.

Lemma db_minus_18_71 : 557 / 1000 < Rpower 10 (- (18 / 71)).
Proof.
  replace (18 / 71) with (INR 18 / INR 71) by (rewrite !INR_lit; simpl; lra).
  apply (@Rpower10_bounds 557%Z 1000%Z 18%nat 71%nat); [lia | lia | lia |].
  vm_compute. reflexivity.
Qed.

Lemma db_minus_20_79 : Rpower 10 (- (20 / 79)) < 559 / 1000.
Proof.
  replace (20 / 79) with (INR 20 / INR 79) by (rewrite !INR_lit; simpl; lra).
  apply (@Rpower10_bounds 559%Z 1000%Z 20%nat 79%nat); [lia | lia | lia |].
  vm_compute. reflexivity.
Qed.

(** ** The scenario of band 0 *)

Lemma band0_params (e : R) :
  WDRC.threshold (band 0 e) = -50 /\ WDRC.ratio (band 0 e) = 2 /\
  WDRC.knee_width (band 0 e) = 10 /\ WDRC.band_gain (band 0 e) = 15 /\
  WDRC.envelope (band 0 e) = e.
Proof. simpl. unfold Q2R. simpl. repeat split; lra. Qed.

Lemma band0_alpha_attack (e : R) :
  440 / 441 < WDRC.alpha_attack (band 0 e) < 441 / 442.
Proof.
  simpl.
  replace (- Q2R 1 / (44100 * Q2R (10 # 1000))) with (- (1 / 441))
    by (unfold Q2R; simpl; field).
  split.
  - pose proof (exp_ineq1 (- (1 / 441)) ltac:(lra)). lra.
  - rewrite exp_Ropp.
    pose proof (exp_ineq1 (1 / 441) ltac:(lra)) as H.
    assert (H' : / exp (1 / 441) < / (442 / 441))
      by (apply Rinv_lt_contravar; [apply Rmult_lt_0_compat|]; lra).
    replace (/ (442 / 441)) with (441 / 442) in H' by field. exact H'.
Qed.

Lemma process_fst (w : WDRC.t R) (x : R) :
  fst (WDRC.process w x) = WDRC.limit (WDRC.pre_limit w x).
Proof. reflexivity. Qed.

Lemma limit_id (y : R) : -99 / 100 <= y <= 99 / 100 -> WDRC.limit y = y.
Proof.
  intros Hy. unfold WDRC.limit, fgt. simpl.
  replace (Q2R (99 # 100)) with (99 / 100) by (unfold Q2R; simpl; lra).
  unfold Rltb.
  destruct (Rlt_dec (99 / 100) y); [lra|].
  destruct (Rlt_dec y (- (99 / 100))); [lra|]. reflexivity.
Qed.

(** Above the knee of band 0 the gain is [(2 - 1) * diff] and the sample is
    scaled by [10^((-diff + 15) / 20)]. *)
Lemma band0_above_knee (e x : R) :
  5 < WDRC.diff_of (band 0 e) x ->
  WDRC.gain_db_of (band 0 e) x = (2 - 1) * WDRC.diff_of (band 0 e) x /\
  WDRC.pre_limit (band 0 e) x =
    x * Rpower 10 ((- WDRC.diff_of (band 0 e) x + 15) / 20).
Proof.
  intros Hd.
  assert (Hg : WDRC.gain_db_of (band 0 e) x
               = (2 - 1) * WDRC.diff_of (band 0 e) x).
  { unfold WDRC.gain_db_of.
    set (d := WDRC.diff_of (band 0 e) x) in *.
    unfold WDRC.compression_gain, fgt. simpl.
    replace (Q2R 10) with 10 by (unfold Q2R; simpl; lra).
    replace (Q2R 2) with 2 by (unfold Q2R; simpl; lra).
    destruct (Rleb_false (Rabs d) (10 / 2)) as [_ E].
    rewrite E by (rewrite Rabs_pos_eq; lra).
    destruct (Rltb_true (10 / 2) d) as [_ E'].
    rewrite E' by lra. reflexivity. }
  split; [exact Hg|].
  unfold WDRC.pre_limit. rewrite Hg.
  unfold WDRC.apply_gain, WDRC.db_to_linear. simpl.
  replace (Q2R 10) with 10 by (unfold Q2R; simpl; lra).
  replace (Q2R 15) with 15 by (unfold Q2R; simpl; lra).
  replace (Q2R 20) with 20 by (unfold Q2R; simpl; lra).
  f_equal. f_equal. lra.
Qed.

(** The call [process(1.0)] on band 0 with its envelope at -30 dB. *)
Lemma band0_call :
  let w := band 0 (-30) in
  (-299322 / 10000 < WDRC.update_envelope w (WDRC.linear_to_db 1)
     < -299319 / 10000)
  /\ (200678 / 10000 < WDRC.diff_of w 1 < 200681 / 10000)
  /\ WDRC.gain_db_of w 1 = (2 - 1) * WDRC.diff_of w 1
  /\ WDRC.pre_limit w 1 = 1 * Rpower 10 ((- WDRC.diff_of w 1 + 15) / 20)
  /\ (557 / 1000 < WDRC.pre_limit w 1 < 559 / 1000).
Proof.
  intros w.
  pose proof level_full_scale as Hv.
  pose proof (band0_alpha_attack (-30)) as Ha. fold w in Ha.
  destruct (band0_params (-30)) as [Et [_ [_ [_ Ee]]]]. fold w in Et, Ee.
  assert (Hu : WDRC.update_envelope w (WDRC.linear_to_db 1)
               = WDRC.alpha_attack w * -30
                 + (1 - WDRC.alpha_attack w) * WDRC.linear_to_db 1).
  { rewrite update_envelope_exact, Ee.
    destruct (Rlt_dec (-30) (WDRC.linear_to_db 1)); [reflexivity | lra]. }
  assert (Hp : 0 < (1 - WDRC.alpha_attack w) * WDRC.linear_to_db 1
               < 1 / 10000000) by nra.
  assert (He : -299322 / 10000 < WDRC.update_envelope w (WDRC.linear_to_db 1)
               < -299319 / 10000).
  { rewrite Hu. set (a := WDRC.alpha_attack w) in *.
    set (v := WDRC.linear_to_db 1) in *. clearbody a v. lra. }
  assert (Hd : 200678 / 10000 < WDRC.diff_of w 1 < 200681 / 10000).
  { unfold WDRC.diff_of. rewrite Et.
    set (u := WDRC.update_envelope w (WDRC.linear_to_db 1)) in *.
    clearbody u. simpl. lra. }
  set (d := WDRC.diff_of w 1) in *.
  destruct (@band0_above_knee (-30) 1) as [Hg Ho];
    [change (5 < d); clearbody d; lra|].
  change (WDRC.diff_of (band 0 (-30)) 1) with d in Hg, Ho.
  change (band 0 (-30)) with w in Hg, Ho.
  split; [exact He|]. split; [exact Hd|]. split; [exact Hg|].
  split; [exact Ho|].
  rewrite Ho, Rmult_1_l. clearbody d.
  assert (H10 : 1 < 10) by lra.
  split.
  - apply Rlt_trans with (Rpower 10 (- (18 / 71))); [apply db_minus_18_71|].
    apply Rpower_lt; lra.
  - apply Rlt_trans with (Rpower 10 (- (20 / 79))); [|apply db_minus_20_79].
    apply Rpower_lt; lra.
Qed.

(** When the envelope is at -30 dB after the update of step 2, the figures
    are those of the scenario. *)
Lemma band0_at_minus_30 (e x : R) :
  WDRC.update_envelope (band 0 e) (WDRC.linear_to_db x) = -30 ->
  WDRC.diff_of (band 0 e) x = 20
  /\ WDRC.gain_db_of (band 0 e) x = (2 - 1) * 20
  /\ WDRC.pre_limit (band 0 e) x = x * Rpower 10 (- 5 / 20).
Proof.
  intros Hu.
  destruct (band0_params e) as [Et _].
  assert (Hd : WDRC.diff_of (band 0 e) x = 20)
    by (unfold WDRC.diff_of; rewrite Hu, Et; simpl; lra).
  destruct (@band0_above_knee e x) as [Hg Ho]; [rewrite Hd; lra|].
  rewrite Hd in Hg, Ho. split; [exact Hd|]. split; [exact Hg|].
  rewrite Ho. f_equal. f_equal. lra.
Qed.

Lemma level_minus_30 : WDRC.linear_to_db sample_minus_30 = -30.
Proof.
  assert (Hp : 1 / 1000 < Rpower 10 (- (3 / 2))).
  { replace (3 / 2) with (INR 3 / INR 2) by (rewrite !INR_lit; simpl; lra).
    apply (@Rpower10_bounds 1%Z 1000%Z 3%nat 2%nat); [lia | lia | lia |].
    vm_compute. reflexivity. }
  unfold WDRC.linear_to_db, sample_minus_30. simpl. unfold log10.
  replace (Q2R (1 # 1000000000)) with (/ 1000000000)
    by (unfold Q2R; simpl; lra).
  replace (Q2R 20) with 20 by (unfold Q2R; simpl; lra).
  rewrite Rabs_pos_eq by lra.
  replace (Rpower 10 (- (3 / 2)) - / 1000000000 + / 1000000000)
    with (Rpower 10 (- (3 / 2))) by lra.
  unfold Rpower. rewrite ln_exp. pose proof ln10_gt_1. field. lra.
Qed.

Lemma band0_steady :
  WDRC.update_envelope (band 0 (-30)) (WDRC.linear_to_db sample_minus_30) = -30.
Proof.
  rewrite update_envelope_exact, level_minus_30.
  destruct (band0_params (-30)) as [_ [_ [_ [_ Ee]]]]. rewrite Ee.
  destruct (Rlt_dec (-30) (-30)); [lra | ring].
Qed.

(** C6, as the code has it: band 0 of [config.h] has threshold -50 dB, ratio
    2, knee 10 dB and gain 15 dB.  A call [process(1.0)] that finds the
    envelope at -30 dB first moves it, on the attack branch, to about
    -29.93 dB; [diff] is then about 20.07 dB (not 20), above knee/2 = 5 dB,
    the gain is [(2-1)*diff], and the output before the limiter is
    [10^((-diff+15)/20)], between 0.557 and 0.559 (not 0.562); the limiter
    leaves it as it is.  The figures diff = 20 dB, gain 20 dB, total -5 dB
    and the factor [10^(-5/20)], 0.5623, are those of a call that leaves the
    envelope at -30 dB after step 2, as it does for an input at -30 dB. *)
Theorem scenario_band0 :
  let w := band 0 (-30) in
  (WDRC.threshold w = -50 /\ WDRC.ratio w = 2 /\ WDRC.knee_width w = 10 /\
   WDRC.band_gain w = 15 /\ WDRC.envelope w = -30)
  /\ (-299322 / 10000 < WDRC.envelope (snd (WDRC.process w 1))
        < -299319 / 10000)
  /\ (200678 / 10000 < WDRC.diff_of w 1 < 200681 / 10000)
  /\ WDRC.gain_db_of w 1 = (2 - 1) * WDRC.diff_of w 1
  /\ WDRC.pre_limit w 1 = 1 * Rpower 10 ((- WDRC.diff_of w 1 + 15) / 20)
  /\ (557 / 1000 < WDRC.pre_limit w 1 < 559 / 1000)
  /\ fst (WDRC.process w 1) = WDRC.pre_limit w 1
  /\ (forall e x,
        WDRC.update_envelope (band 0 e) (WDRC.linear_to_db x) = -30 ->
        WDRC.diff_of (band 0 e) x = 20
        /\ WDRC.gain_db_of (band 0 e) x = (2 - 1) * 20
        /\ WDRC.pre_limit (band 0 e) x = x * Rpower 10 (- 5 / 20))
  /\ (5623 / 10000 < Rpower 10 (- 5 / 20) < 5624 / 10000).
Proof.
  intros w. destruct band0_call as [He [Hd [Hg [Ho Hb]]]]. fold w in He, Hd, Hg, Ho, Hb.
  split; [exact (band0_params (-30))|].
  split; [rewrite process_envelope; exact He|].
  split; [exact Hd|]. split; [exact Hg|]. split; [exact Ho|].
  split; [exact Hb|].
  split; [rewrite process_fst; apply limit_id;
          set (o := WDRC.pre_limit w 1) in *; clearbody o; lra|].
  split; [exact band0_at_minus_30 | exact db_minus_5].
Qed.

(** An input at -30 dB leaves the envelope of band 0 at -30 dB. *)
Lemma scenario_band0_witness :
  WDRC.update_envelope (band 0 (-30)) (WDRC.linear_to_db sample_minus_30) = -30
  /\ WDRC.diff_of (band 0 (-30)) sample_minus_30 = 20.
Proof.
  split; [exact band0_steady|].
  exact (proj1 (proj1 (proj2 (proj2 (proj2 (proj2 (proj2 (proj2 (proj2
           scenario_band0)))))))
         (-30) sample_minus_30 band0_steady)).
Defined.

(** C6, as it is stated, fails for [process(1.0)] on band 0 with the
    envelope at -30 dB: [diff] is not 20 dB, the gain is not 20 dB, and the
    output before the limiter is not 0.562 to three places. *)
Lemma scenario_band0_counterexample :
  WDRC.diff_of (band 0 (-30)) 1 <> 20
  /\ WDRC.gain_db_of (band 0 (-30)) 1 <> (2 - 1) * 20
  /\ ~ (5615 / 10000 <= WDRC.pre_limit (band 0 (-30)) 1 <= 5625 / 10000).
Proof.
  destruct band0_call as [_ [Hd [Hg [_ Hb]]]].
  set (d := WDRC.diff_of (band 0 (-30)) 1) in *.
  set (o := WDRC.pre_limit (band 0 (-30)) 1) in *.
  rewrite Hg. clearbody d o.
  split; [lra | split; [lra | intros [H1 H2]; lra]].
Qed.
End ExactFacts.

(* ================================================================== *)
(** * The exact transform: the round trip scales by N *)
(* ================================================================== *)

Module FourierFacts.
Import Exact.
Local Open Scope R_scope.

Lemma sum_n_ext (f g : nat -> R) (n : nat) :
  (forall i, (i < n)%nat -> f i = g i) -> sum_n f n = sum_n g n.
Proof.
  induction n as [|n IH]; intros Hfg; simpl; [reflexivity|].
  rewrite IH, Hfg by (intros; try apply Hfg; lia). reflexivity.
Qed.

Lemma sum_n_plus (f g : nat -> R) (n : nat) :
  sum_n (fun i => f i + g i) n = sum_n f n + sum_n g n.
Proof. induction n as [|n IH]; simpl; [|rewrite IH]; ring. Qed.

Lemma sum_n_scal (c : R) (f : nat -> R) (n : nat) :
  sum_n (fun i => c * f i) n = c * sum_n f n.
Proof. induction n as [|n IH]; simpl; [|rewrite IH]; ring. Qed.

Lemma sum_n_zero (f : nat -> R) (n : nat) :
  (forall i, (i < n)%nat -> f i = 0) -> sum_n f n = 0.
Proof.
  induction n as [|n IH]; intros Hf; simpl; [reflexivity|].
  rewrite IH, Hf by (intros; try apply Hf; lia). ring.
Qed.

Lemma sum_n_const (c : R) (n : nat) : sum_n (fun _ => c) n = INR n * c.
Proof.
  induction n as [|n IH]; [simpl; ring|].
  rewrite S_INR. simpl. rewrite IH. ring.
Qed.

Lemma sum_n_swap (f : nat -> nat -> R) (n m : nat) :
  sum_n (fun i => sum_n (fun j => f i j) m) n =
  sum_n (fun j => sum_n (fun i => f i j) n) m.
Proof.
  induction n as [|n IH]; simpl.
  - symmetry. apply sum_n_zero. reflexivity.
  - rewrite IH, <- sum_n_plus. reflexivity.
Qed.

Lemma sum_n_pick (f : nat -> R) (n i0 : nat) :
  (i0 < n)%nat -> (forall i, (i < n)%nat -> i <> i0 -> f i = 0) ->
  sum_n f n = f i0.
Proof.
  induction n as [|n IH]; intros Hi Hf; [lia|]. simpl.
  destruct (Nat.eq_dec i0 n) as [->|Hne].
  - rewrite sum_n_zero by (intros; apply Hf; lia). ring.
  - rewrite IH by (try lia; intros; apply Hf; lia).
    rewrite (Hf n) by lia. ring.
Qed.

(** The sums of [cos (k * phi)] and [sin (k * phi)], telescoped. *)
Lemma cos_sum_telescope (phi : R) (n : nat) :
  2 * sin (phi / 2) * sum_n (fun k => cos (INR k * phi)) n =
  sin ((INR n - 1 / 2) * phi) + sin (phi / 2).
Proof.
  induction n as [|n IH].
  - simpl. replace ((0 - 1 / 2) * phi) with (- (phi / 2)) by field.
    rewrite sin_neg. ring.
  - rewrite S_INR. simpl sum_n. rewrite Rmult_plus_distr_l, IH.
    replace ((INR n + 1 - 1 / 2) * phi) with (INR n * phi + phi / 2) by field.
    replace ((INR n - 1 / 2) * phi) with (INR n * phi - phi / 2) by field.
    rewrite sin_plus, sin_minus. ring.
Qed.

Lemma sin_sum_telescope (phi : R) (n : nat) :
  2 * sin (phi / 2) * sum_n (fun k => sin (INR k * phi)) n =
  cos (phi / 2) - cos ((INR n - 1 / 2) * phi).
Proof.
  induction n as [|n IH].
  - simpl. replace ((0 - 1 / 2) * phi) with (- (phi / 2)) by field.
    rewrite cos_neg. ring.
  - rewrite S_INR. simpl sum_n. rewrite Rmult_plus_distr_l, IH.
    replace ((INR n + 1 - 1 / 2) * phi) with (INR n * phi + phi / 2) by field.
    replace ((INR n - 1 / 2) * phi) with (INR n * phi - phi / 2) by field.
    rewrite cos_plus, cos_minus. ring.
Qed.

(** The [N]-th roots of unity other than 1 sum to zero. *)
Lemma roots_sum (N d : nat) :
  (0 < d < N)%nat ->
  sum_n (fun k => cos (INR k * (2 * PI * INR d / INR N))) N = 0 /\
  sum_n (fun k => sin (INR k * (2 * PI * INR d / INR N))) N = 0.
Proof.
  intros Hd. set (phi := 2 * PI * INR d / INR N).
  assert (HN : 0 < INR N) by (apply lt_0_INR; lia).
  assert (Hd0 : 0 < INR d) by (apply lt_0_INR; lia).
  assert (HdN : INR d < INR N) by (apply lt_INR; lia).
  pose proof PI_RGT_0 as Hpi.
  assert (Hs : 0 < sin (phi / 2)).
  { apply sin_gt_0.
    - unfold phi. apply Rdiv_lt_0_compat; [|lra].
      apply Rdiv_lt_0_compat; [|lra].
      apply Rmult_lt_0_compat; [lra|exact Hd0].
    - unfold phi. replace (2 * PI * INR d / INR N / 2)
        with (PI * (INR d / INR N)) by (field; lra).
      rewrite <- (Rmult_1_r PI) at 2. apply Rmult_lt_compat_l; [lra|].
      apply Rmult_lt_reg_r with (INR N); [lra|].
      unfold Rdiv. rewrite Rmult_assoc, Rinv_l by lra. lra. }
  assert (Hper : (INR N - 1 / 2) * phi = - (phi / 2) + 2 * INR d * PI)
    by (unfold phi; field; lra).
  split.
  - apply Rmult_eq_reg_l with (2 * sin (phi / 2)); [|lra].
    rewrite cos_sum_telescope, Hper, sin_period, sin_neg. ring.
  - apply Rmult_eq_reg_l with (2 * sin (phi / 2)); [|lra].
    rewrite sin_sum_telescope, Hper, cos_period, cos_neg. ring.
Qed.

(** Orthogonality of the transform kernel. *)
Lemma kernel_cos (N n j : nat) :
  (n < N)%nat -> (j < N)%nat ->
  sum_n (fun k => cos (angle N k n - angle N k j)) N =
  if Nat.eq_dec n j then INR N else 0.
Proof.
  intros Hn Hj.
  assert (HN : 0 < INR N) by (apply lt_0_INR; lia).
  destruct (Nat.eq_dec n j) as [->|Hne].
  - rewrite (sum_n_ext _ (fun _ => 1)); [rewrite sum_n_const; ring|].
    intros k _. rewrite Rminus_diag. apply cos_0.
  - destruct (Nat.lt_ge_cases j n) as [Hlt|Hge].
    + rewrite (sum_n_ext _
        (fun k => cos (INR k * (2 * PI * INR (n - j) / INR N)))).
      * apply roots_sum. lia.
      * intros k _. f_equal. unfold angle. rewrite minus_INR by lia.
        field. lra.
    + rewrite (sum_n_ext _
        (fun k => cos (INR k * (2 * PI * INR (j - n) / INR N)))).
      * apply roots_sum. lia.
      * intros k _. rewrite <- cos_neg. f_equal. unfold angle.
        rewrite minus_INR by lia. field. lra.
Qed.

Lemma kernel_sin (N n j : nat) :
  (n < N)%nat -> (j < N)%nat ->
  sum_n (fun k => sin (angle N k n - angle N k j)) N = 0.
Proof.
  intros Hn Hj.
  assert (HN : 0 < INR N) by (apply lt_0_INR; lia).
  destruct (Nat.eq_dec n j) as [->|Hne].
  - apply sum_n_zero. intros k _. rewrite Rminus_diag. apply sin_0.
  - destruct (Nat.lt_ge_cases j n) as [Hlt|Hge].
    + rewrite (sum_n_ext _
        (fun k => sin (INR k * (2 * PI * INR (n - j) / INR N)))).
      * apply roots_sum. lia.
      * intros k _. f_equal. unfold angle. rewrite minus_INR by lia.
        field. lra.
    + rewrite (sum_n_ext _
        (fun k => - sin (INR k * (2 * PI * INR (j - n) / INR N)))).
      * rewrite <- (Rmult_0_r (-1)).
        rewrite <- (proj2 (@roots_sum N (j - n) ltac:(lia))).
        rewrite <- sum_n_scal. apply sum_n_ext. intros; ring.
      * intros k _. rewrite <- sin_neg. f_equal. unfold angle.
        rewrite minus_INR by lia. field. lra.
Qed.

Lemma sum_n_lin2 (a b : R) (f g : nat -> R) (n : nat) :
  a * sum_n f n + b * sum_n g n = sum_n (fun j => a * f j + b * g j) n.
Proof. rewrite sum_n_plus, !sum_n_scal. reflexivity. Qed.

Lemma angle_sym (N k n : nat) : angle N k n = angle N n k.
Proof. unfold angle, Rdiv. ring. Qed.

Lemma nth_map_seq (f : nat -> R) (N k : nat) :
  (k < N)%nat -> nth k (map f (seq 0 N)) 0 = f k.
Proof.
  intros Hk. rewrite (nth_indep _ 0 (f 0%nat)) by (rewrite length_map, length_seq; exact Hk).
  rewrite map_nth, seq_nth by exact Hk. reflexivity.
Qed.

Lemma dft_length (sgn : R) (buf : list R * list R) :
  length (fst (dft sgn buf)) = length (fst buf) /\
  length (snd (dft sgn buf)) = length (fst buf).
Proof. unfold dft. simpl. rewrite !length_map, !length_seq. auto. Qed.

(** One sample of the forward transform followed by the inverse one, as a
    double sum over the kernel. *)
Lemma dft_dft (re im : list R) (n : nat) :
  let N := length re in
  let x j := nth j re 0 in
  let y j := nth j im 0 in
  (n < N)%nat ->
  nth n (fst (dft 1 (dft (-1) (re, im)))) 0 =
    sum_n (fun j => x j * sum_n (fun k => cos (angle N k n - angle N k j)) N
                    + - y j * sum_n (fun k => sin (angle N k n - angle N k j)) N) N
  /\
  nth n (snd (dft 1 (dft (-1) (re, im)))) 0 =
    sum_n (fun j => y j * sum_n (fun k => cos (angle N k n - angle N k j)) N
                    + x j * sum_n (fun k => sin (angle N k n - angle N k j)) N) N.
Proof.
  intros N x y Hn.
  set (X := dft (-1) (re, im)).
  assert (Lr : length (fst X) = N) by apply dft_length.
  unfold dft. cbn [fst snd]. rewrite Lr.
  rewrite !nth_map_seq by exact Hn.
  split.
  - rewrite (sum_n_ext _ (fun k => sum_n (fun j =>
        x j * cos (angle N k n - angle N k j)
        + - y j * sin (angle N k n - angle N k j)) N)).
    + rewrite sum_n_swap. apply sum_n_ext. intros j _.
      rewrite sum_n_lin2. reflexivity.
    + intros k Hk. unfold X, dft. cbn [fst snd]. fold N x y.
      rewrite !nth_map_seq by exact Hk.
      rewrite (angle_sym N n k).
      match goal with
      | |- ?S1 * ?c - 1 * ?S2 * ?s = _ =>
          transitivity (c * S1 + - s * S2); [ring|]
      end.
      rewrite sum_n_lin2. apply sum_n_ext. intros j _. unfold x, y.
      rewrite cos_minus, sin_minus. ring.
  - rewrite (sum_n_ext _ (fun k => sum_n (fun j =>
        y j * cos (angle N k n - angle N k j)
        + x j * sin (angle N k n - angle N k j)) N)).
    + rewrite sum_n_swap. apply sum_n_ext. intros j _.
      rewrite sum_n_lin2. reflexivity.
    + intros k Hk. unfold X, dft. cbn [fst snd]. fold N x y.
      rewrite !nth_map_seq by exact Hk.
      rewrite (angle_sym N n k).
      match goal with
      | |- ?S1 * ?c + 1 * ?S2 * ?s = _ =>
          transitivity (c * S1 + s * S2); [ring|]
      end.
      rewrite sum_n_lin2. apply sum_n_ext. intros j _. unfold x, y.
      rewrite cos_minus, sin_minus. ring.
Qed.
Lemma nth_map_0 (f : R -> R) (l : list R) (n : nat) :
  (n < length l)%nat -> nth n (map f l) 0 = f (nth n l 0).
Proof.
  intros Hn. rewrite (nth_indep _ 0 (f 0)) by (rewrite length_map; exact Hn).
  apply map_nth.
Qed.

(** The exact transform satisfies the round trip of section 4.1. *)
Lemma arduinoFFT_round_trip (N : nat) : round_trip_contract arduinoFFT N.
Proof.
  intros re im Hre Him. cbn [ArduinoFFT.compute arduinoFFT].
  destruct (dft_length 1 (dft (-1) (re, im))) as [L1 L2].
  destruct (dft_length (-1) (re, im)) as [L3 _].
  cbn [fst] in L3. rewrite L3, Hre in L1, L2.
  rewrite (surjective_pairing (dft 1 (dft (-1) (re, im)))).
  f_equal.
  - apply (nth_ext _ _ 0 0); [rewrite length_map; congruence|].
    intros n Hn. rewrite L1 in Hn.
    rewrite nth_map_0 by lia.
    destruct (@dft_dft re im n ltac:(lia)) as [E _]. rewrite E, Hre.
    rewrite (sum_n_ext _ (fun j => nth j re 0
                                   * (if Nat.eq_dec n j then INR N else 0))).
    + rewrite (@sum_n_pick _ N n Hn).
      * destruct (Nat.eq_dec n n); [ring|contradiction].
      * intros j Hj Hne. destruct (Nat.eq_dec n j); [congruence|ring].
    + intros j Hj. rewrite kernel_cos, kernel_sin by assumption. ring.
  - apply (nth_ext _ _ 0 0); [rewrite length_map; congruence|].
    intros n Hn. rewrite L2 in Hn.
    rewrite nth_map_0 by lia.
    destruct (@dft_dft re im n ltac:(lia)) as [_ E]. rewrite E, Hre.
    rewrite (sum_n_ext _ (fun j => nth j im 0
                                   * (if Nat.eq_dec n j then INR N else 0))).
    + rewrite (@sum_n_pick _ N n Hn).
      * destruct (Nat.eq_dec n n); [ring|contradiction].
      * intros j Hj Hne. destruct (Nat.eq_dec n j); [congruence|ring].
    + intros j Hj. rewrite kernel_cos, kernel_sin by assumption. ring.
Qed.

Lemma arduinoFFT_window (N : nat) : window_contract arduinoFFT N (hamming N).
Proof.
  intros re im Hre. cbn [ArduinoFFT.windowing arduinoFFT fst snd].
  rewrite Hre. reflexivity.
Qed.

(** ** The processor without bands *)

Lemma no_band_compressed (cfg : Config.t R) (i : nat) :
  Config.NUM_BANDS cfg = 0%nat -> MultibandWDRC.compressed cfg i = false.
Proof.
  intros H0. unfold MultibandWDRC.compressed, MultibandWDRC.bin_band,
    MultibandWDRC.getBandIndex. rewrite H0. reflexivity.
Qed.

Lemma bin_loop_no_bands (cfg : Config.t R) (s : MultibandWDRC.bins) :
  Config.NUM_BANDS cfg = 0%nat -> MultibandWDRC.bin_loop cfg s = s.
Proof.
  intros H0. apply bin_steps_none. intros i _.
  apply no_band_compressed. exact H0.
Qed.

(** Without bands, on a transform object that keeps the contracts of
    section 4.1, sample [k] of the output is sample [k] of the input times
    the weight of the analysis window: the window is not undone. *)
Lemma process_no_bands (cfg : Config.t R) (weight : nat -> R)
    (m : MultibandWDRC.t) (input : list R) (size k : nat) :
  Config.NUM_BANDS cfg = 0%nat ->
  window_contract (MultibandWDRC.FFT m) (Config.FFT_SIZE cfg) weight ->
  round_trip_contract (MultibandWDRC.FFT m) (Config.FFT_SIZE cfg) ->
  (k < size <= Config.FFT_SIZE cfg)%nat ->
  nth k (fst (MultibandWDRC.process cfg m input size)) 0
    = nth k input 0 * weight k
  /\ MultibandWDRC.wdrc_bands (snd (MultibandWDRC.process cfg m input size))
    = MultibandWDRC.wdrc_bands m.
Proof.
  intros H0 Hw Hrt Hk. set (N := Config.FFT_SIZE cfg) in *.
  unfold MultibandWDRC.process.
  rewrite bin_loop_no_bands by exact H0.
  set (buf := MultibandWDRC.prepare cfg input size).
  assert (Lre : length (fst buf) = N)
    by (unfold buf, MultibandWDRC.prepare; cbn [fst];
        rewrite length_map, length_seq; reflexivity).
  assert (Lim : length (snd buf) = N)
    by (unfold buf, MultibandWDRC.prepare; cbn [snd];
        rewrite length_map, length_seq; reflexivity).
  rewrite (surjective_pairing buf), (Hw _ _ Lre).
  rewrite Hrt by (rewrite ?length_map, ?length_seq; auto).
  cbn [fst snd]. split; [|reflexivity].
  unfold MultibandWDRC.normalize.
  rewrite nth_map_seq by lia.
  cbn [to_float R_CCast fdiv of_int lit R_CFloat].
  rewrite ExactFacts.lit_0.
  rewrite nth_map_0 by (rewrite length_map, length_seq; lia).
  rewrite nth_map_seq by lia.
  unfold buf, MultibandWDRC.prepare. cbn [fst]. fold N.
  rewrite nth_map_seq by lia.
  destruct (Nat.ltb_spec k size) as [_|Hge]; [|lia].
  cbn [to_double R_CCast lit R_CFloat]. rewrite ExactFacts.lit_0.
  rewrite <- INR_IZR_INZ.
  assert (HN : 0 < INR N) by (apply lt_0_INR; lia).
  field. lra.
Qed.
Lemma hamming_0 : hamming 512 0 = 8 / 100.
Proof.
  unfold hamming.
  replace (0 <? 512 / 2)%nat with true by reflexivity.
  replace (2 * PI * (INR 0 / (INR 512 - 1))) with 0
    by (simpl INR at 1; unfold Rdiv; ring).
  rewrite cos_0. lra.
Qed.

(** C1, as the code has it: with an empty band table the bin loop changes
    nothing, and on a transform whose window multiplies sample [k] by
    [weight k] and whose forward and inverse round trip scales by [N]
    (section 4.1), [process] returns, in exact arithmetic,
    [output[k] = weight k * input[k]] for [k < size <= N]: the input shaped
    by the analysis window, not the input itself.  The band compressors are
    left as they were. *)
Theorem pass_through_windowed (cfg : Config.t R) (weight : nat -> R)
    (m : MultibandWDRC.t) (input : list R) (size k : nat) :
  Config.NUM_BANDS cfg = 0%nat ->
  window_contract (MultibandWDRC.FFT m) (Config.FFT_SIZE cfg) weight ->
  round_trip_contract (MultibandWDRC.FFT m) (Config.FFT_SIZE cfg) ->
  (k < size <= Config.FFT_SIZE cfg)%nat ->
  nth k (fst (MultibandWDRC.process cfg m input size)) 0
    = weight k * nth k input 0
  /\ MultibandWDRC.bin_loop cfg
       (MultibandWDRC.wdrc_bands m,
        ArduinoFFT.compute (MultibandWDRC.FFT m) ArduinoFFT.FFT_FORWARD
          (ArduinoFFT.windowing (MultibandWDRC.FFT m)
             ArduinoFFT.FFT_WIN_TYP_HAMMING ArduinoFFT.FFT_FORWARD
             (MultibandWDRC.prepare cfg input size)))
     = (MultibandWDRC.wdrc_bands m,
        ArduinoFFT.compute (MultibandWDRC.FFT m) ArduinoFFT.FFT_FORWARD
          (ArduinoFFT.windowing (MultibandWDRC.FFT m)
             ArduinoFFT.FFT_WIN_TYP_HAMMING ArduinoFFT.FFT_FORWARD
             (MultibandWDRC.prepare cfg input size)))
  /\ MultibandWDRC.wdrc_bands (snd (MultibandWDRC.process cfg m input size))
     = MultibandWDRC.wdrc_bands m.
Proof.
  intros H0 Hw Hrt Hk.
  destruct (@process_no_bands cfg weight m input size k H0 Hw Hrt Hk)
    as [Ho Hb].
  split; [rewrite Ho; ring|]. split; [|exact Hb].
  apply bin_loop_no_bands. exact H0.
Qed.

(** The 512-point exact transform with its Hamming window, no band, and the
    block that holds the one sample 1.0: the output is 0.08. *)
Lemma pass_through_windowed_witness :
  nth 0 (fst (MultibandWDRC.process no_bands no_bands_processor [1] 1)) 0
  = hamming 512 0 * nth 0 [1] 0.
Proof.
  apply (@pass_through_windowed no_bands (hamming 512) no_bands_processor
           [1] 1%nat 0%nat).
  - reflexivity.
  - exact (@arduinoFFT_window 512%nat).
  - exact (@arduinoFFT_round_trip 512%nat).
  - simpl. lia.
Defined.

(** C1, as it is stated, fails: without bands, on the exact 512-point
    transform, the block that holds the one normalized sample 1.0 comes
    back as 0.08, which is 0.92 away from the input and not within 1e-4. *)
Lemma pass_through_counterexample :
  let output :=
    fst (MultibandWDRC.process no_bands no_bands_processor [1] 1) in
  nth 0 output 0 = 8 / 100
  /\ ~ (Rabs (nth 0 output 0 - nth 0 [1] 0) < 1 / 10000).
Proof.
  intros output.
  assert (E : nth 0 output 0 = 8 / 100).
  { unfold output.
    destruct (@process_no_bands no_bands (hamming 512) no_bands_processor
                [1] 1%nat 0%nat eq_refl (@arduinoFFT_window 512%nat)
                (@arduinoFFT_round_trip 512%nat) ltac:(simpl; lia)) as [Ho _].
    rewrite Ho, hamming_0. simpl. lra. }
  split; [exact E|]. rewrite E. simpl nth.
  replace (8 / 100 - 1) with (- (92 / 100)) by lra.
  rewrite Rabs_Ropp, Rabs_pos_eq by lra. lra.
Qed.
End FourierFacts.

(* ================================================================== *)
(** * Properties in IEEE-754 arithmetic *)
(* ================================================================== *)

Module IEEEFacts.
Import IEEE.

(** [0.99f] *)
Local Abbreviation c99 := (S754_finite false 16609444 (-24)).

Lemma lit_99 : of_Q 24 128 (99 # 100) = c99.
Proof. vm_compute. reflexivity. Qed.

Lemma SFmul_nan_r (prec emax : Z) (x : spec_float) :
  SFmul prec emax x S754_nan = S754_nan.
Proof. destruct x; reflexivity. Qed.

Lemma SFadd_nan_l (prec emax : Z) (x : spec_float) :
  SFadd prec emax S754_nan x = S754_nan.
Proof. reflexivity. Qed.

Lemma SFdiv_nan_l (prec emax : Z) (x : spec_float) :
  SFdiv prec emax S754_nan x = S754_nan.
Proof. reflexivity. Qed.

Section Limiter.
Variable L : libm.
Let B32 : CFloat spec_float := binary32 L.
Local Existing Instance B32.

(** The limiter lets NaN through: both comparisons are false. *)
Lemma limit_nan : WDRC.limit S754_nan = S754_nan.
Proof. reflexivity. Qed.

(** Everything else leaves the limiter with a magnitude of at most 0.99. *)
Lemma limit_bound (y : spec_float) :
  is_nan y = false ->
  is_nan (WDRC.limit y) = false /\
  SFleb (SFabs (WDRC.limit y)) c99 = true.
Proof.
  intros Hy. unfold WDRC.limit, fgt. cbn [lit flt fneg B32 binary32 ieee].
  rewrite lit_99.
  destruct y as [s|s| |s m e]; try discriminate.
  - destruct s; vm_compute; auto.
  - destruct s; vm_compute; auto.
  - destruct s.
    + (* negative: only the lower comparison can hold *)
      replace (SFltb c99 (S754_finite true m e)) with false by reflexivity.
      unfold SFltb, SFleb, SFcompare, SFopp, SFabs. cbn [negb].
      destruct (e ?= -24)%Z eqn:Ee.
      * destruct (Pos.compare_cont Eq m 16609444) eqn:Em; cbn [CompOpp];
          cbv iota; rewrite ?Ee, ?Em; split; reflexivity.
      * cbv iota. rewrite Ee. split; reflexivity.
      * cbv iota. split; reflexivity.
    + (* positive: only the upper comparison can hold *)
      unfold SFltb, SFleb, SFcompare, SFopp, SFabs. cbn [negb].
      rewrite (Z.compare_antisym e (-24)).
      destruct (e ?= -24)%Z eqn:Ee; cbn [CompOpp]; cbv iota.
      * assert (Ea : Pos.compare_cont Eq 16609444 m
                     = CompOpp (Pos.compare_cont Eq m 16609444))
          by (rewrite Pos.compare_cont_antisym; reflexivity).
        rewrite Ea.
        destruct (Pos.compare_cont Eq m 16609444) eqn:Em; cbn [CompOpp];
          cbv iota; rewrite ?Ee, ?Em; split; reflexivity.
      * rewrite Ee. split; reflexivity.
      * split; reflexivity.
Qed.
End Limiter.

Section HardKnee.
Variable L : libm.
Let B32 : CFloat spec_float := binary32 L.
Local Existing Instance B32.

Lemma process_pre_limit (w : WDRC.t spec_float) (x : spec_float) :
  fst (WDRC.process w x) = WDRC.limit (WDRC.pre_limit w x).
Proof. reflexivity. Qed.

(** A NaN sample stays NaN through step 4. *)
Lemma pre_limit_nan_input (w : WDRC.t spec_float) :
  WDRC.pre_limit w S754_nan = S754_nan.
Proof. reflexivity. Qed.

(** With a knee of width 0 and [diff] zero, step 3 divides 0 by 0. *)
Lemma compression_gain_hard_knee (w : WDRC.t spec_float) (diff : spec_float) :
  is_zero (WDRC.knee_width w) = true ->
  is_zero diff = true ->
  is_finite (WDRC.ratio w - of_int 1)%cf = true ->
  WDRC.compression_gain w diff = S754_nan.
Proof.
  intros Hk Hd Hr. unfold WDRC.compression_gain.
  destruct (WDRC.knee_width w) as [sk|sk| |sk mk ek]; try discriminate.
  destruct diff as [sd|sd| |sd md ed]; try discriminate.
  destruct (WDRC.ratio w - of_int 1)%cf as [sr|sr| |sr mr er];
    try discriminate; destruct sk, sd; reflexivity.
Qed.

(** A NaN gain makes the output NaN, whatever the sample. *)
Lemma apply_gain_nan (w : WDRC.t spec_float) (x : spec_float) :
  m_pow L (lit 10) S754_nan = S754_nan ->
  WDRC.apply_gain w x S754_nan = S754_nan.
Proof.
  intros Hp. unfold WDRC.apply_gain, WDRC.db_to_linear.
  cbn [fmul fadd fneg fdiv f_pow B32 binary32 ieee SFopp].
  rewrite SFadd_nan_l, SFdiv_nan_l, Hp. apply SFmul_nan_r.
Qed.
End HardKnee.

(** ** The correctly rounded library on the values of the failing call *)

(** [1.0f] *)
Local Abbreviation one32 := (S754_finite false 8388608 (-23)).

Lemma round_0 (prec emax : Z) : round prec emax 0 = S754_zero false.
Proof.
  unfold round.
  destruct (Rlt_dec 0 0) as [H|_]; [lra|].
  destruct (Rlt_dec 0 0) as [H|_]; [lra|]. reflexivity.
Qed.

(** [log10f(1.0f)] is +0. *)
Lemma ideal_log10_one : ideal_log10 24 128 one32 = S754_zero false.
Proof.
  unfold ideal_log10.
  replace (SF2R one32) with 1%R.
  - rewrite ln_1. unfold Rdiv. rewrite Rmult_0_l. apply round_0.
  - unfold SF2R, cond_Zopp. simpl. lra.
Qed.

(** [powf(10.0f, NaN)] is NaN. *)
Lemma ideal_pow_nan : ideal_pow 24 128 (of_Q 24 128 10) S754_nan = S754_nan.
Proof.
  unfold ideal_pow.
  replace (SFeqb (of_Q 24 128 10) (SFone 24 128)) with false
    by (vm_compute; reflexivity).
  replace (of_Q 24 128 10) with (S754_finite false 10485760 (-20))
    by (vm_compute; reflexivity).
  reflexivity.
Qed.

(** The level of the sample [1.0f]: [1.0f + 1e-9f] rounds to [1.0f], whose
    logarithm is 0. *)
Lemma level_one32 :
  @WDRC.linear_to_db _ (binary32 (ideal 24 128)) one32 = S754_zero false.
Proof.
  unfold WDRC.linear_to_db.
  cbn [fmul fadd fabs f_log10 lit binary32 ieee ideal m_log10].
  replace (SFadd 24 128 (SFabs one32) (of_Q 24 128 (1 # 1000000000)))
    with one32 by (vm_compute; reflexivity).
  rewrite ideal_log10_one. vm_compute. reflexivity.
Qed.

(** On the fresh hard-knee compressor the sample [1.0f] leaves the envelope
    at the threshold: [diff] is +0. *)
Lemma hard_knee_diff :
  @WDRC.diff_of _ (binary32 (ideal 24 128)) hard_knee one32 = S754_zero false.
Proof.
  unfold WDRC.diff_of, WDRC.update_envelope. rewrite level_one32.
  vm_compute. reflexivity.
Qed.
(** The call [process(1.0f)] on the fresh hard-knee compressor returns
    NaN. *)
Lemma hard_knee_call :
  fst (@WDRC.process _ (binary32 (ideal 24 128)) hard_knee one32) = S754_nan.
Proof.
  rewrite process_pre_limit. unfold WDRC.pre_limit, WDRC.gain_db_of.
  rewrite hard_knee_diff.
  rewrite compression_gain_hard_knee by (vm_compute; reflexivity).
  rewrite apply_gain_nan by exact ideal_pow_nan.
  apply limit_nan.
Qed.

(** [0.99f] is [16609444 / 2^24], 0.9900000095..., above the decimal 0.99. *)
Lemma lit_99_value (L : libm) :
  (SF2R (@lit _ (binary32 L) (99 # 100)) = 16609444 / 16777216
   /\ 99 / 100 < SF2R (@lit _ (binary32 L) (99 # 100)))%R.
Proof.
  cbn [lit binary32 ieee]. rewrite lit_99.
  unfold SF2R, cond_Zopp. simpl. lra.
Qed.

(** C2, as the code has it: the limiter is two comparisons, [> 0.99f] and
    [< -0.99f], and a NaN passes both.  So for every [libm], compressor and
    sample: when the product of step 4 is NaN, [process] returns NaN;
    otherwise (also for an infinite product) it returns a value that is not
    NaN and whose magnitude is at most [0.99f].  The bound is the [float]
    literal, [16609444 / 2^24], which is above the decimal 0.99. *)
Theorem limiter_clamps (L : libm) (w : WDRC.t spec_float) (x : spec_float) :
  let c := @lit _ (binary32 L) (99 # 100) in
  let output := @WDRC.pre_limit _ (binary32 L) w x in
  let returned := fst (@WDRC.process _ (binary32 L) w x) in
  output = @WDRC.apply_gain _ (binary32 L) w x
             (@WDRC.gain_db_of _ (binary32 L) w x)
  /\ (SF2R c = 16609444 / 16777216 /\ 99 / 100 < SF2R c)%R
  /\ if is_nan output then returned = S754_nan
     else is_nan returned = false /\ SFleb (SFabs returned) c = true.
Proof.
  intros c output returned. split; [reflexivity|].
  split; [exact (lit_99_value L)|].
  unfold returned. rewrite process_pre_limit. fold output.
  destruct (is_nan output) eqn:En.
  - destruct output; try discriminate. apply limit_nan.
  - unfold c. cbn [lit binary32 ieee]. rewrite lit_99.
    apply limit_bound. exact En.
Qed.

(** C2, as it is stated, fails: a NaN sample is returned as NaN, and so is
    the finite sample [1.0f] by the fresh compressor with a knee of width 0
    at threshold 0 dB; NaN is not at most [0.99f] in magnitude. *)
Lemma limiter_clamps_counterexample :
  let B32 := binary32 (ideal 24 128) in
  let out_nan := fst (@WDRC.process _ B32 hard_knee S754_nan) in
  let out_one := fst (@WDRC.process _ B32 hard_knee one32) in
  SFleb (SFabs out_nan) (@lit _ B32 (99 # 100)) = false
  /\ SFleb (SFabs out_one) (@lit _ B32 (99 # 100)) = false.
Proof.
  intros B32 out_nan out_one. split.
  - unfold out_nan, B32.
    rewrite process_pre_limit, pre_limit_nan_input, limit_nan.
    reflexivity.
  - unfold out_one, B32. rewrite hard_knee_call. reflexivity.
Qed.

(** C4, on the code: with a knee of width 0 (allowed by [knee_width >= 0]),
    a call whose envelope lands on the threshold ([diff] is zero) takes the
    knee branch, divides [0] by [2 * knee_width = 0] and gets NaN; the NaN
    goes through [pow], the product and the limiter, and [process] returns
    it.  This holds for every [libm] whose [pow(10, NaN)] is NaN, every
    sample and every finite ratio. *)
Theorem hard_knee_nan (L : libm) (w : WDRC.t spec_float) (x : spec_float) :
  m_pow L (@lit _ (binary32 L) 10) S754_nan = S754_nan ->
  is_zero (WDRC.knee_width w) = true ->
  is_zero (@WDRC.diff_of _ (binary32 L) w x) = true ->
  is_finite (@fsub _ (binary32 L) (WDRC.ratio w) (@of_int _ (binary32 L) 1))
    = true ->
  @WDRC.gain_db_of _ (binary32 L) w x = S754_nan
  /\ fst (@WDRC.process _ (binary32 L) w x) = S754_nan.
Proof.
  intros Hp Hk Hd Hr.
  assert (Hg : @WDRC.gain_db_of _ (binary32 L) w x = S754_nan)
    by (apply compression_gain_hard_knee; assumption).
  split; [exact Hg|].
  rewrite process_pre_limit. unfold WDRC.pre_limit. rewrite Hg.
  rewrite apply_gain_nan by exact Hp. apply limit_nan.
Qed.

(** The fresh compressor with threshold 0 dB, ratio 2 and knee 0, called on
    the finite sample [1.0f], with the correctly rounded library. *)
Lemma hard_knee_nan_witness :
  fst (@WDRC.process _ (binary32 (ideal 24 128)) hard_knee one32) = S754_nan.
Proof.
  apply (fun H1 H2 H3 H4 =>
           proj2 (@hard_knee_nan (ideal 24 128) hard_knee one32 H1 H2 H3 H4)).
  - exact ideal_pow_nan.
  - vm_compute. reflexivity.
  - rewrite hard_knee_diff. reflexivity.
  - vm_compute. reflexivity.
Defined.
(** On any fresh compressor that [setParameters] gave a knee of width 0, a
    threshold of 0 dB and a ratio of 2, whatever the band gain and the two
    times, the call [process(1.0f)] returns NaN: for every [libm] with
    [log10(1) = +0] and [pow(10, NaN) = NaN] whose [exp] gives a release
    coefficient [a] such that [a] and [1 - a] are finite. *)
Lemma fresh_hard_knee_call (L : libm) (g t_a t_r : spec_float)
    (mem : WDRC.t spec_float) :
  let B32 := binary32 L in
  let params := {| Config.threshold := @lit _ B32 0;
                   Config.ratio := @lit _ B32 2;
                   Config.knee_width := @lit _ B32 0;
                   Config.gain := g;
                   Config.attack_time := t_a;
                   Config.release_time := t_r |} in
  let w := @WDRC.setParameters _ B32 44100 params (@WDRC.ctor _ B32 mem) in
  m_log10 L one32 = S754_zero false ->
  m_pow L (@lit _ B32 10) S754_nan = S754_nan ->
  is_finite (WDRC.alpha_release w) = true ->
  is_finite (@fsub _ B32 (@lit _ B32 1) (WDRC.alpha_release w)) = true ->
  fst (@WDRC.process _ B32 w one32) = S754_nan.
Proof.
  intros B32 params w Hlog Hpow Ha Hu.
  assert (Hl : @WDRC.linear_to_db _ B32 one32 = S754_zero false).
  { unfold WDRC.linear_to_db.
    cbn [fmul fadd fabs f_log10 lit B32 binary32 ieee].
    replace (SFadd 24 128 (SFabs one32) (of_Q 24 128 (1 # 1000000000)))
      with one32 by (vm_compute; reflexivity).
    rewrite Hlog. vm_compute. reflexivity. }
  assert (Hd : is_zero (@WDRC.diff_of _ B32 w one32) = true).
  { unfold WDRC.diff_of, WDRC.update_envelope. rewrite Hl.
    replace (WDRC.envelope w) with (S754_zero false)
      by (vm_compute; reflexivity).
    replace (WDRC.threshold w) with (S754_zero false)
      by (vm_compute; reflexivity).
    cbn [fgt flt fadd fsub fmul lit B32 binary32 ieee] in Hu |- *.
    replace (SFltb (S754_zero false) (S754_zero false)) with false
      by reflexivity.
    destruct (SFsub 24 128 (of_Q 24 128 1) (WDRC.alpha_release w))
      as [su|su| |su mu eu]; try discriminate;
      destruct (WDRC.alpha_release w) as [sa|sa| |sa ma ea];
      try discriminate; destruct su, sa; reflexivity. }
  unfold B32 in *.
  rewrite process_pre_limit. unfold WDRC.pre_limit, WDRC.gain_db_of.
  rewrite compression_gain_hard_knee;
    [| vm_compute; reflexivity | exact Hd | vm_compute; reflexivity].
  rewrite apply_gain_nan by exact Hpow. apply limit_nan.
Qed.

(** ** The envelope of band 0 on silence *)

Section Silence.
Local Open Scope R_scope.




End Silence.

(** [-180.0f] and the envelope [-179.987396f], 826 units in the last place
    above it. *)
Local Abbreviation minus_180 := (S754_finite true 11796480 (-16)).
Local Abbreviation stalled := (S754_finite true 11795654 (-16)).




(** ** The classifier on [double] frequencies *)

(** The test values of the specification in binary64 against the limits of
    [config.h], held in binary32: 1000 Hz is in band 1; 249.999 Hz, 8000 Hz
    and a NaN frequency are in no band. *)
Lemma classify_binary64 (L : libm) :
  let classify :=
    @MultibandWDRC.getBandIndex _ _ (binary32 L) (binary64 L) float_double
      (@Config.config_h _ (binary32 L)) in
  classify (of_Q 53 1024 1000) = 1%Z
  /\ classify (of_Q 53 1024 (249999 # 1000)) = (-1)%Z
  /\ classify (of_Q 53 1024 8000) = (-1)%Z
  /\ classify S754_nan = (-1)%Z.
Proof. repeat split; vm_compute; reflexivity. Qed.
End IEEEFacts.

(* ================================================================== *)
(** * What a call of the compressor keeps, for every arithmetic *)
(* ================================================================== *)

Section Persistence.
Context {F : Type} `{CFloat F}.

(** The compressor after the calls [process(x)] for the samples [x] of
    [inputs], in order. *)
Lemma run_cons (x : F) (inputs : list F) (w : WDRC.t F) :
  fold_left (fun w x => snd (WDRC.process w x)) (x :: inputs) w =
  fold_left (fun w x => snd (WDRC.process w x)) inputs
    (snd (WDRC.process w x)).
Proof. reflexivity. Qed.

Lemma run_band_gain (inputs : list F) (w : WDRC.t F) :
  WDRC.band_gain (fold_left (fun w x => snd (WDRC.process w x)) inputs w)
  = WDRC.band_gain w.
Proof.
  revert w; induction inputs as [|x inputs IH]; intros w; [reflexivity|].
  rewrite run_cons, IH. reflexivity.
Qed.

(** X1: [WDRC::process] assigns the envelope and nothing else: after any
    number of calls, on any samples, the two coefficients, the threshold,
    the ratio, the knee width and the band gain are the ones
    [setParameters] left. *)
Theorem process_keeps_parameters (inputs : list F) (w : WDRC.t F) :
  let w' := fold_left (fun w x => snd (WDRC.process w x)) inputs w in
  WDRC.alpha_attack w' = WDRC.alpha_attack w
  /\ WDRC.alpha_release w' = WDRC.alpha_release w
  /\ WDRC.threshold w' = WDRC.threshold w
  /\ WDRC.ratio w' = WDRC.ratio w
  /\ WDRC.knee_width w' = WDRC.knee_width w
  /\ WDRC.band_gain w' = WDRC.band_gain w.
Proof.
  revert w; induction inputs as [|x inputs IH]; intros w;
    [repeat split; reflexivity|].
  rewrite run_cons.
  destruct (IH (snd (WDRC.process w x))) as (Ha & Hr & Ht & Hq & Hk & Hg).
  cbv zeta. rewrite Ha, Hr, Ht, Hq, Hk, Hg. repeat split; reflexivity.
Qed.
End Persistence.

(* ================================================================== *)
(** * The bin loop: sizes, band compressors and the mirror bins *)
(* ================================================================== *)

Section ArraysMore.
Context {A : Type}.

Lemma nth_error_upd_eq (i : nat) (x : A) (l : list A) :
  (i < length l)%nat -> nth_error (upd i x l) i = Some x.
Proof.
  revert i; induction l as [|h t IH]; intros [|i] Hi; simpl in *;
    try lia; auto.
  apply IH; lia.
Qed.

Lemma nth_error_upd_neq (i j : nat) (x : A) (l : list A) :
  i <> j -> nth_error (upd i x l) j = nth_error l j.
Proof.
  revert i j; induction l as [|h t IH]; intros [|i] [|j] Hij; simpl;
    try congruence; auto.
Qed.

Lemma fold_left_ext_in {B : Type} (f g : B -> A -> B) (l : list A) (b : B) :
  (forall a x, In x l -> f a x = g a x) -> fold_left f l b = fold_left g l b.
Proof.
  revert b; induction l as [|x l IH]; intros b Hfg; [reflexivity|].
  simpl. rewrite Hfg by (left; reflexivity).
  apply IH. intros a y Hy. apply Hfg. right; exact Hy.
Qed.
End ArraysMore.

Section BinLoopMore.
Context {F D : Type} `{CFloat F} `{CFloat D} `{CPolar D} `{CCast F D}.
Variable cfg : Config.t F.
Import MultibandWDRC.
Local Open Scope cfloat_scope.

Local Abbreviation N := (Config.FFT_SIZE cfg).

Lemma bin_steps_cons (i : nat) (l : list nat) (s : bins) :
  bin_steps cfg (i :: l) s = bin_steps cfg l (bin_step cfg i s).
Proof. reflexivity. Qed.

Lemma bin_steps_app (l1 l2 : list nat) (s : bins) :
  bin_steps cfg (l1 ++ l2) s = bin_steps cfg l2 (bin_steps cfg l1 s).
Proof. unfold bin_steps. apply fold_left_app. Qed.

Lemma bin_step_lengths (i : nat) (s : bins) :
  length (fst (bin_step cfg i s)) = length (fst s)
  /\ length (re_of (bin_step cfg i s)) = length (re_of s)
  /\ length (im_of (bin_step cfg i s)) = length (im_of s).
Proof.
  destruct s as [bands [re im]]. unfold bin_step.
  destruct (getBandIndex cfg (bin_frequency cfg i) >=? 0)%Z; auto.
  destruct (nth_error bands _) as [w|]; auto.
  destruct (WDRC.process w _) as [out w'].
  destruct (Nat.eqb i 0); unfold re_of, im_of; cbn [fst snd];
    rewrite ?length_upd; auto.
Qed.

Lemma bin_steps_lengths (l : list nat) (s : bins) :
  length (fst (bin_steps cfg l s)) = length (fst s)
  /\ length (re_of (bin_steps cfg l s)) = length (re_of s)
  /\ length (im_of (bin_steps cfg l s)) = length (im_of s).
Proof.
  revert s; induction l as [|i l IH]; intros s; auto.
  rewrite bin_steps_cons.
  destruct (IH (bin_step cfg i s)) as (Hb & Hr & Hi).
  destruct (bin_step_lengths i s) as (Hb' & Hr' & Hi').
  repeat split; congruence.
Qed.

(** The magnitude of bin [i] that the loop hands to the compressor:
    [(float)sqrt(real[i]*real[i] + imag[i]*imag[i])]. *)
Lemma bin_step_band (i b : nat) (s : bins) :
  nth_error (fst (bin_step cfg i s)) b =
  if (bin_band cfg i =? Z.of_nat b)%Z
  then option_map
         (fun w => snd (WDRC.process w
            (to_float (f_sqrt (nth i (re_of s) (lit 0) * nth i (re_of s) (lit 0)
                               + nth i (im_of s) (lit 0) * nth i (im_of s) (lit 0))))))
         (nth_error (fst s) b)
  else nth_error (fst s) b.
Proof.
  destruct s as [bands [re im]]. unfold bin_step, bin_band, re_of, im_of.
  cbn [fst snd].
  destruct (getBandIndex cfg (bin_frequency cfg i) >=? 0)%Z eqn:Eb.
  - apply Z.geb_le in Eb.
    destruct (getBandIndex cfg (bin_frequency cfg i) =? Z.of_nat b)%Z eqn:Ek.
    + apply Z.eqb_eq in Ek. rewrite Ek, Nat2Z.id.
      destruct (nth_error bands b) as [w|] eqn:Ew; [|exact Ew].
      assert (Hb : (b < length bands)%nat)
        by (apply nth_error_Some; congruence).
      cbn [option_map].
      destruct (WDRC.process w _) as [out w'].
      destruct (Nat.eqb i 0); cbn [fst snd];
        rewrite nth_error_upd_eq by exact Hb; reflexivity.
    + apply Z.eqb_neq in Ek.
      destruct (nth_error bands (Z.to_nat _)) as [w|]; [|reflexivity].
      destruct (WDRC.process w _) as [out w'].
      destruct (Nat.eqb i 0); cbn [fst snd];
        apply nth_error_upd_neq; lia.
  - destruct (getBandIndex cfg (bin_frequency cfg i) =? Z.of_nat b)%Z eqn:Ek;
      [|reflexivity].
    apply Z.eqb_eq in Ek. rewrite Ek in Eb.
    assert (Hge : (Z.of_nat b >=? 0)%Z = true) by (apply Z.geb_le; lia).
    congruence.
Qed.

Lemma bin_steps_band_run (l : list nat) (s : bins) (b : nat) (w : WDRC.t F) :
  NoDup l -> (forall i, In i l -> (i < N / 2)%nat) ->
  nth_error (fst s) b = Some w ->
  nth_error (fst (bin_steps cfg l s)) b =
  Some (fold_left
          (fun w i => snd (WDRC.process w
             (to_float (f_sqrt (nth i (re_of s) (lit 0) * nth i (re_of s) (lit 0)
                                + nth i (im_of s) (lit 0) * nth i (im_of s) (lit 0))))))
          (filter (fun i => (bin_band cfg i =? Z.of_nat b)%Z) l) w).
Proof.
  revert s w; induction l as [|i l IH]; intros s w Hnd Hl Hw; [exact Hw|].
  rewrite bin_steps_cons. inversion Hnd as [|? ? Hi Hnd']; subst.
  pose proof (bin_step_band i b s) as Hs. rewrite Hw in Hs.
  assert (Hfr : forall j, In j l ->
    nth j (re_of (bin_step cfg i s)) (lit 0) = nth j (re_of s) (lit 0) /\
    nth j (im_of (bin_step cfg i s)) (lit 0) = nth j (im_of s) (lit 0)).
  { intros j Hj. apply bin_step_frame. right. split; [congruence|].
    right. assert (Hj' : (j < N / 2)%nat) by (apply Hl; right; exact Hj).
    assert (Hi' : (i < N / 2)%nat) by (apply Hl; left; reflexivity).
    pose proof (half_lt_mirror cfg Hi'). lia. }
  cbn [filter].
  destruct (bin_band cfg i =? Z.of_nat b)%Z; cbn [option_map] in Hs;
    rewrite (IH _ _ Hnd' (fun j Hj => Hl j (or_intror Hj)) Hs);
    cbn [fold_left]; f_equal; apply fold_left_ext_in;
    intros a j Hj; apply filter_In in Hj; destruct Hj as [Hj _];
    destruct (Hfr j Hj) as [Er Ei]; rewrite Er, Ei; reflexivity.
Qed.

Lemma bin_step_mirror (i : nat) (s : bins) (d : D) :
  length (fst s) = Config.NUM_BANDS cfg ->
  length (re_of s) = N -> length (im_of s) = N ->
  (0 < i < N / 2)%nat -> compressed cfg i = true ->
  nth (N - i) (re_of (bin_step cfg i s)) d = nth i (re_of (bin_step cfg i s)) d
  /\ nth (N - i) (im_of (bin_step cfg i s)) d
     = - nth i (im_of (bin_step cfg i s)) d.
Proof.
  intros Hb Hr Hi Hlt Hc. destruct s as [bands [re im]].
  unfold re_of, im_of in *. cbn [fst snd] in *.
  pose proof (half_lt_mirror cfg (proj2 Hlt)) as Hm.
  unfold compressed, bin_band in Hc. unfold bin_step. rewrite Hc.
  pose proof (band_in_range cfg (bin_frequency cfg i) bands Hb Hc) as Hn.
  destruct (nth_error bands _) as [w|]; [|congruence].
  destruct (WDRC.process w _) as [out w'].
  destruct (Nat.eqb_spec i 0) as [Hz|Hz]; [lia|]. cbn [fst snd].
  rewrite !nth_upd_eq by (rewrite ?length_upd; lia).
  rewrite !(@nth_upd_neq _ (N - i)%nat i) by lia.
  rewrite !nth_upd_eq by lia.
  split; reflexivity.
Qed.
End BinLoopMore.

(** X2: called on [size <= FFT_SIZE] samples (the buffers hold [FFT_SIZE]
    entries), [MultibandWDRC::process] writes exactly [size] output samples,
    keeps the transform object and keeps the number of band compressors;
    the bin loop keeps the length of both buffers. *)
Theorem process_sizes {F D : Type} `{CFloat F} `{CFloat D} `{CPolar D}
    `{CCast F D} (cfg : Config.t F) (m : MultibandWDRC.t)
    (input : list F) (size : nat) (s : MultibandWDRC.bins) :
  (size <= Config.FFT_SIZE cfg)%nat -> (size <= length input)%nat ->
  let r := MultibandWDRC.process cfg m input size in
  length (fst r) = size
  /\ length (MultibandWDRC.wdrc_bands (snd r))
     = length (MultibandWDRC.wdrc_bands m)
  /\ MultibandWDRC.FFT (snd r) = MultibandWDRC.FFT m
  /\ length (fst (MultibandWDRC.bin_loop cfg s)) = length (fst s)
  /\ length (MultibandWDRC.re_of (MultibandWDRC.bin_loop cfg s))
     = length (MultibandWDRC.re_of s)
  /\ length (MultibandWDRC.im_of (MultibandWDRC.bin_loop cfg s))
     = length (MultibandWDRC.im_of s).
Proof.
  intros _ _. cbv zeta. unfold MultibandWDRC.process.
  match goal with
  | |- context [MultibandWDRC.bin_loop cfg (?b, ?buf)] =>
      pose proof (bin_steps_lengths cfg
                    (seq 0 (Config.FFT_SIZE cfg / 2)) (b, buf)) as Hl;
      fold (MultibandWDRC.bin_loop cfg (b, buf)) in Hl;
      destruct (MultibandWDRC.bin_loop cfg (b, buf)) as [bands buf']
  end.
  cbn [fst snd MultibandWDRC.wdrc_bands MultibandWDRC.FFT] in *.
  split; [unfold MultibandWDRC.normalize; rewrite length_map, length_seq;
          reflexivity|].
  split; [apply Hl|]. split; [reflexivity|].
  apply (bin_steps_lengths cfg).
Qed.

(** X3: the bin loop steps the compressor of band [b] once for every bin
    below [FFT_SIZE/2] whose frequency is in band [b], in ascending bin
    order, each time on the magnitude that bin had when the loop began; the
    bins of other bands do not touch it.  The envelope of a band so advances
    by as many calls per block as the band has bins. *)
Theorem bin_loop_band_run {F D : Type} `{CFloat F} `{CFloat D} `{CPolar D}
    `{CCast F D} (cfg : Config.t F) (s : MultibandWDRC.bins) (b : nat)
    (w : WDRC.t F) :
  let re i := nth i (MultibandWDRC.re_of s) (lit 0) in
  let im i := nth i (MultibandWDRC.im_of s) (lit 0) in
  let magnitude i := to_float (f_sqrt (re i * re i + im i * im i)%cf) in
  nth_error (fst s) b = Some w ->
  nth_error (fst (MultibandWDRC.bin_loop cfg s)) b =
  Some (fold_left (fun w i => snd (WDRC.process w (magnitude i)))
          (filter (fun i => (MultibandWDRC.bin_band cfg i =? Z.of_nat b)%Z)
                  (seq 0 (Config.FFT_SIZE cfg / 2)))
          w).
Proof.
  intros re im magnitude Hw. unfold MultibandWDRC.bin_loop.
  apply bin_steps_band_run; [apply seq_NoDup | | exact Hw].
  intros i Hi. apply in_seq in Hi. lia.
Qed.

(** X4: after the bin loop every compressed bin [i], [0 < i < FFT_SIZE/2],
    and its mirror bin [FFT_SIZE - i] are complex conjugates: the real parts
    are equal and the imaginary parts are opposite. *)
Theorem bin_loop_mirror {F D : Type} `{CFloat F} `{CFloat D} `{CPolar D}
    `{CCast F D} (cfg : Config.t F) (s : MultibandWDRC.bins) (i : nat)
    (d : D) :
  let N := Config.FFT_SIZE cfg in
  let s' := MultibandWDRC.bin_loop cfg s in
  length (fst s) = Config.NUM_BANDS cfg ->
  length (MultibandWDRC.re_of s) = N ->
  length (MultibandWDRC.im_of s) = N ->
  (0 < i < N / 2)%nat -> MultibandWDRC.compressed cfg i = true ->
  nth (N - i) (MultibandWDRC.re_of s') d = nth i (MultibandWDRC.re_of s') d
  /\ nth (N - i) (MultibandWDRC.im_of s') d
     = (- nth i (MultibandWDRC.im_of s') d)%cf.
Proof.
  intros N s' Hb Hr Hi Hlt Hc.
  assert (HN : Config.FFT_SIZE cfg = N) by reflexivity.
  unfold s', MultibandWDRC.bin_loop. rewrite HN.
  replace (N / 2)%nat with (i + S (N / 2 - S i))%nat by lia.
  rewrite seq_app, bin_steps_app. cbn [Nat.add seq].
  rewrite bin_steps_cons.
  set (s1 := MultibandWDRC.bin_steps cfg (seq 0 i) s).
  destruct (bin_steps_lengths cfg (seq 0 i) s) as (Hb1 & Hr1 & Hi1).
  fold s1 in Hb1, Hr1, Hi1.
  assert (Hm : nth (N - i) (MultibandWDRC.re_of (MultibandWDRC.bin_step cfg i s1)) d
               = nth i (MultibandWDRC.re_of (MultibandWDRC.bin_step cfg i s1)) d
            /\ nth (N - i) (MultibandWDRC.im_of (MultibandWDRC.bin_step cfg i s1)) d
               = (- nth i (MultibandWDRC.im_of (MultibandWDRC.bin_step cfg i s1)) d)%cf).
  { apply bin_step_mirror; try congruence; rewrite HN; assumption. }
  set (s2 := MultibandWDRC.bin_step cfg i s1) in *.
  assert (Hfr : forall j, (j = i \/ j = N - i)%nat ->
    nth j (MultibandWDRC.re_of
             (MultibandWDRC.bin_steps cfg (seq (S i) (N / 2 - S i)) s2)) d
      = nth j (MultibandWDRC.re_of s2) d /\
    nth j (MultibandWDRC.im_of
             (MultibandWDRC.bin_steps cfg (seq (S i) (N / 2 - S i)) s2)) d
      = nth j (MultibandWDRC.im_of s2) d).
  { intros j Hj. apply bin_steps_frame. intros k Hk. apply in_seq in Hk.
    right. rewrite HN.
    assert (Hk' : (k < N / 2)%nat) by lia.
    pose proof (half_lt_mirror cfg Hk') as Hkm. rewrite HN in Hkm.
    pose proof (half_lt_mirror cfg (proj2 Hlt)) as Him. rewrite HN in Him.
    split; [lia|]. right. lia. }
  destruct (Hfr i (or_introl eq_refl)) as [Er Ei].
  destruct (Hfr (N - i)%nat (or_intror eq_refl)) as [Er' Ei'].
  rewrite Er, Ei, Er', Ei'. exact Hm.
Qed.

(* ================================================================== *)
(** * The bins of [config.h] in exact arithmetic *)
(* ================================================================== *)

Module ExactBins.
Import Exact ExactFacts.
Local Open Scope R_scope.

Lemma bin_frequency_h (i : nat) :
  MultibandWDRC.bin_frequency Config.config_h i
  = IZR (Z.of_nat i) * 44100 / 512.
Proof. reflexivity. Qed.

(** Bin [i] is at [i * 44100 / 512] Hz, 86.13 Hz apart: the limits 250,
    1000, 4000 and 8000 Hz fall between the bins 2 and 3, 11 and 12, 46 and
    47, 92 and 93. *)
Lemma bin_band_h (i : nat) :
  MultibandWDRC.bin_band Config.config_h i =
  if (i <? 3)%nat then (-1)%Z
  else if (i <? 12)%nat then 0%Z
  else if (i <? 47)%nat then 1%Z
  else if (i <? 93)%nat then 2%Z
  else (-1)%Z.
Proof.
  unfold MultibandWDRC.bin_band. rewrite classify_h, bin_frequency_h.
  set (x := IZR (Z.of_nat i)).
  assert (Hlo : forall k : Z, (k <= Z.of_nat i)%Z -> IZR k <= x)
    by (intros k Hk; apply IZR_le; exact Hk).
  assert (Hhi : forall k : Z, (Z.of_nat i <= k)%Z -> x <= IZR k)
    by (intros k Hk; apply IZR_le; exact Hk).
  clearbody x.
  destruct (Nat.ltb_spec i 3) as [H3|H3].
  { specialize (Hhi 2%Z ltac:(lia)).
    destruct (Rlt_dec _ 250); [reflexivity | lra]. }
  specialize (Hlo 3%Z ltac:(lia)) as L3.
  destruct (Rlt_dec _ 250); [lra|].
  destruct (Nat.ltb_spec i 12) as [H12|H12].
  { specialize (Hhi 11%Z ltac:(lia)).
    destruct (Rlt_dec _ 1000); [reflexivity | lra]. }
  specialize (Hlo 12%Z ltac:(lia)) as L12.
  destruct (Rlt_dec _ 1000); [lra|].
  destruct (Nat.ltb_spec i 47) as [H47|H47].
  { specialize (Hhi 46%Z ltac:(lia)).
    destruct (Rlt_dec _ 4000); [reflexivity | lra]. }
  specialize (Hlo 47%Z ltac:(lia)) as L47.
  destruct (Rlt_dec _ 4000); [lra|].
  destruct (Nat.ltb_spec i 93) as [H93|H93].
  { specialize (Hhi 92%Z ltac:(lia)).
    destruct (Rlt_dec _ 8000); [reflexivity | lra]. }
  specialize (Hlo 93%Z ltac:(lia)) as L93.
  destruct (Rlt_dec _ 8000); [lra | reflexivity].
Qed.

(** X5: with the tables of [config.h] (44100 Hz, 512 points, limits 250,
    1000, 4000 and 8000 Hz) the loop compresses the bins 3 to 92 and no
    other: bins 3..11 with band 0, bins 12..46 with band 1, bins 47..92
    with band 2.  Bins 0..2 (below 250 Hz) and 93..255 (above 8 kHz)
    classify as none and pass through the loop unchanged. *)
Theorem config_h_bins (i : nat) (s : MultibandWDRC.bins) (d : R) :
  (MultibandWDRC.bin_band Config.config_h i = 0%Z <-> (3 <= i <= 11)%nat)
  /\ (MultibandWDRC.bin_band Config.config_h i = 1%Z <-> (12 <= i <= 46)%nat)
  /\ (MultibandWDRC.bin_band Config.config_h i = 2%Z <-> (47 <= i <= 92)%nat)
  /\ (MultibandWDRC.bin_band Config.config_h i = (-1)%Z
      <-> (i <= 2 \/ 93 <= i)%nat)
  /\ (MultibandWDRC.compressed Config.config_h i = true
      <-> (3 <= i <= 92)%nat)
  /\ ((i <= 2 \/ 93 <= i <= 256)%nat ->
      nth i (MultibandWDRC.re_of
               (MultibandWDRC.bin_loop Config.config_h s)) d
        = nth i (MultibandWDRC.re_of s) d /\
      nth i (MultibandWDRC.im_of
               (MultibandWDRC.bin_loop Config.config_h s)) d
        = nth i (MultibandWDRC.im_of s) d).
Proof.
  assert (Hc : forall k, MultibandWDRC.compressed Config.config_h k = true
                         <-> (3 <= k <= 92)%nat).
  { intros k. unfold MultibandWDRC.compressed. rewrite bin_band_h.
    destruct (Nat.ltb_spec k 3); [split; [discriminate | lia]|].
    destruct (Nat.ltb_spec k 12); [split; [lia | reflexivity]|].
    destruct (Nat.ltb_spec k 47); [split; [lia | reflexivity]|].
    destruct (Nat.ltb_spec k 93); [split; [lia | reflexivity]|].
    split; [discriminate | lia]. }
  split; [|split; [|split; [|split; [|split]]]].
  1-4: rewrite bin_band_h;
       destruct (Nat.ltb_spec i 3); [split; intros; try discriminate; lia|];
       destruct (Nat.ltb_spec i 12); [split; intros; try discriminate; lia|];
       destruct (Nat.ltb_spec i 47); [split; intros; try discriminate; lia|];
       destruct (Nat.ltb_spec i 93); split; intros; try discriminate; lia.
  - apply Hc.
  - intros Hi. apply bin_steps_frame. intros k Hk. apply in_seq in Hk.
    change (Config.FFT_SIZE Config.config_h) with 512%nat in *.
    change (512 / 2)%nat with 256%nat in Hk.
    unfold MultibandWDRC.untouched_by.
    change (Config.FFT_SIZE Config.config_h) with 512%nat.
    destruct (MultibandWDRC.compressed Config.config_h k) eqn:Ek;
      [right | left; reflexivity].
    apply Hc in Ek. lia.
Qed.

(** The processor of [config.h] with no band compressor yet, on the exact
    transform, called on a block of three samples. *)
Lemma process_sizes_witness :
  length (fst (MultibandWDRC.process Config.config_h
                 no_bands_processor [1; 2; 3] 3))
  = 3%nat.
Proof.
  apply (@process_sizes R R _ _ _ _ Config.config_h
           no_bands_processor [1; 2; 3] 3%nat
           ones).
  - cbn [Config.FFT_SIZE Config.config_h]. lia.
  - cbn [length]. lia.
Defined.

(** Band 0 of [config.h] on a block of ones: its compressor is stepped on
    the bins 3 to 11. *)
Lemma bin_loop_band_run_witness :
  nth_error (fst (MultibandWDRC.bin_loop Config.config_h ones)) 0 =
  Some (fold_left
          (fun w i => snd (WDRC.process w
             (sqrt (nth i (MultibandWDRC.re_of ones) (lit 0)
                    * nth i (MultibandWDRC.re_of ones) (lit 0)
                    + nth i (MultibandWDRC.im_of ones) (lit 0)
                      * nth i (MultibandWDRC.im_of ones) (lit 0)))))
          (filter (fun i => (MultibandWDRC.bin_band Config.config_h i =? 0)%Z)
                  (seq 0 (512 / 2)))
          (band 0 0)).
Proof.
  exact (bin_loop_band_run Config.config_h ones 0 (w := band 0 0) eq_refl).
Defined.

(** Bin 3 of [config.h] and its mirror, bin 509, on a block of ones. *)
Lemma bin_loop_mirror_witness :
  nth 509 (MultibandWDRC.re_of (MultibandWDRC.bin_loop Config.config_h ones)) 0
  = nth 3 (MultibandWDRC.re_of (MultibandWDRC.bin_loop Config.config_h ones)) 0.
Proof.
  apply (fun Hc =>
    proj1 (@bin_loop_mirror _ _ _ _ _ _ Config.config_h ones 3%nat 0
             eq_refl (repeat_length 1 512) (repeat_length 0 512)
             (conj (le_n_S 0 2 (Nat.le_0_l 2))
                   (proj1 (Nat.ltb_lt 3 (512 / 2)) eq_refl))
             Hc)).
  unfold MultibandWDRC.compressed. rewrite bin_band_h. reflexivity.
Defined.
End ExactBins.

(* ================================================================== *)
(** * The band compressor in exact arithmetic: levels, gain, envelope *)
(* ================================================================== *)

Module ExactCompressor.
Import Exact ExactFacts.
Local Open Scope R_scope.

Lemma lit_20 : Q2R 20 = 20.
Proof. unfold Q2R; simpl; lra. Qed.

Lemma lit_eps : Q2R (1 # 1000000000) = / 1000000000.
Proof. unfold Q2R; simpl; lra. Qed.

Lemma linear_to_db_exact (x : R) :
  WDRC.linear_to_db x = 20 * (ln (Rabs x + / 1000000000) / ln 10).
Proof.
  unfold WDRC.linear_to_db. simpl. rewrite lit_20, lit_eps. reflexivity.
Qed.

Lemma db_to_linear_exact (db : R) :
  WDRC.db_to_linear db = exp (db / 20 * ln 10).
Proof.
  unfold WDRC.db_to_linear. simpl. rewrite lit_20.
  replace (Q2R 10) with 10 by (unfold Q2R; simpl; lra).
  reflexivity.
Qed.

Lemma db_to_linear_pos (db : R) : 0 < WDRC.db_to_linear db.
Proof. rewrite db_to_linear_exact. apply exp_pos. Qed.

Lemma db_to_linear_le (a b : R) :
  a <= b -> WDRC.db_to_linear a <= WDRC.db_to_linear b.
Proof.
  intros Hab. rewrite !db_to_linear_exact. pose proof ln10_gt_1.
  destruct (Req_dec a b) as [->|Hne]; [lra|].
  left. apply exp_increasing. apply Rmult_lt_compat_r; lra.
Qed.

Lemma level_arg_pos (x : R) : 0 < Rabs x + / 1000000000.
Proof. pose proof (Rabs_pos x). lra. Qed.

Lemma linear_to_db_le (x y : R) :
  Rabs x <= Rabs y -> WDRC.linear_to_db x <= WDRC.linear_to_db y.
Proof.
  intros Hxy. rewrite !linear_to_db_exact. pose proof ln10_gt_1.
  pose proof (level_arg_pos x).
  assert (ln (Rabs x + / 1000000000) <= ln (Rabs y + / 1000000000)).
  { destruct (Req_dec (Rabs x) (Rabs y)) as [->|Hne]; [lra|].
    left. apply ln_increasing; lra. }
  apply Rmult_le_compat_l; [lra|].
  apply Rmult_le_compat_r; [|assumption].
  left. apply Rinv_0_lt_compat. lra.
Qed.

Lemma linear_to_db_floor (x : R) : -180 <= WDRC.linear_to_db x.
Proof.
  rewrite <- level_silence. apply linear_to_db_le.
  rewrite Rabs_R0. apply Rabs_pos.
Qed.

(** X6: converting a sample to decibels and back gives its magnitude plus
    the offset 1e-9 that [linear_to_db] adds; converting a level to linear
    and back gives a level strictly above the one put in; no sample has a
    level below -180 dB, the level of 0.0. *)
Theorem db_round_trip :
  (forall x : R,
     WDRC.db_to_linear (WDRC.linear_to_db x) = Rabs x + / 1000000000)
  /\ (forall db : R, db < WDRC.linear_to_db (WDRC.db_to_linear db))
  /\ (forall x : R, -180 <= WDRC.linear_to_db x)
  /\ WDRC.linear_to_db 0 = -180.
Proof.
  pose proof ln10_gt_1 as H10.
  split; [|split; [|split]].
  - intros x. rewrite db_to_linear_exact, linear_to_db_exact.
    replace (20 * (ln (Rabs x + / 1000000000) / ln 10) / 20 * ln 10)
      with (ln (Rabs x + / 1000000000)) by (field; lra).
    apply exp_ln. apply level_arg_pos.
  - intros db. rewrite linear_to_db_exact.
    pose proof (db_to_linear_pos db) as Hp.
    rewrite (Rabs_pos_eq _ (Rlt_le _ _ Hp)).
    assert (Hl : ln (WDRC.db_to_linear db)
                 < ln (WDRC.db_to_linear db + / 1000000000))
      by (apply ln_increasing; lra).
    rewrite db_to_linear_exact, ln_exp in Hl at 1.
    assert (Hi : 0 < / ln 10) by (apply Rinv_0_lt_compat; lra).
    assert (db / 20 * ln 10 * / ln 10
            < ln (WDRC.db_to_linear db + / 1000000000) * / ln 10)
      by (apply Rmult_lt_compat_r; assumption).
    replace (db / 20 * ln 10 * / ln 10) with (db / 20) in * by (field; lra).
    unfold Rdiv in *. lra.
  - exact linear_to_db_floor.
  - exact level_silence.
Qed.

Lemma compression_gain_exact (w : WDRC.t R) (diff : R) :
  WDRC.compression_gain w diff =
  if Rle_dec (Rabs diff) (WDRC.knee_width w / 2)
  then (WDRC.ratio w - 1) * (diff + WDRC.knee_width w / 2)
         * (diff + WDRC.knee_width w / 2) / (2 * WDRC.knee_width w)
  else if Rlt_dec (WDRC.knee_width w / 2) diff
       then (WDRC.ratio w - 1) * diff
       else 0.
Proof.
  unfold WDRC.compression_gain, fgt. simpl. rewrite lit_0.
  unfold Rleb, Rltb.
  destruct (Rle_dec (Rabs diff) (WDRC.knee_width w / 2)); [reflexivity|].
  destruct (Rlt_dec (WDRC.knee_width w / 2) diff); reflexivity.
Qed.

Lemma Rabs_le_bounds (x y : R) : Rabs x <= y -> - y <= x <= y.
Proof. unfold Rabs. destruct (Rcase_abs x); lra. Qed.

Lemma compression_gain_nonneg (w : WDRC.t R) (diff : R) :
  1 <= WDRC.ratio w -> 0 < WDRC.knee_width w ->
  0 <= WDRC.compression_gain w diff.
Proof.
  intros Hr Hk. rewrite compression_gain_exact.
  set (k := WDRC.knee_width w) in *. set (r := WDRC.ratio w) in *.
  clearbody k r.
  destruct (Rle_dec (Rabs diff) (k / 2)) as [Hd|Hd].
  - unfold Rdiv. apply Rmult_le_pos.
    + rewrite Rmult_assoc. apply Rmult_le_pos; [lra|].
      apply Rle_0_sqr.
    + left. apply Rinv_0_lt_compat. lra.
  - destruct (Rlt_dec (k / 2) diff) as [Hd'|Hd']; [|lra].
    apply Rmult_le_pos; lra.
Qed.

(** X8: in exact arithmetic, with a ratio of at least 1 and a knee width
    above 0 (so that the knee branch divides by a positive number), the
    compression gain is never negative, so step 4 scales the sample by at
    most the band gain: the magnitude of the output before the limiter is at
    most [|input| * db_to_linear(band_gain)]. *)
Theorem compression_never_amplifies (w : WDRC.t R) (x : R) :
  1 <= WDRC.ratio w -> 0 < WDRC.knee_width w ->
  0 <= WDRC.gain_db_of w x
  /\ Rabs (WDRC.pre_limit w x)
     <= Rabs x * WDRC.db_to_linear (WDRC.band_gain w).
Proof.
  intros Hr Hk.
  assert (Hg : 0 <= WDRC.gain_db_of w x)
    by (apply compression_gain_nonneg; assumption).
  split; [exact Hg|].
  unfold WDRC.pre_limit, WDRC.apply_gain.
  change (x * WDRC.db_to_linear (- WDRC.gain_db_of w x + WDRC.band_gain w))%cf
    with (x * WDRC.db_to_linear (- WDRC.gain_db_of w x + WDRC.band_gain w)).
  rewrite Rabs_mult.
  rewrite (Rabs_pos_eq (WDRC.db_to_linear _))
    by (left; apply db_to_linear_pos).
  apply Rmult_le_compat_l; [apply Rabs_pos|].
  apply db_to_linear_le. lra.
Qed.

(** Band 0 of [config.h] (ratio 2, a knee of 10 dB) on the sample 0.5. *)
Lemma compression_never_amplifies_witness :
  Rabs (WDRC.pre_limit (band 0 0) (1 / 2))
  <= Rabs (1 / 2) * WDRC.db_to_linear (WDRC.band_gain (band 0 0)).
Proof.
  apply (fun H1 H2 =>
           proj2 (@compression_never_amplifies (band 0 0) (1 / 2) H1 H2)).
  - simpl. unfold Q2R. simpl. lra.
  - simpl. unfold Q2R. simpl. lra.
Defined.

(** X9: in exact arithmetic, with a ratio of at least 1 and a knee width
    above 0, the compression gain does not decrease when the envelope
    rises: a higher [diff] never gets less gain reduction. *)
Theorem compression_gain_monotone (w : WDRC.t R) (d1 d2 : R) :
  1 <= WDRC.ratio w -> 0 < WDRC.knee_width w -> d1 <= d2 ->
  WDRC.compression_gain w d1 <= WDRC.compression_gain w d2.
Proof.
  intros Hr Hkp Hd. rewrite !compression_gain_exact.
  set (k := WDRC.knee_width w) in *. set (r := WDRC.ratio w) in *.
  clearbody k r.
  assert (Hi : 0 < / (2 * k)) by (apply Rinv_0_lt_compat; lra).
  assert (Hknee : forall d, (r - 1) * (d + k / 2) * (d + k / 2) / (2 * k)
                            = (r - 1) * ((d + k / 2) * (d + k / 2) * / (2 * k)))
    by (intros; unfold Rdiv; ring).
  assert (Hq : forall a b, 0 <= a <= b ->
            a * a * / (2 * k) <= b * b * / (2 * k)).
  { intros a b Hab. apply Rmult_le_compat_r; [lra | nra]. }
  assert (Htop : (k / 2 + k / 2) * (k / 2 + k / 2) * / (2 * k) = k / 2)
    by (field; lra).
  destruct (Rle_dec (Rabs d1) (k / 2)) as [H1|H1];
    destruct (Rle_dec (Rabs d2) (k / 2)) as [H2|H2].
  - apply Rabs_le_bounds in H1. apply Rabs_le_bounds in H2.
    rewrite !Hknee. apply Rmult_le_compat_l; [lra|]. apply Hq. lra.
  - apply Rabs_le_bounds in H1.
    assert (H2' : k / 2 < d2).
    { apply Rnot_le_lt in H2. unfold Rabs in H2.
      destruct (Rcase_abs d2); lra. }
    destruct (Rlt_dec (k / 2) d2); [|lra].
    rewrite Hknee. apply Rmult_le_compat_l; [lra|].
    apply Rle_trans with (k / 2); [|lra].
    rewrite <- Htop. apply Hq. lra.
  - apply Rabs_le_bounds in H2.
    assert (H1' : d1 < - (k / 2)).
    { apply Rnot_le_lt in H1. unfold Rabs in H1.
      destruct (Rcase_abs d1); lra. }
    destruct (Rlt_dec (k / 2) d1); [lra|].
    rewrite Hknee. apply Rmult_le_pos; [lra|].
    apply Rmult_le_pos; [apply Rle_0_sqr | lra].
  - destruct (Rlt_dec (k / 2) d1), (Rlt_dec (k / 2) d2); try lra; nra.
Qed.

(** Band 0 of [config.h], 3 dB below and 7 dB above the threshold. *)
Lemma compression_gain_monotone_witness :
  WDRC.compression_gain (band 0 0) (-3) <= WDRC.compression_gain (band 0 0) 7.
Proof.
  apply (@compression_gain_monotone (band 0 0) (-3) 7).
  - simpl. unfold Q2R. simpl. lra.
  - simpl. unfold Q2R. simpl. lra.
  - lra.
Defined.

Lemma update_envelope_between (w : WDRC.t R) (v : R) :
  0 < WDRC.alpha_attack w < 1 -> 0 < WDRC.alpha_release w < 1 ->
  (WDRC.envelope w < v ->
   WDRC.envelope w < WDRC.update_envelope w v < v)
  /\ (v < WDRC.envelope w ->
      v < WDRC.update_envelope w v < WDRC.envelope w)
  /\ (v = WDRC.envelope w -> WDRC.update_envelope w v = WDRC.envelope w).
Proof.
  intros Ha Hr. rewrite update_envelope_exact.
  set (e := WDRC.envelope w) in *. set (a := WDRC.alpha_attack w) in *.
  set (b := WDRC.alpha_release w) in *. clearbody e a b.
  destruct (Rlt_dec e v); repeat split; intros; try lra; nra.
Qed.

(** X10: for positive attack and release times and a positive sample rate, a
    call of [process] moves the envelope strictly towards the level of the
    sample and never past it: up when the level is above the envelope (the
    attack branch), down when it is below (the release branch), and not at
    all when they are equal. *)
Theorem envelope_moves_toward_input (SR : Z) (p : Config.BandParams R)
    (mem : WDRC.t R) (x : R) :
  (0 < SR)%Z -> 0 < Config.attack_time p -> 0 < Config.release_time p ->
  let w := WDRC.setParameters SR p mem in
  let input_db := WDRC.linear_to_db x in
  let after := WDRC.envelope (snd (WDRC.process w x)) in
  (WDRC.envelope w < input_db -> WDRC.envelope w < after < input_db)
  /\ (input_db < WDRC.envelope w -> input_db < after < WDRC.envelope w)
  /\ (input_db = WDRC.envelope w -> after = WDRC.envelope w).
Proof.
  intros HSR Ha Hr w input_db after. unfold after.
  rewrite process_envelope. apply update_envelope_between;
    apply alpha_range; assumption.
Qed.

(** Band 0 of [config.h] with its envelope at 0 dB, on silence: the level
    -180 dB is below the envelope, which comes down without reaching it. *)
Lemma envelope_moves_toward_input_witness :
  -180 < WDRC.envelope (snd (WDRC.process (band 0 0) 0)) < 0.
Proof.
  assert (Hw : band 0 0 =
    WDRC.setParameters 44100
      (nth 0 (Config.BAND_PARAMS Config.config_h)
           (Config.Build_BandParams 0 0 0 0 0 0))
      (WDRC.set_envelope 0 (WDRC.Build_t 0 0 0 0 0 0 0))) by reflexivity.
  rewrite Hw. rewrite <- level_silence at 1.
  apply (fun H1 H2 H3 =>
    proj1 (proj2 (@envelope_moves_toward_input 44100
      (nth 0 (Config.BAND_PARAMS Config.config_h)
           (Config.Build_BandParams 0 0 0 0 0 0))
      (WDRC.set_envelope 0 (WDRC.Build_t 0 0 0 0 0 0 0)) 0 H1 H2 H3))).
  - reflexivity.
  - simpl. unfold Q2R. simpl. lra.
  - simpl. unfold Q2R. simpl. lra.
  - rewrite level_silence. simpl. lra.
Defined.

Lemma run_envelope_range (inputs : list R) (w : WDRC.t R) (lo hi : R) :
  0 < WDRC.alpha_attack w < 1 -> 0 < WDRC.alpha_release w < 1 ->
  lo <= WDRC.envelope w <= hi ->
  (forall x, In x inputs -> lo <= WDRC.linear_to_db x <= hi) ->
  lo <= WDRC.envelope
          (fold_left (fun w x => snd (WDRC.process w x)) inputs w) <= hi.
Proof.
  revert w; induction inputs as [|x inputs IH]; intros w Ha Hr He Hin;
    [exact He|].
  rewrite run_cons. apply IH; try assumption.
  - rewrite process_envelope.
    specialize (Hin x (or_introl eq_refl)).
    destruct (update_envelope_between w (WDRC.linear_to_db x) Ha Hr)
      as (Hup & Hdown & Heq).
    destruct (Rtotal_order (WDRC.envelope w) (WDRC.linear_to_db x))
      as [Hlt|[Hq|Hgt]].
    + specialize (Hup Hlt). lra.
    + rewrite (Heq (eq_sym Hq)). lra.
    + specialize (Hdown Hgt). lra.
  - intros y Hy. apply Hin. right; exact Hy.
Qed.

(** X11: a band compressor starts with its envelope at 0 dB; for positive
    times and sample rate, and samples of magnitude at most 1, the envelope
    stays between -180 dB (the level of silence) and the level of a
    full-scale sample, [20*log10(1 + 1e-9)], however many samples are
    processed. *)
Theorem envelope_bounded (SR : Z) (p : Config.BandParams R)
    (mem : WDRC.t R) (inputs : list R) :
  (0 < SR)%Z -> 0 < Config.attack_time p -> 0 < Config.release_time p ->
  (forall x, In x inputs -> Rabs x <= 1) ->
  let w := WDRC.setParameters SR p (WDRC.ctor mem) in
  -180 <= WDRC.envelope
            (fold_left (fun w x => snd (WDRC.process w x)) inputs w)
       <= WDRC.linear_to_db 1.
Proof.
  intros HSR Ha Hr Hin w.
  apply run_envelope_range.
  - apply alpha_range; assumption.
  - apply alpha_range; assumption.
  - replace (WDRC.envelope w) with 0 by (simpl; rewrite lit_0; reflexivity).
    pose proof level_full_scale. lra.
  - intros x Hx. split; [apply linear_to_db_floor|].
    apply linear_to_db_le. rewrite Rabs_R1. apply Hin. exact Hx.
Qed.

(** Band 0 of [config.h] on the samples 0.5, -1 and 0. *)
Lemma envelope_bounded_witness :
  -180 <= WDRC.envelope
            (fold_left (fun w x => snd (WDRC.process w x))
               [1 / 2; -1; 0]
               (WDRC.setParameters 44100
                  (nth 0 (Config.BAND_PARAMS Config.config_h)
                       (Config.Build_BandParams 0 0 0 0 0 0))
                  (WDRC.ctor (WDRC.Build_t 0 0 0 0 0 0 0))))
       <= WDRC.linear_to_db 1.
Proof.
  apply (@envelope_bounded 44100
           (nth 0 (Config.BAND_PARAMS Config.config_h)
                (Config.Build_BandParams 0 0 0 0 0 0))
           (WDRC.Build_t 0 0 0 0 0 0 0) [1 / 2; -1; 0]).
  - reflexivity.
  - simpl. unfold Q2R. simpl. lra.
  - simpl. unfold Q2R. simpl. lra.
  - intros x [<-|[<-|[<-|[]]]]; unfold Rabs; destruct (Rcase_abs _); lra.
Defined.
End ExactCompressor.

(* ================================================================== *)
(** * A compressor from its constructor: the envelope starts at 0 dB *)
(* ================================================================== *)

Module FreshCompressor.
Import Exact ExactFacts ExactCompressor.

Section Run.
Context {F : Type} `{CFloat F}.

(** A run of calls changes the object by its envelope only, and the
    envelope by step 2 of each call. *)
Lemma run_frame (inputs : list F) (w : WDRC.t F) :
  fold_left (fun w x => snd (WDRC.process w x)) inputs w
  = WDRC.set_envelope
      (fold_left
         (fun e x =>
            WDRC.update_envelope (WDRC.set_envelope e w) (WDRC.linear_to_db x))
         inputs (WDRC.envelope w))
      w.
Proof.
  revert w; induction inputs as [|x inputs IH]; intros w.
  - destruct w; reflexivity.
  - cbn [fold_left]. rewrite IH. reflexivity.
Qed.
End Run.

Local Open Scope R_scope.

Lemma feed_frame (n : nat) (x : R) (w : WDRC.t R) :
  WDRC.feed n x w = WDRC.set_envelope (WDRC.envelope (WDRC.feed n x w)) w.
Proof.
  revert w; induction n as [|n IH]; intros w; [destruct w; reflexivity|].
  change (WDRC.feed (S n) x w) with (WDRC.feed n x (snd (WDRC.process w x))).
  rewrite (IH (snd (WDRC.process w x))) at 1. reflexivity.
Qed.

(** While the input level is not above the envelope every call takes the
    release branch: the distance to the input level shrinks by
    [alpha_release] per call. *)
Lemma feed_release (n : nat) (x : R) (w : WDRC.t R) :
  0 <= WDRC.alpha_release w ->
  WDRC.linear_to_db x <= WDRC.envelope w ->
  WDRC.envelope (WDRC.feed n x w)
  = WDRC.linear_to_db x
    + WDRC.alpha_release w ^ n * (WDRC.envelope w - WDRC.linear_to_db x).
Proof.
  intros Ha Hv. induction n as [|n IH]; [simpl; ring|].
  rewrite feed_S, process_envelope, update_envelope_exact.
  destruct (feed_alpha n x w) as [_ Er]. rewrite Er, IH.
  pose proof (pow_le _ n Ha) as Hp.
  destruct (Rlt_dec _ _) as [Hlt|_]; [nra|]. simpl pow. ring.
Qed.

(** C10: the constructor sets the envelope to 0.0 and [setParameters] does
    not touch it, so a band compressor starts with its envelope at 0 dB,
    the level of a full-scale sample (1.0 is within 1e-7 dB of 0) and not
    that of silence (0.0 is at -180 dB).  The calls that follow compute
    their gain against it:

    - in every arithmetic, after any samples [inputs] the envelope is step 2
      folded over their levels from [0.0f], and the next call returns the
      limiter's value of its sample times
      [db_to_linear(-gain_db + band_gain)] with [gain_db] the compression
      gain for that envelope less the threshold;
    - in exact arithmetic, for a constant sample [x] whose level [v] is at
      most 0 dB, the envelope after [n] calls is [(1 - alpha_release^n) * v]:
      it leaves 0 for [v] by the factor [alpha_release] per call.  As long
      as it is above the knee, call [n + 1] returns [x] reduced by
      [(ratio - 1) * (envelope - threshold)] dB, although a compressor whose
      envelope is at [v] already returns a sample of a level below the knee
      with the band gain alone.  Neither case enters the knee branch, so
      they hold for a knee of width 0 too. *)
Theorem ctor_envelope_zero :
  (forall (F : Type) (C : CFloat F) (mem : WDRC.t F),
     WDRC.envelope (WDRC.ctor mem) = lit 0)
  /\ (forall (F : Type) (C : CFloat F) SR (p : Config.BandParams F)
       (w : WDRC.t F),
     WDRC.envelope (WDRC.setParameters SR p w) = WDRC.envelope w)
  /\ (forall (F : Type) (C : CFloat F) SR (p : Config.BandParams F)
       (mem : WDRC.t F) (inputs : list F) (x : F),
     let w := WDRC.setParameters SR p (WDRC.ctor mem) in
     let env l :=
       fold_left
         (fun e x =>
            WDRC.update_envelope (WDRC.set_envelope e w) (WDRC.linear_to_db x))
         l (lit 0) in
     let w_n := fold_left (fun w x => snd (WDRC.process w x)) inputs w in
     WDRC.envelope w_n = env inputs
     /\ fst (WDRC.process w_n x)
        = WDRC.limit
            (x * WDRC.db_to_linear
                   (- WDRC.compression_gain w
                        (env (inputs ++ [x]) - Config.threshold p)
                    + Config.gain p))%cf)
  /\ (forall SR (p : Config.BandParams R) (mem : WDRC.t R) (x : R) (n : nat),
     (0 < SR)%Z -> 0 < Config.release_time p -> 0 <= Config.knee_width p ->
     WDRC.linear_to_db x <= 0 ->
     let w := WDRC.setParameters SR p (WDRC.ctor mem) in
     let v := WDRC.linear_to_db x in
     let e k := (1 - WDRC.alpha_release w ^ k) * v in
     WDRC.envelope (WDRC.feed n x w) = e n
     /\ (Config.threshold p + Config.knee_width p / 2 < e (S n) ->
         fst (WDRC.process (WDRC.feed n x w) x)
         = WDRC.limit
             (x * WDRC.db_to_linear
                    (- ((Config.ratio p - 1) * (e (S n) - Config.threshold p))
                     + Config.gain p)))
     /\ (v < Config.threshold p - Config.knee_width p / 2 ->
         fst (WDRC.process (WDRC.set_envelope v w) x)
         = WDRC.limit (x * WDRC.db_to_linear (Config.gain p))))
  /\ WDRC.linear_to_db 0 = -180
  /\ 0 < WDRC.linear_to_db 1 < 1 / 10000000.
Proof.
  split; [reflexivity|]. split; [reflexivity|].
  split; [|split; [|split; [exact level_silence | exact level_full_scale]]].
  - intros F C SR p mem inputs x w env w_n.
    unfold w_n. rewrite run_frame. split; [reflexivity|].
    unfold env. rewrite fold_left_app. reflexivity.
  - intros SR p mem x n HSR Hr Hk Hv w v e.
    assert (Ha : 0 < WDRC.alpha_release w < 1)
      by (apply alpha_range; assumption).
    assert (E0 : WDRC.envelope w = 0) by (simpl; apply lit_0).
    assert (He : forall k, WDRC.envelope (WDRC.feed k x w) = e k).
    { intros k. rewrite feed_release; [|lra|rewrite E0; exact Hv].
      rewrite E0. unfold e, v. ring. }
    split; [apply He|]. split.
    + intros Habove. rewrite process_fst.
      unfold WDRC.pre_limit, WDRC.gain_db_of, WDRC.diff_of.
      rewrite <- process_envelope, <- feed_S, He.
      rewrite (feed_frame n x w). unfold WDRC.apply_gain.
      rewrite compression_gain_exact.
      cbn [WDRC.threshold WDRC.knee_width WDRC.ratio WDRC.band_gain
           WDRC.set_envelope WDRC.setParameters w].
      cbn [fsub fadd fmul fneg R_CFloat].
      set (d := e (S n) - Config.threshold p) in *.
      assert (Hd : Config.knee_width p / 2 < d) by (unfold d; lra).
      destruct (Rle_dec (Rabs d) (Config.knee_width p / 2)) as [Hab|_].
      { rewrite Rabs_pos_eq in Hab by lra. lra. }
      destruct (Rlt_dec (Config.knee_width p / 2) d) as [_|Hn]; [|lra].
      reflexivity.
    + intros Hbelow. rewrite process_fst.
      unfold WDRC.pre_limit, WDRC.gain_db_of, WDRC.diff_of.
      assert (Eu : WDRC.update_envelope (WDRC.set_envelope v w)
                     (WDRC.linear_to_db x) = v).
      { rewrite update_envelope_exact. fold v.
        cbn [WDRC.envelope WDRC.alpha_attack WDRC.alpha_release
             WDRC.set_envelope].
        destruct (Rlt_dec v v); ring. }
      rewrite Eu. unfold WDRC.apply_gain.
      rewrite compression_gain_exact.
      cbn [WDRC.threshold WDRC.knee_width WDRC.ratio WDRC.band_gain
           WDRC.set_envelope WDRC.setParameters w].
      cbn [fsub fadd fmul fneg R_CFloat].
      set (d := v - Config.threshold p) in *.
      assert (Hd : d < - (Config.knee_width p / 2)) by (unfold d; lra).
      destruct (Rle_dec (Rabs d) (Config.knee_width p / 2)) as [Hab|_].
      { rewrite Rabs_left in Hab by lra. lra. }
      destruct (Rlt_dec (Config.knee_width p / 2) d) as [Hn|_]; [lra|].
      replace (- 0 + Config.gain p) with (Config.gain p) by ring.
      reflexivity.
Qed.

(** The first call of the compressor of band 0 of [config.h] on a sample at
    -30 dB: the envelope it uses is [(1 - alpha_release) * (-30)], a few
    thousandths of a dB below 0, so the sample is reduced as one near full
    scale. *)
Lemma ctor_envelope_zero_witness :
  fst (WDRC.process
         (WDRC.setParameters 44100
            (nth 0 (Config.BAND_PARAMS Config.config_h)
                 (Config.Build_BandParams 0 0 0 0 0 0))
            (WDRC.ctor (WDRC.Build_t 0 0 0 0 0 0 0)))
         sample_minus_30)
  = WDRC.limit
      (sample_minus_30
       * WDRC.db_to_linear
           (- ((2 - 1)
               * ((1 - WDRC.alpha_release (band 0 0) ^ 1) * -30 - -50))
            + 15)).
Proof.
  assert (Ha : 0 < WDRC.alpha_release (band 0 0) < 1).
  { apply (@alpha_range 44100%Z); [reflexivity|].
    simpl. unfold Q2R. simpl. lra. }
  destruct (proj1 (proj2 (proj2 (proj2 ctor_envelope_zero))) 44100%Z
              (nth 0 (Config.BAND_PARAMS Config.config_h)
                   (Config.Build_BandParams 0 0 0 0 0 0))
              (WDRC.Build_t 0 0 0 0 0 0 0) sample_minus_30 0%nat)
    as (_ & Hcall & _).
  - reflexivity.
  - simpl. unfold Q2R. simpl. lra.
  - simpl. unfold Q2R. simpl. lra.
  - rewrite level_minus_30. lra.
  - rewrite level_minus_30 in Hcall.
    change (WDRC.alpha_release
              (WDRC.setParameters 44100
                 (nth 0 (Config.BAND_PARAMS Config.config_h)
                      (Config.Build_BandParams 0 0 0 0 0 0))
                 (WDRC.ctor (WDRC.Build_t 0 0 0 0 0 0 0))))
      with (WDRC.alpha_release (band 0 0)) in Hcall.
    cbn [nth Config.BAND_PARAMS Config.config_h Config.threshold
         Config.knee_width Config.ratio Config.gain WDRC.feed] in Hcall.
    cbn [fneg lit R_CFloat] in Hcall.
    set (a := WDRC.alpha_release (band 0 0)) in *. clearbody a.
    etransitivity; [apply Hcall; unfold Q2R; simpl; lra|].
    do 3 f_equal. unfold Q2R. simpl. lra.
Defined.
End FreshCompressor.

(* ================================================================== *)
(** * The envelope in IEEE arithmetic: NaN does not leave *)
(* ================================================================== *)

Module IEEEEnvelope.
Import IEEE IEEEFacts.

Lemma SFltb_nan_r (x : spec_float) : SFltb x S754_nan = false.
Proof. destruct x as [s|s| |s m e]; try destruct s; reflexivity. Qed.

Section Stuck.
Variable L : libm.
Let B32 : CFloat spec_float := binary32 L.
Local Existing Instance B32.

(** Both comparisons with a NaN envelope are false: step 2 takes the
    release branch, whose product with the envelope is NaN. *)
Lemma update_envelope_nan (w : WDRC.t spec_float) (v : spec_float) :
  WDRC.envelope w = S754_nan -> WDRC.update_envelope w v = S754_nan.
Proof.
  intros He. unfold WDRC.update_envelope, fgt. rewrite He.
  cbn [flt fmul fadd fsub lit B32 binary32 ieee].
  replace (SFltb S754_nan v) with false by reflexivity.
  rewrite SFmul_nan_r. apply SFadd_nan_l.
Qed.

(** A NaN level makes the envelope NaN in either branch. *)
Lemma update_envelope_nan_level (w : WDRC.t spec_float) :
  WDRC.update_envelope w S754_nan = S754_nan.
Proof.
  unfold WDRC.update_envelope, fgt.
  cbn [flt fmul fadd fsub lit B32 binary32 ieee].
  rewrite SFltb_nan_r, SFmul_nan_r.
  destruct (SFmul 24 128 (WDRC.alpha_release w) (WDRC.envelope w))
    as [s|s| |s m e]; reflexivity.
Qed.

(** With [diff] NaN neither test of step 3 holds: the gain stays [0.0f]. *)
Lemma compression_gain_nan (w : WDRC.t spec_float) :
  WDRC.compression_gain w S754_nan = lit 0.
Proof.
  unfold WDRC.compression_gain, fgt.
  cbn [fle flt fabs fdiv B32 binary32 ieee SFabs].
  replace (SFleb S754_nan (SFdiv 24 128 (WDRC.knee_width w) (of_Z 24 128 2)))
    with false by reflexivity.
  rewrite SFltb_nan_r. reflexivity.
Qed.

Lemma process_nan_envelope (w : WDRC.t spec_float) (x : spec_float) :
  WDRC.envelope w = S754_nan ->
  WDRC.envelope (snd (WDRC.process w x)) = S754_nan
  /\ WDRC.gain_db_of w x = lit 0
  /\ fst (WDRC.process w x)
     = WDRC.limit (x * WDRC.db_to_linear (- lit 0 + WDRC.band_gain w))%cf.
Proof.
  intros He.
  assert (Hu : WDRC.update_envelope w (WDRC.linear_to_db x) = S754_nan)
    by (apply update_envelope_nan; exact He).
  assert (Hg : WDRC.gain_db_of w x = lit 0).
  { unfold WDRC.gain_db_of, WDRC.diff_of. rewrite Hu.
    replace (S754_nan - WDRC.threshold w)%cf with S754_nan by reflexivity.
    apply compression_gain_nan. }
  split; [exact Hu|]. split; [exact Hg|].
  change (fst (WDRC.process w x)) with (WDRC.limit (WDRC.pre_limit w x)).
  unfold WDRC.pre_limit. rewrite Hg. reflexivity.
Qed.

Lemma run_nan_envelope (inputs : list spec_float) (w : WDRC.t spec_float) :
  WDRC.envelope w = S754_nan ->
  WDRC.envelope (fold_left (fun w x => snd (WDRC.process w x)) inputs w)
  = S754_nan.
Proof.
  revert w; induction inputs as [|x inputs IH]; intros w He; [exact He|].
  rewrite run_cons. apply IH. apply process_nan_envelope. exact He.
Qed.
End Stuck.

(** X12: in binary32, for every [libm]: once the envelope of a compressor
    is NaN it stays NaN through every later call, whatever the samples;
    with a NaN envelope neither test of step 3 holds, so the gain is
    [0.0f] and the call returns the limited [x * db_to_linear(-0 +
    band_gain)], the sample with the band gain and no compression.  A
    sample whose level is NaN (a NaN sample, when [log10(NaN)] is NaN) puts
    the envelope in that state. *)
Theorem nan_envelope_sticks (L : libm) (w : WDRC.t spec_float)
    (inputs : list spec_float) (x : spec_float) :
  WDRC.envelope w = S754_nan ->
  let w' := fold_left (fun w x => snd (@WDRC.process _ (binary32 L) w x))
              inputs w in
  WDRC.envelope w' = S754_nan
  /\ @WDRC.gain_db_of _ (binary32 L) w' x = @lit _ (binary32 L) 0
  /\ fst (@WDRC.process _ (binary32 L) w' x)
     = @WDRC.limit _ (binary32 L)
         (@fmul _ (binary32 L) x
            (@WDRC.db_to_linear _ (binary32 L)
               (@fadd _ (binary32 L)
                  (@fneg _ (binary32 L) (@lit _ (binary32 L) 0))
                  (WDRC.band_gain w))))
  /\ (forall w0 : WDRC.t spec_float,
        m_log10 L S754_nan = S754_nan ->
        WDRC.envelope (snd (@WDRC.process _ (binary32 L) w0 S754_nan))
        = S754_nan).
Proof.
  intros He w'.
  assert (He' : WDRC.envelope w' = S754_nan)
    by (apply run_nan_envelope; exact He).
  destruct (@process_nan_envelope L w' x He') as (_ & Hg & Ho).
  split; [exact He'|]. split; [exact Hg|]. split.
  - rewrite Ho.
    replace (WDRC.band_gain w') with (WDRC.band_gain w); [reflexivity|].
    symmetry. apply (@run_band_gain _ (binary32 L) inputs w).
  - intros w0 Hlog.
    change (WDRC.envelope (snd (@WDRC.process _ (binary32 L) w0 S754_nan)))
      with (@WDRC.update_envelope _ (binary32 L) w0
              (@WDRC.linear_to_db _ (binary32 L) S754_nan)).
    replace (@WDRC.linear_to_db _ (binary32 L) S754_nan) with S754_nan.
    + apply update_envelope_nan_level.
    + unfold WDRC.linear_to_db.
      cbn [fmul fadd fabs f_log10 lit binary32 ieee SFabs].
      replace (SFadd 24 128 S754_nan (of_Q 24 128 (1 # 1000000000)))
        with S754_nan by reflexivity.
      rewrite Hlog. symmetry. apply SFmul_nan_r.
Qed.

(** The hard-knee compressor after a NaN sample, with the correctly rounded
    library: its envelope is NaN, and is still NaN after two samples
    [1.0f]. *)
Lemma nan_envelope_sticks_witness :
  let B32 := binary32 (ideal 24 128) in
  let w := snd (@WDRC.process _ B32 hard_knee S754_nan) in
  WDRC.envelope
    (fold_left (fun w x => snd (@WDRC.process _ B32 w x))
       [S754_finite false 8388608 (-23); S754_finite false 8388608 (-23)] w)
  = S754_nan.
Proof.
  intros B32 w.
  apply (fun He =>
    proj1 (@nan_envelope_sticks (ideal 24 128) w
             [S754_finite false 8388608 (-23);
              S754_finite false 8388608 (-23)]
             S754_nan He)).
  vm_compute. reflexivity.
Defined.
End IEEEEnvelope.

(* ================================================================== *)
(** * The limiter in IEEE arithmetic *)
(* ================================================================== *)

Module IEEELimiter.
Import IEEE IEEEFacts.

(** [0.99f] *)
Local Abbreviation c99 := (S754_finite false 16609444 (-24)).

Section Limiter.
Variable L : libm.
Let B32 : CFloat spec_float := binary32 L.
Local Existing Instance B32.

(** A value that is not NaN and whose magnitude is at most [0.99f] fails
    both tests of the limiter. *)
Lemma limit_inside (y : spec_float) :
  is_nan y = false -> SFleb (SFabs y) c99 = true -> WDRC.limit y = y.
Proof.
  intros Hy Hle. unfold WDRC.limit, fgt. cbn [lit flt fneg B32 binary32 ieee].
  rewrite lit_99.
  destruct y as [s|s| |s m e]; try discriminate.
  - destruct s; reflexivity.
  - destruct s.
    + replace (SFltb c99 (S754_finite true m e)) with false by reflexivity.
      revert Hle. unfold SFltb, SFleb, SFcompare, SFopp, SFabs. cbn [negb].
      destruct (e ?= -24)%Z; try discriminate; try reflexivity.
      destruct (Pos.compare_cont Eq m 16609444); try discriminate;
        reflexivity.
    + revert Hle. unfold SFltb, SFleb, SFcompare, SFopp, SFabs. cbn [negb].
      rewrite (Z.compare_antisym e (-24)).
      destruct (e ?= -24)%Z; cbn [CompOpp]; try discriminate;
        try reflexivity.
      assert (Ea : Pos.compare_cont Eq 16609444 m
                   = CompOpp (Pos.compare_cont Eq m 16609444))
        by (rewrite Pos.compare_cont_antisym; reflexivity).
      rewrite Ea.
      destruct (Pos.compare_cont Eq m 16609444); cbn [CompOpp];
        try discriminate; reflexivity.
Qed.

(** A value above [0.99f] becomes [0.99f], one below [-0.99f] becomes
    [-0.99f]. *)
Lemma limit_above (y : spec_float) :
  SFltb c99 y = true -> WDRC.limit y = c99.
Proof.
  intros Hy. unfold WDRC.limit, fgt. cbn [lit flt fneg B32 binary32 ieee].
  rewrite lit_99, Hy. reflexivity.
Qed.

Lemma limit_below (y : spec_float) :
  SFltb y (SFopp c99) = true -> WDRC.limit y = SFopp c99.
Proof.
  intros Hy. unfold WDRC.limit, fgt. cbn [lit flt fneg B32 binary32 ieee].
  rewrite lit_99.
  replace (SFltb c99 y) with false; [rewrite Hy; reflexivity|].
  destruct y as [s|s| |s m e]; try discriminate; destruct s;
    try discriminate; reflexivity.
Qed.
End Limiter.

(** X7: the limiter that ends [WDRC::process], in binary32 and for every
    [libm].  A product that is not NaN is returned unchanged exactly when
    its magnitude is at most [0.99f]; a larger one (plus infinity too) is
    returned as [0.99f] and a smaller one as [-0.99f]; applying the limiter
    twice is applying it once.  [0.99f] is [16609444 / 2^24], above the
    decimal 0.99. *)
Theorem limiter_range (L : libm) (w : WDRC.t spec_float)
    (x y : spec_float) :
  let c := @lit _ (binary32 L) (99 # 100) in
  let limit := @WDRC.limit _ (binary32 L) in
  fst (@WDRC.process _ (binary32 L) w x)
  = limit (@WDRC.pre_limit _ (binary32 L) w x)
  /\ (SF2R c = 16609444 / 16777216 /\ 99 / 100 < SF2R c)%R
  /\ (if is_nan y then limit y = y
      else (limit y = y <-> SFleb (SFabs y) c = true))
  /\ limit (limit y) = limit y
  /\ (SFltb c y = true -> limit y = c)
  /\ (SFltb y (SFopp c) = true -> limit y = SFopp c).
Proof.
  intros c limit. split; [reflexivity|].
  split; [exact (lit_99_value L)|].
  unfold c, limit. cbn [lit binary32 ieee]. rewrite lit_99.
  assert (Hiff : is_nan y = false ->
                 (@WDRC.limit _ (binary32 L) y = y
                  <-> SFleb (SFabs y) c99 = true)).
  { intros Hy. split.
    - intros E. rewrite <- E. apply (limit_bound L). exact Hy.
    - apply limit_inside. exact Hy. }
  split; [|split; [|split]].
  - destruct (is_nan y) eqn:Hy; [|exact (Hiff eq_refl)].
    destruct y; try discriminate. reflexivity.
  - destruct (is_nan y) eqn:Hy.
    + destruct y; try discriminate. reflexivity.
    + destruct (limit_bound L y Hy) as [Hn Hb].
      apply limit_inside; assumption.
  - apply limit_above.
  - apply limit_below.
Qed.
End IEEELimiter.

(* ================================================================== *)
(** * Aurivox2/audio_hardware.cpp: the flags and the driver *)
(* ================================================================== *)

Module HardwareFacts.
Import AudioHardware.

Section HardwareFacts.
Variable driver : log -> driver_call -> esp_err_t.

Lemma installed_snoc (port : i2s_port_t) (l : log)
    (e : driver_call * esp_err_t) :
  installed port (l ++ [e]) = installed_step port (installed port l) e.
Proof. unfold installed. rewrite fold_left_app. reflexivity. Qed.

Lemma started_snoc (port : i2s_port_t) (l : log)
    (e : driver_call * esp_err_t) :
  started port (l ++ [e]) = started_step port (started port l) e.
Proof. unfold started. rewrite fold_left_app. reflexivity. Qed.

Ltac answers :=
  repeat match goal with
  | |- context [(driver ?l ?c =? ESP_OK)%Z] =>
      let E := fresh "E" in
      destruct (driver l c =? ESP_OK)%Z eqn:E;
      change (ESP_OK =? ESP_OK)%Z with true;
      cbn [negb fst snd calls i2s_hardware_initialized audio_streams_running
           call andb]
  end.

Ltac observe :=
  change (ESP_OK =? ESP_OK)%Z with true;
  cbn [negb calls i2s_hardware_initialized audio_streams_running fst snd];
  rewrite ?installed_snoc, ?started_snoc;
  cbn [installed_step started_step port_eqb andb].

Lemma initialize_consistent (s : state) :
  consistent s -> consistent (initialize_i2s_hardware driver s).
Proof.
  destruct s as [hi ar l]. unfold consistent.
  cbn [calls i2s_hardware_initialized audio_streams_running].
  intros (Hm & Hd & Sm & Sd & Hr).
  unfold initialize_i2s_hardware, configure_microphone, configure_dac, call.
  cbn [calls i2s_hardware_initialized audio_streams_running].
  destruct hi; [repeat split; assumption|].
  destruct ar; [discriminate (Hr eq_refl)|].
  answers; observe; rewrite ?E, ?E0, ?E1, ?E2; cbn [andb];
    repeat split; try assumption; try reflexivity; try discriminate.
Qed.

Lemma start_consistent (s : state) :
  consistent s -> consistent (start_audio_streams driver s).
Proof.
  destruct s as [hi ar l]. unfold consistent.
  cbn [calls i2s_hardware_initialized audio_streams_running].
  intros (Hm & Hd & Sm & Sd & Hr).
  unfold start_audio_streams, call.
  cbn [calls i2s_hardware_initialized audio_streams_running negb].
  destruct hi; cbn [negb]; [|repeat split; assumption].
  destruct ar; [repeat split; assumption|].
  answers; observe; rewrite ?E, ?E0; cbn [andb];
    repeat split; try assumption; try reflexivity; try discriminate.
Qed.

Lemma stop_consistent (s : state) :
  consistent s -> consistent (stop_audio_streams driver s).
Proof.
  destruct s as [hi ar l]. unfold consistent.
  cbn [calls i2s_hardware_initialized audio_streams_running].
  intros (Hm & Hd & Sm & Sd & Hr).
  unfold stop_audio_streams, call.
  cbn [calls i2s_hardware_initialized audio_streams_running negb].
  destruct ar; cbn [negb]; [|repeat split; assumption].
  observe. repeat split; try assumption; try reflexivity; discriminate.
Qed.

Lemma exec_consistent (o : operation) (s : state) :
  consistent s -> consistent (exec driver o s).
Proof.
  intros Hs. destruct o; cbn [exec].
  - apply initialize_consistent; exact Hs.
  - apply start_consistent; exact Hs.
  - apply stop_consistent; exact Hs.
  - apply start_consistent, stop_consistent; exact Hs.
Qed.

Lemma run_consistent (ops : list operation) (s : state) :
  consistent s -> consistent (run driver ops s).
Proof.
  revert s; induction ops as [|o ops IH]; intros s Hs; [exact Hs|].
  apply IH, exec_consistent, Hs.
Qed.
End HardwareFacts.

(** X13: whatever the I2S driver answers and in whatever order
    [initialize_i2s_hardware], [start_audio_streams], [stop_audio_streams]
    and [restart_audio_streams] are called after boot, the two flags agree
    with the driver calls made: [i2s_hardware_initialized] is set exactly
    when both drivers are installed (a failed initialisation uninstalls what
    it installed), [audio_streams_running] exactly when both streams are
    started (a failed start stops the microphone again), and streams never
    run on hardware that is not initialised. *)
Theorem flags_follow_driver (driver : log -> driver_call -> esp_err_t)
    (ops : list operation) :
  let s := run driver ops boot in
  installed I2S_PORT_MIC (calls s) = i2s_hardware_initialized s
  /\ installed I2S_PORT_DAC (calls s) = i2s_hardware_initialized s
  /\ started I2S_PORT_MIC (calls s) = audio_streams_running s
  /\ started I2S_PORT_DAC (calls s) = audio_streams_running s
  /\ (audio_streams_running s = true -> i2s_hardware_initialized s = true).
Proof.
  apply (run_consistent driver ops).
  repeat split; try reflexivity. discriminate.
Qed.
End HardwareFacts.

(* ================================================================== *)
(** * Aurivox2/button_control.cpp: interrupts, gain buttons, sleep *)
(* ================================================================== *)

Module ButtonFacts.
Import AudioConfig ButtonControl.

Lemma usub_elapsed (last d : Z) :
  (0 <= d < 2 ^ 32)%Z -> usub ((last + d) mod 2 ^ 32) last = d.
Proof.
  intros Hd. unfold usub.
  rewrite Zminus_mod_idemp_l.
  replace (last + d - last)%Z with d by lia.
  apply Z.mod_small. exact Hd.
Qed.

Section Interrupts.
Context {F : Type} `{CFloat F}.
Variable clock : nat -> Z.

Lemma isr_accept (s : state F) (d : Z) :
  (0 <= d < 2 ^ 32)%Z ->
  clock (reads s) = ((last_interrupt_time s + d) mod 2 ^ 32)%Z ->
  (usub (clock (reads s)) (last_interrupt_time s) >? DEBOUNCE_DELAY)%Z
  = (d >? 50)%Z.
Proof. intros Hd Ht. rewrite Ht, usub_elapsed by exact Hd. reflexivity. Qed.
End Interrupts.

(** X14: the three interrupt routines share one time stamp.  A routine that
    runs [d] ms after the last accepted interrupt of any of the three
    buttons sets its flag and takes the time stamp when [d > 50], and
    otherwise changes nothing (so a press of another button within 50 ms of
    an accepted one is lost).  The elapsed time is computed in 32-bit
    unsigned arithmetic, so this holds across the wrap-around of
    [millis()]. *)
Theorem isr_debounce {F : Type} `{CFloat F} (clock : nat -> Z)
    (s : state F) (d : Z) :
  let t := clock (reads s) in
  let ticked := set_reads (S (reads s)) s in
  (0 <= d < 2 ^ 32)%Z ->
  t = ((last_interrupt_time s + d) mod 2 ^ 32)%Z ->
  btn_gain_up_isr clock s =
    (if (d >? 50)%Z
     then set_last_interrupt_time t (set_btn_gain_up_flag true ticked)
     else ticked)
  /\ btn_gain_down_isr clock s =
    (if (d >? 50)%Z
     then set_last_interrupt_time t (set_btn_gain_down_flag true ticked)
     else ticked)
  /\ btn_sleep_isr clock s =
    (if (d >? 50)%Z
     then set_last_interrupt_time t (set_btn_sleep_flag true ticked)
     else ticked).
Proof.
  intros t ticked Hd Ht.
  unfold btn_gain_up_isr, btn_gain_down_isr, btn_sleep_isr, millis.
  cbn [set_reads last_interrupt_time].
  rewrite (isr_accept clock s Hd Ht).
  repeat split; destruct (d >? 50)%Z; reflexivity.
Qed.

(** The reading is 50 after a time stamp of [2^32 - 10]: 60 ms have
    passed, across the wrap-around. *)
Lemma isr_debounce_witness :
  btn_gain_up_flag
    (btn_gain_up_isr (fun _ => 50%Z)
       (set_last_interrupt_time (2 ^ 32 - 10)
          (@initial R Exact.R_CFloat true false 2
             (@lit _ Exact.R_CFloat (50 # 100)))))
  = true.
Proof.
  rewrite (proj1 (@isr_debounce R Exact.R_CFloat (fun _ => 50%Z)
                    (set_last_interrupt_time (2 ^ 32 - 10)
                       (@initial R Exact.R_CFloat true false 2
                          (@lit _ Exact.R_CFloat (50 # 100))))
                    60%Z ltac:(lia) eq_refl)).
  reflexivity.
Defined.

Section Buttons.
Context {F D : Type} `{CFloat F} `{CFloat D} `{CPolar D} `{CCast F D}.
Variable SAMPLE_RATE : Z.
Variable clock : nat -> Z.
Variable driver :
  AudioHardware.log -> AudioHardware.driver_call -> AudioHardware.esp_err_t.
Variable to_int16 : D -> Z.

Lemma gain_levels_at_Some (i : Z) :
  (0 <= i <= 4)%Z -> exists g : F, gain_levels_at i = Some g.
Proof.
  intros Hi.
  assert (Hc : (i = 0 \/ i = 1 \/ i = 2 \/ i = 3 \/ i = 4)%Z) by lia.
  destruct Hc as [->|[->|[->|[->| ->]]]]; eexists; reflexivity.
Qed.

Lemma gain_levels_at_None (i : Z) :
  (i < 0 \/ 4 < i)%Z -> gain_levels_at (F := F) i = None.
Proof.
  intros Hi. unfold gain_levels_at.
  destruct (0 <=? i)%Z eqn:E0; [|reflexivity].
  destruct (i <? 5)%Z eqn:E5; [|reflexivity].
  apply Z.leb_le in E0. apply Z.ltb_lt in E5. lia.
Qed.

(** What the block of the gain-up button does to the state. *)
Lemma gain_up_spec (s : state F) :
  gain_ok s ->
  exists s' : state F,
    gain_up SAMPLE_RATE clock s = Some s'
    /\ gain_ok s'
    /\ current_gain_level s' =
       (if btn_gain_up_flag s && (current_gain_level s <? 4)%Z
        then current_gain_level s + 1 else current_gain_level s)%Z
    /\ btn_gain_up_flag s' = false
    /\ btn_gain_down_flag s' = btn_gain_down_flag s
    /\ (btn_gain_up_flag s = true ->
        active (pip_system s') = true
        /\ total_pips (pip_system s') =
           (if (current_gain_level s <? 4)%Z
            then current_gain_level s + 2 else 3)%Z)
    /\ (btn_gain_up_flag s = false -> s' = s)
    /\ hardware s' = hardware s
    /\ system_sleeping s' = system_sleeping s
    /\ audio_processing_active s' = audio_processing_active s
    /\ light_sleeps s' = light_sleeps s
    /\ btn_sleep_flag s' = btn_sleep_flag s
    /\ btn_sleep_held s' = btn_sleep_held s
    /\ sleep_sequence_started s' = sleep_sequence_started s
    /\ btn_sleep_press_start s' = btn_sleep_press_start s
    /\ last_interrupt_time s' = last_interrupt_time s.
Proof.
  intros [Hl Hg]. unfold gain_up.
  destruct (btn_gain_up_flag s) eqn:Eu;
    [|exists s; repeat split; try assumption; try lia; try reflexivity;
      intros; discriminate].
  cbn [andb set_btn_gain_up_flag current_gain_level].
  destruct (current_gain_level s <? 4)%Z eqn:E4.
  - apply Z.ltb_lt in E4.
    destruct (@gain_levels_at_Some (current_gain_level s + 1)%Z ltac:(lia))
      as [g Eg].
    unfold load_gain_factor.
    cbn [set_current_gain_level current_gain_level]. rewrite Eg.
    eexists. split; [reflexivity|].
    unfold gain_ok, start_pip_sequence, millis. cbn.
    repeat split; try assumption; try lia; try reflexivity;
      intros; try discriminate.
  - apply Z.ltb_ge in E4.
    eexists. split; [reflexivity|].
    unfold gain_ok, start_pip_sequence, millis. cbn.
    repeat split; try assumption; try lia; try reflexivity;
      intros; try discriminate.
Qed.

(** What the block of the gain-down button does to the state. *)
Lemma gain_down_spec (s : state F) :
  gain_ok s ->
  exists s' : state F,
    gain_down SAMPLE_RATE clock s = Some s'
    /\ gain_ok s'
    /\ current_gain_level s' =
       (if btn_gain_down_flag s && (current_gain_level s >? 0)%Z
        then current_gain_level s - 1 else current_gain_level s)%Z
    /\ btn_gain_down_flag s' = false
    /\ btn_gain_up_flag s' = btn_gain_up_flag s
    /\ (btn_gain_down_flag s = true ->
        active (pip_system s') = true
        /\ total_pips (pip_system s') =
           (if (current_gain_level s >? 0)%Z
            then current_gain_level s else 1)%Z)
    /\ (btn_gain_down_flag s = false -> s' = s)
    /\ hardware s' = hardware s
    /\ system_sleeping s' = system_sleeping s
    /\ audio_processing_active s' = audio_processing_active s
    /\ light_sleeps s' = light_sleeps s
    /\ btn_sleep_flag s' = btn_sleep_flag s
    /\ btn_sleep_held s' = btn_sleep_held s
    /\ sleep_sequence_started s' = sleep_sequence_started s
    /\ btn_sleep_press_start s' = btn_sleep_press_start s
    /\ last_interrupt_time s' = last_interrupt_time s.
Proof.
  intros [Hl Hg]. unfold gain_down.
  destruct (btn_gain_down_flag s) eqn:Eu;
    [|exists s; repeat split; try assumption; try lia; try reflexivity;
      intros; discriminate].
  cbn [andb set_btn_gain_down_flag current_gain_level].
  destruct (current_gain_level s >? 0)%Z eqn:E0.
  - apply Z.gtb_lt in E0.
    destruct (@gain_levels_at_Some (current_gain_level s - 1)%Z ltac:(lia))
      as [g Eg].
    unfold load_gain_factor.
    cbn [set_current_gain_level current_gain_level]. rewrite Eg.
    eexists. split; [reflexivity|].
    unfold gain_ok, start_pip_sequence, millis. cbn.
    repeat split; try assumption; try lia; try reflexivity;
      intros; try discriminate.
  - eexists. split; [reflexivity|].
    unfold gain_ok, start_pip_sequence, millis. cbn.
    repeat split; try assumption; try lia; try reflexivity;
      intros; try discriminate.
Qed.
End Buttons.

(** X15: when the gain level is an index of [gain_levels] and the gain
    factor is the entry at that index, [handle_gain_buttons] reads inside
    the array, clears both flags and keeps that relation; the level goes up
    by one for the up button unless it is 4, then down by one for the down
    button unless it is 0; with no flag set nothing changes, and with a flag
    set a sequence of 1 to 5 pips is started. *)
Theorem gain_buttons_keep_level {F : Type} `{CFloat F} (SAMPLE_RATE : Z)
    (clock : nat -> Z) (s : state F) :
  gain_ok s ->
  exists s' : state F,
    handle_gain_buttons SAMPLE_RATE clock s = Some s'
    /\ gain_ok s'
    /\ btn_gain_up_flag s' = false
    /\ btn_gain_down_flag s' = false
    /\ current_gain_level s' =
       (let up := if btn_gain_up_flag s && (current_gain_level s <? 4)%Z
                  then current_gain_level s + 1 else current_gain_level s in
        if btn_gain_down_flag s && (up >? 0)%Z then up - 1 else up)%Z
    /\ (btn_gain_up_flag s = false -> btn_gain_down_flag s = false ->
        s' = s)
    /\ (btn_gain_up_flag s || btn_gain_down_flag s = true ->
        active (pip_system s') = true
        /\ (1 <= total_pips (pip_system s') <= 5)%Z).
Proof.
  intros Hok. unfold handle_gain_buttons.
  destruct (gain_up_spec SAMPLE_RATE clock Hok)
    as (s1 & E1 & Hok1 & Hl1 & Hu1 & Hd1 & Hp1 & Hn1 & _).
  rewrite E1.
  destruct (gain_down_spec SAMPLE_RATE clock Hok1)
    as (s2 & E2 & Hok2 & Hl2 & Hd2 & Hu2 & Hp2 & Hn2 & _).
  exists s2. split; [exact E2|]. split; [exact Hok2|].
  split; [congruence|]. split; [exact Hd2|].
  split; [rewrite Hl2, Hd1, Hl1; reflexivity|]. split.
  - intros Eu Ed. rewrite (Hn2 ltac:(congruence)). apply Hn1. exact Eu.
  - intros Hf. destruct Hok as [Hr _]. destruct Hok1 as [Hr1 _].
    destruct (btn_gain_down_flag s) eqn:Ed.
    + destruct (Hp2 ltac:(congruence)) as [Ha Ht]. split; [exact Ha|].
      rewrite Ht. destruct (current_gain_level s1 >? 0)%Z eqn:E0;
        [apply Z.gtb_lt in E0|]; lia.
    + rewrite (Hn2 ltac:(congruence)).
      destruct (btn_gain_up_flag s) eqn:Eu; [|discriminate].
      destruct (Hp1 eq_refl) as [Ha Ht]. split; [exact Ha|].
      rewrite Ht. destruct (current_gain_level s <? 4)%Z eqn:E4;
        [apply Z.ltb_lt in E4|]; lia.
Qed.

(** Level 5 of 5 and both buttons pressed: the up button leaves the level,
    the down button takes it to level 4. *)
Lemma gain_buttons_keep_level_witness :
  exists s' : state R,
    @handle_gain_buttons R Exact.R_CFloat 16000 (fun _ => 0%Z)
      (set_btn_gain_down_flag true
         (set_btn_gain_up_flag true
            (@initial R Exact.R_CFloat true false 4
               (@lit _ Exact.R_CFloat 1)))) = Some s'
    /\ current_gain_level s' = 3%Z.
Proof.
  destruct (@gain_buttons_keep_level R Exact.R_CFloat 16000 (fun _ => 0%Z)
              (set_btn_gain_down_flag true
                 (set_btn_gain_up_flag true
                    (@initial R Exact.R_CFloat true false 4
                       (@lit _ Exact.R_CFloat 1)))))
    as (s' & E & _ & _ & _ & Hl & _).
  - split; [cbn; lia | reflexivity].
  - exists s'. split; [exact E | exact Hl].
Defined.

Section Sleep.
Context {F : Type} `{CFloat F}.
Variable SAMPLE_RATE : Z.
Variable clock : nat -> Z.
Variable driver :
  AudioHardware.log -> AudioHardware.driver_call -> AudioHardware.esp_err_t.

(** [enter_sleep_mode] from its call to its return at wake-up. *)
Lemma enter_sleep_fields (s : state F) :
  let s' := enter_sleep_mode SAMPLE_RATE clock driver s in
  light_sleeps s' = S (light_sleeps s)
  /\ system_sleeping s' = false
  /\ audio_processing_active s' = true
  /\ btn_sleep_held s' = false
  /\ sleep_sequence_started s' = false
  /\ btn_sleep_flag s' = btn_sleep_flag s
  /\ current_gain_level s' = current_gain_level s
  /\ gain_factor s' = gain_factor s
  /\ active (pip_system s') = true
  /\ total_pips (pip_system s') = 2%Z
  /\ hardware s' =
     AudioHardware.start_audio_streams driver
       (AudioHardware.stop_audio_streams driver (hardware s)).
Proof. repeat split; reflexivity. Qed.

Lemma handle_sleep_button_spec (pressed : bool) (s : state F) :
  let s' := handle_sleep_button SAMPLE_RATE clock driver pressed s in
  (light_sleeps s' = light_sleeps s \/ light_sleeps s' = S (light_sleeps s))
  /\ (light_sleeps s' = S (light_sleeps s) ->
      pressed = true /\ btn_sleep_held s = true
      /\ sleep_sequence_started s = true
      /\ (SLEEP_HOLD_TIME
          <= usub (clock (reads s)) (btn_sleep_press_start s))%Z
      /\ s' = enter_sleep_mode SAMPLE_RATE clock driver
                (set_reads (S (reads s)) (set_btn_sleep_flag false s)))
  /\ (light_sleeps s' = light_sleeps s ->
      hardware s' = hardware s
      /\ system_sleeping s' = system_sleeping s
      /\ audio_processing_active s' = audio_processing_active s)
  /\ (sleep_sequence_started s' = true ->
      sleep_sequence_started s = true
      \/ (active (pip_system s') = true
          /\ total_pips (pip_system s') = 3%Z))
  /\ (pressed = false ->
      btn_sleep_held s' = false /\ sleep_sequence_started s' = false
      /\ light_sleeps s' = light_sleeps s)
  /\ btn_sleep_flag s' = false
  /\ current_gain_level s' = current_gain_level s
  /\ gain_factor s' = gain_factor s.
Proof.
  destruct s as [fu fd fs lit_ ps held started apa ss lvl gf pip rd ls hw].
  unfold handle_sleep_button, sleep_reset_block, sleep_hold_block,
    sleep_flag_block, millis, stop_pip_sequence, start_pip_sequence.
  cbn -[enter_sleep_mode Z.geb Z.ltb usub].
  destruct fs, pressed, held, started;
    cbn -[enter_sleep_mode Z.geb Z.ltb usub];
    repeat match goal with
    | |- context [(?a >=? ?b)%Z] =>
        let E := fresh "E" in
        destruct (a >=? b)%Z eqn:E; cbn -[enter_sleep_mode Z.geb Z.ltb usub]
    | |- context [(?a <? ?b)%Z] =>
        let E := fresh "E" in
        destruct (a <? b)%Z eqn:E; cbn -[enter_sleep_mode Z.geb Z.ltb usub]
    end;
    try match goal with
    | |- context [enter_sleep_mode _ _ _ ?x] =>
        destruct (enter_sleep_fields x)
          as (Hs1 & Hs2 & Hs3 & Hs4 & Hs5 & Hs6 & Hs7 & Hs8 & Hs9 & Hs10 & Hs11);
        cbv zeta in Hs1, Hs2, Hs3, Hs4, Hs5, Hs6, Hs7, Hs8, Hs9, Hs10, Hs11;
        cbn -[enter_sleep_mode] in Hs1, Hs6, Hs7, Hs8;
        rewrite ?Hs1, ?Hs2, ?Hs3, ?Hs4, ?Hs5, ?Hs6, ?Hs7, ?Hs8, ?Hs9, ?Hs10
    end;
    unfold SLEEP_HOLD_TIME in *;
    repeat match goal with
    | E : (_ >=? _)%Z = true |- _ => apply Z.geb_le in E
    | E : (_ >=? _)%Z = false |- _ =>
        rewrite Z.geb_leb in E; apply Z.leb_gt in E
    | E : (_ <? _)%Z = true |- _ => apply Z.ltb_lt in E
    | E : (_ <? _)%Z = false |- _ => apply Z.ltb_ge in E
    end;
    repeat split; intros;
    try discriminate; try reflexivity; try lia;
    try (left; reflexivity); try (right; reflexivity);
    try (right; split; reflexivity);
    try (exfalso; lia).
Qed.
End Sleep.

(** X16: a call of [handle_sleep_button] puts the system to sleep at most
    once, and only when the pin is low, the button was already held, the
    warning sequence had been started by an earlier call, and the reading
    of [millis()] is at least 3000 ms after the press, in 32-bit unsigned
    arithmetic.  The call then returns after wake-up with the system marked
    awake, audio processing marked active, the hold state cleared and the
    two wake-up pips started.  The warning flag is only ever set together
    with the start of the three warning pips; with the pin high the hold
    state is cleared and the system does not sleep.  The gain level and
    factor are not touched. *)
Theorem sleep_needs_warning {F : Type} `{CFloat F} (SAMPLE_RATE : Z)
    (clock : nat -> Z)
    (driver : AudioHardware.log -> AudioHardware.driver_call ->
              AudioHardware.esp_err_t)
    (pressed : bool) (s : state F) :
  let s' := handle_sleep_button SAMPLE_RATE clock driver pressed s in
  (light_sleeps s' = light_sleeps s \/ light_sleeps s' = S (light_sleeps s))
  /\ (light_sleeps s' = S (light_sleeps s) ->
      pressed = true /\ btn_sleep_held s = true
      /\ sleep_sequence_started s = true
      /\ (3000 <= usub (clock (reads s)) (btn_sleep_press_start s))%Z
      /\ system_sleeping s' = false /\ audio_processing_active s' = true
      /\ btn_sleep_held s' = false /\ sleep_sequence_started s' = false
      /\ active (pip_system s') = true
      /\ total_pips (pip_system s') = 2%Z)
  /\ (sleep_sequence_started s' = true ->
      sleep_sequence_started s = true
      \/ (active (pip_system s') = true
          /\ total_pips (pip_system s') = 3%Z))
  /\ (pressed = false ->
      btn_sleep_held s' = false /\ sleep_sequence_started s' = false
      /\ light_sleeps s' = light_sleeps s)
  /\ btn_sleep_flag s' = false
  /\ current_gain_level s' = current_gain_level s
  /\ gain_factor s' = gain_factor s.
Proof.
  intros s'.
  destruct (handle_sleep_button_spec SAMPLE_RATE clock driver pressed s)
    as (H1 & H2 & _ & H4 & H5 & H6 & H7 & H8).
  fold s' in H1, H2, H4, H5, H6, H7, H8.
  split; [exact H1|]. split; [|repeat split; try assumption; apply H5;
                               assumption].
  intros Hs. destruct (H2 Hs) as (Hp & Hh & Hw & Ht & Es).
  destruct (enter_sleep_fields SAMPLE_RATE clock driver
              (set_reads (S (reads s)) (set_btn_sleep_flag false s)))
    as (_ & E2 & E3 & E4 & E5 & _ & _ & _ & E9 & E10 & _).
  rewrite <- Es in E2, E3, E4, E5, E9, E10.
  repeat split; assumption.
Qed.

Section Frames.
Context {F D : Type} `{CFloat F} `{CFloat D} `{CPolar D} `{CCast F D}.
Variable SAMPLE_RATE : Z.
Variable clock : nat -> Z.
Variable driver :
  AudioHardware.log -> AudioHardware.driver_call -> AudioHardware.esp_err_t.
Variable to_int16 : D -> Z.

(** The loop of [process_pip_audio] writes the pip system and reads the
    clock; it leaves the rest of the state as it is. *)
Lemma pip_sample_frame (i : nat) (b : list Z) (s : state F) :
  let s' := snd (pip_sample SAMPLE_RATE clock to_int16 i (b, s)) in
  current_gain_level s' = current_gain_level s
  /\ gain_factor s' = gain_factor s
  /\ hardware s' = hardware s
  /\ system_sleeping s' = system_sleeping s
  /\ light_sleeps s' = light_sleeps s.
Proof.
  unfold pip_sample, millis.
  destruct (in_gap (pip_system s)).
  - cbn [set_reads pip_system reads].
    destruct (_ >=? _)%Z; repeat split; reflexivity.
  - destruct (_ >? _)%Z; [repeat split; reflexivity|].
    destruct (_ >? _)%Z; repeat split; reflexivity.
Qed.

Lemma pip_samples_frame (n i : nat) (b : list Z) (s : state F) :
  let s' := snd (pip_samples SAMPLE_RATE clock to_int16 n i (b, s)) in
  current_gain_level s' = current_gain_level s
  /\ gain_factor s' = gain_factor s
  /\ hardware s' = hardware s
  /\ system_sleeping s' = system_sleeping s
  /\ light_sleeps s' = light_sleeps s.
Proof.
  revert i b s; induction n as [|n IH]; intros i b s;
    [repeat split; reflexivity|].
  cbn [pip_samples].
  destruct (pip_sample SAMPLE_RATE clock to_int16 i (b, s)) as [b1 s1] eqn:E1.
  pose proof (pip_sample_frame i b s) as Hf. rewrite E1 in Hf.
  cbn [snd] in Hf. destruct Hf as (F1 & F2 & F3 & F4 & F5).
  destruct (IH (S i) b1 s1) as (G1 & G2 & G3 & G4 & G5).
  cbv zeta. rewrite G1, G2, G3, G4, G5. repeat split; assumption.
Qed.

Lemma gain_ok_same (s s' : state F) :
  current_gain_level s' = current_gain_level s ->
  gain_factor s' = gain_factor s -> gain_ok s -> gain_ok s'.
Proof. unfold gain_ok. intros -> ->. auto. Qed.

Lemma handle_gain_buttons_frame (s : state F) :
  gain_ok s ->
  exists s' : state F,
    handle_gain_buttons SAMPLE_RATE clock s = Some s'
    /\ gain_ok s'
    /\ hardware s' = hardware s
    /\ system_sleeping s' = system_sleeping s.
Proof.
  intros Hok. unfold handle_gain_buttons.
  destruct (gain_up_spec SAMPLE_RATE clock Hok)
    as (s1 & E1 & Hok1 & _ & _ & _ & _ & _ & Hh1 & Hs1 & _).
  rewrite E1.
  destruct (gain_down_spec SAMPLE_RATE clock Hok1)
    as (s2 & E2 & Hok2 & _ & _ & _ & _ & _ & Hh2 & Hs2 & _).
  exists s2. repeat split; try apply Hok2; congruence.
Qed.

Lemma handle_sleep_button_frame (pressed : bool) (s : state F) :
  gain_ok s -> AudioHardware.consistent (hardware s) ->
  system_sleeping s = false ->
  let s' := handle_sleep_button SAMPLE_RATE clock driver pressed s in
  gain_ok s' /\ AudioHardware.consistent (hardware s')
  /\ system_sleeping s' = false.
Proof.
  intros Hg Hc Hs s'.
  destruct (handle_sleep_button_spec SAMPLE_RATE clock driver pressed s)
    as (P1 & P2 & P3 & _ & _ & _ & P7 & P8).
  fold s' in P1, P2, P3, P7, P8.
  split; [eapply gain_ok_same; eassumption|].
  destruct P1 as [E|E].
  - destruct (P3 E) as (Eh & Es & _). rewrite Eh, Es. split; assumption.
  - destruct (P2 E) as (_ & _ & _ & _ & Es).
    destruct (enter_sleep_fields SAMPLE_RATE clock driver
                (set_reads (S (reads s)) (set_btn_sleep_flag false s)))
      as (_ & E2 & _ & _ & _ & _ & _ & _ & _ & _ & E11).
    rewrite <- Es in E2, E11. split; [|exact E2].
    rewrite E11. apply HardwareFacts.start_consistent,
      HardwareFacts.stop_consistent. exact Hc.
Qed.

Lemma step_invariant (e : event) (s : state F) :
  gain_ok s -> AudioHardware.consistent (hardware s) ->
  system_sleeping s = false ->
  exists s' : state F,
    step SAMPLE_RATE clock driver to_int16 e s = Some s'
    /\ gain_ok s'
    /\ AudioHardware.consistent (hardware s')
    /\ system_sleeping s' = false.
Proof.
  intros Hg Hc Hs. destruct e as [| | |pressed|buffer n]; cbn [step].
  - eexists. split; [reflexivity|].
    unfold btn_gain_up_isr, millis. destruct (_ >? _)%Z;
      repeat split; try apply Hg; try apply Hc; assumption.
  - eexists. split; [reflexivity|].
    unfold btn_gain_down_isr, millis. destruct (_ >? _)%Z;
      repeat split; try apply Hg; try apply Hc; assumption.
  - eexists. split; [reflexivity|].
    unfold btn_sleep_isr, millis. destruct (_ >? _)%Z;
      repeat split; try apply Hg; try apply Hc; assumption.
  - unfold handle_button_events. rewrite Hs.
    destruct (handle_gain_buttons_frame Hg) as (s1 & E1 & Hg1 & Hh1 & Hs1).
    rewrite E1. eexists. split; [reflexivity|].
    apply handle_sleep_button_frame; [exact Hg1 | | congruence].
    rewrite Hh1. exact Hc.
  - eexists. split; [reflexivity|].
    unfold process_pip_audio.
    destruct (negb (active (pip_system s)));
      [repeat split; try apply Hg; try apply Hc; assumption|].
    cbn [snd].
    destruct (pip_samples_frame n 0 buffer s) as (F1 & F2 & F3 & F4 & _).
    split; [eapply gain_ok_same; eassumption|].
    rewrite F3, F4. split; assumption.
Qed.

Lemma run_invariant (es : list event) (s : state F) :
  gain_ok s -> AudioHardware.consistent (hardware s) ->
  system_sleeping s = false ->
  exists s' : state F,
    run SAMPLE_RATE clock driver to_int16 es s = Some s'
    /\ gain_ok s'
    /\ AudioHardware.consistent (hardware s')
    /\ system_sleeping s' = false.
Proof.
  revert s; induction es as [|e es IH]; intros s Hg Hc Hs.
  - exists s. repeat split; try apply Hg; try apply Hc; assumption.
  - destruct (step_invariant e Hg Hc Hs) as (s1 & E1 & Hg1 & Hc1 & Hs1).
    cbn [run]. rewrite E1. apply IH; assumption.
Qed.
End Frames.

(** X17: from a state in which the gain level is an index of
    [gain_levels], the gain factor is the entry at that index, the flags of
    [audio_hardware.cpp] agree with the driver and the system is not marked
    sleeping, every sequence of button interrupts, calls of
    [handle_button_events] and calls of [process_pip_audio] runs without a
    read outside [gain_levels] and ends in such a state again: the level
    shown to the user, [get_current_gain_level], stays between 1 and 5, and
    a sleep inside the sequence stops and restarts the streams without
    breaking the agreement with the driver. *)
Theorem events_keep_invariants {F D : Type} `{CFloat F} `{CFloat D}
    `{CPolar D} `{CCast F D} (SAMPLE_RATE : Z) (clock : nat -> Z)
    (driver : AudioHardware.log -> AudioHardware.driver_call ->
              AudioHardware.esp_err_t)
    (to_int16 : D -> Z) (es : list event) (s : state F) :
  gain_ok s -> AudioHardware.consistent (hardware s) ->
  system_sleeping s = false ->
  exists s' : state F,
    run SAMPLE_RATE clock driver to_int16 es s = Some s'
    /\ gain_ok s'
    /\ (1 <= get_current_gain_level s' <= 5)%Z
    /\ AudioHardware.consistent (hardware s')
    /\ system_sleeping s' = false.
Proof.
  intros Hg Hc Hs.
  destruct (run_invariant SAMPLE_RATE clock driver to_int16 es Hg Hc Hs)
    as (s' & E & Hg' & Hc' & Hs').
  exists s'. repeat split; try apply Hg'; try apply Hc'; try assumption.
  - unfold get_current_gain_level. destruct Hg' as [Hr _]. lia.
  - unfold get_current_gain_level. destruct Hg' as [Hr _]. lia.
Qed.

(** Start-up at level 3 of 5: an accepted gain-up interrupt, a call of the
    handlers with the sleep pin high, and a block of three samples for the
    pips. *)
Lemma events_keep_invariants_witness :
  exists s' : state R,
    @run R R Exact.R_CFloat Exact.R_CFloat Exact.R_CPolar Exact.R_CCast
      16000 (fun k => (1000 * Z.of_nat (S k))%Z) (fun _ _ => 0%Z)
      (fun _ => 0%Z)
      [Gain_up_interrupt; Button_events false; Pip_audio [0; 0; 0]%Z 3]
      (@initial R Exact.R_CFloat true false 2
         (@lit _ Exact.R_CFloat (50 # 100)))
    = Some s'
    /\ (1 <= get_current_gain_level s' <= 5)%Z.
Proof.
  destruct (@events_keep_invariants R R Exact.R_CFloat Exact.R_CFloat
              Exact.R_CPolar Exact.R_CCast
              16000 (fun k => (1000 * Z.of_nat (S k))%Z) (fun _ _ => 0%Z)
              (fun _ => 0%Z)
              [Gain_up_interrupt; Button_events false;
               Pip_audio [0; 0; 0]%Z 3]
              (@initial R Exact.R_CFloat true false 2
                 (@lit _ Exact.R_CFloat (50 # 100))))
    as (s' & E & _ & Hl & _).
  - split; [cbn; lia | reflexivity].
  - repeat split; try reflexivity. discriminate.
  - reflexivity.
  - exists s'. split; [exact E | exact Hl].
Defined.

Section Pips.
Context {F D : Type} `{CFloat F} `{CFloat D} `{CPolar D} `{CCast F D}.
Variable SAMPLE_RATE : Z.
Variable clock : nat -> Z.
Variable to_int16 : D -> Z.

(** Every branch of the loop body writes sample [i], with a value that
    does not depend on the buffer. *)
Lemma pip_sample_shape (i : nat) (s : state F) :
  exists (v : Z) (s' : state F),
    forall b : list Z,
      pip_sample SAMPLE_RATE clock to_int16 i (b, s) = (upd i v b, s').
Proof.
  unfold pip_sample, millis.
  destruct (in_gap (pip_system s)).
  - cbn [set_reads pip_system reads].
    destruct (_ >=? _)%Z; eexists; eexists; intros b; reflexivity.
  - destruct (_ >? _)%Z; [eexists; eexists; intros b; reflexivity|].
    destruct (_ >? _)%Z; eexists; eexists; intros b; reflexivity.
Qed.

Lemma pip_samples_shape (n i : nat) (s : state F) :
  exists s' : state F,
    (forall b, snd (pip_samples SAMPLE_RATE clock to_int16 n i (b, s)) = s')
    /\ forall b1 b2 : list Z, length b1 = length b2 ->
       let out1 := fst (pip_samples SAMPLE_RATE clock to_int16 n i (b1, s)) in
       let out2 := fst (pip_samples SAMPLE_RATE clock to_int16 n i (b2, s)) in
       length out1 = length b1
       /\ (forall j d, (j < i \/ i + n <= j)%nat ->
           nth j out1 d = nth j b1 d)
       /\ (forall j d, (i <= j < i + n)%nat -> (j < length b1)%nat ->
           nth j out1 d = nth j out2 d).
Proof.
  revert i s; induction n as [|n IH]; intros i s.
  - exists s. split; [reflexivity|]. intros b1 b2 Hl. cbn [pip_samples fst].
    repeat split; intros; try reflexivity; lia.
  - destruct (pip_sample_shape i s) as (v & s1 & E1).
    destruct (IH (S i) s1) as (s' & Es & Hb).
    exists s'. split.
    + intros b. cbn [pip_samples]. rewrite E1. apply Es.
    + intros b1 b2 Hl. cbn [pip_samples]. rewrite !E1.
      destruct (Hb (upd i v b1) (upd i v b2)) as (L & Fr & Eq);
        [rewrite !length_upd; exact Hl|].
      cbv zeta in *. rewrite length_upd in L.
      split; [exact L|]. split.
      * intros j d Hj. rewrite Fr by lia. apply nth_upd_neq. lia.
      * intros j d Hj Hlen. destruct (Nat.eq_dec j i) as [->|Hne].
        -- rewrite Fr by lia.
           destruct (Hb (upd i v b2) (upd i v b1)) as (_ & Fr2 & _);
             [rewrite !length_upd; symmetry; exact Hl|].
           cbv zeta in Fr2. rewrite Fr2 by lia.
           rewrite !nth_upd_eq by lia. reflexivity.
        -- apply Eq; [lia | rewrite length_upd; exact Hlen].
Qed.

Lemma pip_samples_snoc (n i : nat) (bs : list Z * state F) :
  pip_samples SAMPLE_RATE clock to_int16 (S n) i bs =
  pip_sample SAMPLE_RATE clock to_int16 (i + n)
    (pip_samples SAMPLE_RATE clock to_int16 n i bs).
Proof.
  revert i bs; induction n as [|n IH]; intros i bs.
  - cbn [pip_samples]. rewrite Nat.add_0_r. reflexivity.
  - change (pip_samples SAMPLE_RATE clock to_int16 (S (S n)) i bs)
      with (pip_samples SAMPLE_RATE clock to_int16 (S n) (S i)
              (pip_sample SAMPLE_RATE clock to_int16 i bs)).
    rewrite IH. cbn [pip_samples].
    replace (S i + n)%nat with (i + S n)%nat by lia. reflexivity.
Qed.

(** While samples of the current pip are left, the loop writes the tone at
    successive phases and reads no clock. *)
Lemma tone_run (k i : nat) (b : list Z) (s : state F) :
  in_gap (pip_system s) = false ->
  samples_in_current_pip (pip_system s) = Z.of_nat k ->
  (i + k <= length b)%nat ->
  let p := pip_system s in
  let r := pip_samples SAMPLE_RATE clock to_int16 k i (b, s) in
  snd r =
    set_pip_system
      {| active := active p; total_pips := total_pips p;
         remaining_pips := remaining_pips p;
         samples_in_current_pip := 0;
         pip_start_time := pip_start_time p;
         pip_gap_start := pip_gap_start p;
         in_gap := false;
         phase := Nat.iter k (next_phase SAMPLE_RATE) (phase p) |} s
  /\ length (fst r) = length b
  /\ forall j, (j < k)%nat ->
       nth (i + j) (fst r) 0%Z
       = tone to_int16 (Nat.iter j (next_phase SAMPLE_RATE) (phase p)).
Proof.
  revert i b s; induction k as [|k IH]; intros i b s Hg Hk Hlen p r.
  - unfold r, p. cbn [pip_samples snd fst Nat.iter].
    split; [|split; [reflexivity | intros j Hj; lia]].
    destruct s as [fu fd fs lt ps held started apa ss lvl gf pip rd ls hw].
    cbn in *. destruct pip. cbn in *. subst. reflexivity.
  - unfold r. cbn [pip_samples].
    assert (E1 : pip_sample SAMPLE_RATE clock to_int16 i (b, s) =
      (upd i (tone to_int16 (phase p)) b,
       set_pip_system
         {| active := active p; total_pips := total_pips p;
            remaining_pips := remaining_pips p;
            samples_in_current_pip := Z.of_nat k;
            pip_start_time := pip_start_time p;
            pip_gap_start := pip_gap_start p;
            in_gap := false;
            phase := next_phase SAMPLE_RATE (phase p) |} s)).
    { unfold pip_sample, p. rewrite Hg, Hk.
      replace (Z.of_nat (S k) >? 0)%Z with true
        by (symmetry; apply Z.gtb_lt; lia).
      replace (Z.of_nat (S k) - 1)%Z with (Z.of_nat k) by lia.
      reflexivity. }
    rewrite E1.
    match goal with
    | |- context [pip_samples _ _ _ k (S i) (?b1, ?s1)] =>
        destruct (IH (S i) b1 s1) as (Es & El & En);
          [reflexivity | reflexivity | rewrite length_upd; lia |];
        destruct (pip_samples_shape k (S i) s1) as (s' & _ & Hb);
        destruct (Hb b1 b1 eq_refl) as (_ & Fr & _)
    end.
    cbv zeta in Es, El, En, Fr.
    split; [rewrite Nat.iter_succ_r, Es; reflexivity|].
    split; [rewrite El; apply length_upd|].
    intros [|j] Hj.
    + rewrite Nat.add_0_r, Fr by lia.
      rewrite nth_upd_eq by lia. reflexivity.
    + replace (i + S j)%nat with (S i + j)%nat by lia.
      rewrite En by lia. cbn [pip_system set_pip_system phase].
      rewrite Nat.iter_succ_r. reflexivity.
Qed.
End Pips.

(** X18: while a pip sequence is active, [process_pip_audio] replaces the
    first [num_samples] samples of the buffer: what it writes there, and
    the state it leaves, do not depend on what the buffer held (the pips
    are not mixed with the audio), and the samples from [num_samples] on
    are not touched.  With no sequence active it returns [false] and
    changes neither the buffer nor the state. *)
Theorem pip_audio_overwrites {F D : Type} `{CFloat F} `{CFloat D}
    `{CPolar D} `{CCast F D} (SAMPLE_RATE : Z) (clock : nat -> Z)
    (to_int16 : D -> Z) (b1 b2 : list Z) (n : nat) (s : state F) :
  length b1 = length b2 -> (n <= length b1)%nat ->
  let r1 := process_pip_audio SAMPLE_RATE clock to_int16 b1 n s in
  let r2 := process_pip_audio SAMPLE_RATE clock to_int16 b2 n s in
  fst r1 = active (pip_system s)
  /\ (active (pip_system s) = false -> r1 = (false, (b1, s)))
  /\ length (fst (snd r1)) = length b1
  /\ (forall j d, (n <= j)%nat -> nth j (fst (snd r1)) d = nth j b1 d)
  /\ (active (pip_system s) = true ->
      (forall j d, (j < n)%nat ->
         nth j (fst (snd r1)) d = nth j (fst (snd r2)) d)
      /\ snd (snd r1) = snd (snd r2)).
Proof.
  intros Hl Hn r1 r2. unfold r1, r2, process_pip_audio.
  destruct (pip_samples_shape SAMPLE_RATE clock to_int16 n 0 s)
    as (s' & Es & Hb).
  destruct (Hb b1 b2 Hl) as (L & Fr & Eq). cbv zeta in L, Fr, Eq.
  destruct (active (pip_system s)); cbn [negb fst snd].
  - split; [reflexivity|]. split; [discriminate|]. split; [exact L|].
    split; [intros j d Hj; apply Fr; lia|].
    intros _. split; [intros j d Hj; apply Eq; lia|].
    rewrite !Es. reflexivity.
  - split; [reflexivity|]. split; [reflexivity|]. split; [reflexivity|].
    split; [reflexivity | discriminate].
Qed.

(** A sequence of one pip just started, and two buffers of three samples:
    the first sample written is the same for both. *)
Lemma pip_audio_overwrites_witness :
  let s := @start_pip_sequence R Exact.R_CFloat 16000 (fun _ => 0%Z) 1
             (@initial R Exact.R_CFloat true false 2
                (@lit _ Exact.R_CFloat (50 # 100))) in
  nth 0 (fst (snd (@process_pip_audio R R Exact.R_CFloat Exact.R_CFloat
                     Exact.R_CPolar Exact.R_CCast 16000 (fun _ => 0%Z)
                     (fun _ => 0%Z) [5; 6; 7]%Z 2 s))) 0%Z
  = nth 0 (fst (snd (@process_pip_audio R R Exact.R_CFloat Exact.R_CFloat
                       Exact.R_CPolar Exact.R_CCast 16000 (fun _ => 0%Z)
                       (fun _ => 0%Z) [1; 2; 3]%Z 2 s))) 0%Z.
Proof.
  intros s.
  apply (fun Hl Hn =>
    proj1 (proj2 (proj2 (proj2 (proj2
      (@pip_audio_overwrites R R Exact.R_CFloat Exact.R_CFloat
         Exact.R_CPolar Exact.R_CCast 16000 (fun _ => 0%Z) (fun _ => 0%Z)
         [5; 6; 7]%Z [1; 2; 3]%Z 2 s Hl Hn)))) eq_refl)).
  - reflexivity.
  - cbn. lia.
  - lia.
Defined.

(** X19: the first pip of a sequence.  After [start_pip_sequence(num)],
    the first [PIP_SAMPLES] samples [process_pip_audio] writes are the tone
    [(int16_t)(sin(phase) * 0.5 * 32767)] at the phases 0, then the phase
    advanced by [phase_increment] (less [2*PI] when it reaches it) sample by
    sample; the next sample is 0 and ends the pip: with more pips to come
    the gap begins, timed from the reading of [millis()] at that sample, and
    with none the sequence is over. *)
Theorem pip_tone_then_silence {F D : Type} `{CFloat F} `{CFloat D}
    `{CPolar D} `{CCast F D} (SAMPLE_RATE : Z) (clock : nat -> Z)
    (to_int16 : D -> Z) (num : Z) (k : nat) (b : list Z) (s0 : state F) :
  PIP_SAMPLES SAMPLE_RATE = Z.of_nat k -> (k < length b)%nat ->
  let s := start_pip_sequence SAMPLE_RATE clock num s0 in
  let r := process_pip_audio SAMPLE_RATE clock to_int16 b (S k) s in
  let p' := pip_system (snd (snd r)) in
  fst r = true
  /\ (forall j, (j < k)%nat ->
      nth j (fst (snd r)) 0%Z
      = tone to_int16 (Nat.iter j (next_phase SAMPLE_RATE) (lit 0)))
  /\ nth k (fst (snd r)) 0%Z = 0%Z
  /\ remaining_pips p' = (num - 1)%Z
  /\ (if (num - 1 >? 0)%Z
      then active p' = true /\ in_gap p' = true
           /\ pip_gap_start p' = clock (S (reads s0))
      else active p' = false).
Proof.
  intros Hk Hlen s r p'. unfold p', r, process_pip_audio.
  change (active (pip_system s)) with true. cbn [negb fst snd].
  rewrite pip_samples_snoc. cbn [Nat.add].
  destruct (@tone_run F D _ _ _ _ SAMPLE_RATE clock to_int16 k 0 b s
              eq_refl Hk ltac:(lia)) as (Es & El & En).
  cbv zeta in Es, El, En.
  destruct (pip_samples SAMPLE_RATE clock to_int16 k 0 (b, s))
    as [bk sk] eqn:Ek.
  cbn [fst snd] in Es, El, En. subst sk.
  unfold pip_sample, millis.
  cbn [pip_system set_pip_system in_gap samples_in_current_pip
       remaining_pips start_pip_sequence s millis set_reads reads].
  change (0 >? 0)%Z with false. cbv iota.
  destruct (num - 1 >? 0)%Z; cbn [fst snd pip_system set_pip_system
    set_reads remaining_pips active in_gap pip_gap_start reads].
  - split; [reflexivity|]. split.
    + intros j Hj. rewrite nth_upd_neq by lia. apply (En j Hj).
    + split; [apply nth_upd_eq; lia|]. repeat split; reflexivity.
  - split; [reflexivity|]. split.
    + intros j Hj. rewrite nth_upd_neq by lia. apply (En j Hj).
    + split; [apply nth_upd_eq; lia|]. repeat split; reflexivity.
Qed.

(** At 1000 Hz a pip is 200 samples: in a block of 201 samples after
    [start_pip_sequence(2)] the last sample is the silent one. *)
Lemma pip_tone_then_silence_witness :
  nth 200
    (fst (snd (@process_pip_audio R R Exact.R_CFloat Exact.R_CFloat
                 Exact.R_CPolar Exact.R_CCast 1000 (fun _ => 0%Z)
                 (fun _ => 0%Z) (repeat 0%Z 201) 201
                 (@start_pip_sequence R Exact.R_CFloat 1000 (fun _ => 0%Z) 2
                    (@initial R Exact.R_CFloat true false 2
                       (@lit _ Exact.R_CFloat (50 # 100))))))) 0%Z
  = 0%Z.
Proof.
  apply (fun Hk Hlen =>
    proj1 (proj2 (proj2
      (@pip_tone_then_silence R R Exact.R_CFloat Exact.R_CFloat
         Exact.R_CPolar Exact.R_CCast 1000 (fun _ => 0%Z) (fun _ => 0%Z)
         2%Z 200%nat (repeat 0%Z 201)
         (@initial R Exact.R_CFloat true false 2
            (@lit _ Exact.R_CFloat (50 # 100))) Hk Hlen)))).
  - vm_compute. reflexivity.
  - rewrite repeat_length. apply Nat.lt_succ_diag_r.
Defined.
End ButtonFacts.

(* ================================================================== *)
(** * Aurivox2/audio_config.cpp: the presets and the validator *)
(* ================================================================== *)

Module ConfigFacts.
Import IEEE AudioConfig.

Section Presets.
Variable L : libm.
Variable calc : AudioConfig spec_float -> Z.
Hypothesis calc_skips_checksum :
  forall k c, calc (set_checksum k c) = calc c.

(** The validator on a preset as its last statement leaves it: the test of
    the checksum holds, and the other tests are those of the object before
    that statement. *)
Lemma validate_sealed (c : AudioConfig spec_float) :
  @validate_audio_config _ (binary32 L) calc (Some (seal calc c))
  = @validate_audio_config _ (binary32 L) (fun _ => 0%Z)
      (Some (set_checksum 0 c)).
Proof.
  unfold validate_audio_config, seal.
  cbn [set_checksum version gain_level highpass_freq eq_gains
       wdrc_threshold wdrc_ratio wdrc_attack wdrc_release checksum].
  rewrite calc_skips_checksum, !Z.eqb_refl. reflexivity.
Qed.

Lemma presets_validate (p : PresetType) (c : AudioConfig spec_float) :
  @get_preset_config _ (binary32 L) calc p = Some c ->
  @validate_audio_config _ (binary32 L) calc (Some c) = true
  /\ (0 <= gain_level c <= 4)%Z
  /\ version c = CONFIG_VERSION.
Proof.
  destruct p; cbn [get_preset_config]; intros E; inversion E; subst c;
    clear E.
  - unfold DEFAULT_CONFIG. rewrite validate_sealed.
    repeat split; try (vm_compute; reflexivity); cbn; lia.
  - unfold MILD_LOSS_CONFIG. cbv zeta. rewrite validate_sealed.
    repeat split; try (vm_compute; reflexivity); cbn; lia.
  - unfold MODERATE_LOSS_CONFIG. cbv zeta. rewrite validate_sealed.
    repeat split; try (vm_compute; reflexivity); cbn; lia.
  - unfold SEVERE_LOSS_CONFIG. cbv zeta. rewrite validate_sealed.
    repeat split; try (vm_compute; reflexivity); cbn; lia.
  - unfold MUSIC_CONFIG. cbv zeta. rewrite validate_sealed.
    repeat split; try (vm_compute; reflexivity); cbn; lia.
  - unfold SPEECH_CONFIG. cbv zeta. rewrite validate_sealed.
    repeat split; try (vm_compute; reflexivity); cbn; lia.
Qed.
End Presets.

(** X20: in binary32, when the byte sum does not cover the field
    [checksum] (the loop stops four bytes before the end of the object),
    each of the six presets [get_preset_config] returns passes every test
    of [validate_audio_config]: version 1, a gain level of 0 to 4, every
    frequency, gain, threshold, ratio and time in its range, and a checksum
    that matches; so [copy_audio_config] copies it.  [PRESET_CUSTOM] has no
    configuration ([nullptr]), which the validator and the copy reject. *)
Theorem presets_are_valid (L : libm) (calc : AudioConfig spec_float -> Z)
    (p : PresetType) :
  (forall k c, calc (set_checksum k c) = calc c) ->
  match @get_preset_config _ (binary32 L) calc p with
  | Some c =>
      @validate_audio_config _ (binary32 L) calc (Some c) = true
      /\ (0 <= gain_level c <= 4)%Z
      /\ version c = CONFIG_VERSION
      /\ forall dest,
           @copy_audio_config _ (binary32 L) calc (Some dest) (Some c)
           = (true, Some c)
  | None =>
      p = PRESET_CUSTOM
      /\ @validate_audio_config _ (binary32 L) calc None = false
      /\ forall dest,
           @copy_audio_config _ (binary32 L) calc dest None = (false, dest)
  end.
Proof.
  intros Hc.
  destruct (@get_preset_config _ (binary32 L) calc p) as [c|] eqn:E.
  - destruct (@presets_validate L calc Hc p c E) as (Hv & Hg & Hver).
    repeat split; try assumption; try lia.
    intros dest. unfold copy_audio_config. rewrite Hv. reflexivity.
  - destruct p; try discriminate. repeat split.
    intros [dest|]; reflexivity.
Qed.

(** The speech preset, with the sum of the version and the gain level for
    the byte sum. *)
Lemma presets_are_valid_witness :
  @validate_audio_config _ (binary32 (ideal 24 128))
    (fun c => ((version c + gain_level c) mod 2 ^ 32)%Z)
    (Some (@SPEECH_CONFIG _ (binary32 (ideal 24 128))
             (fun c => ((version c + gain_level c) mod 2 ^ 32)%Z)))
  = true.
Proof.
  apply (@presets_are_valid (ideal 24 128)
           (fun c => ((version c + gain_level c) mod 2 ^ 32)%Z)
           PRESET_SPEECH).
  intros k c. reflexivity.
Defined.

(** X21: the range tests of [validate_audio_config] are all of the form
    [x < min || x > max], and both comparisons are false for a NaN.  So in
    binary32 a configuration with version 1, a gain level of 0 to 4 and a
    matching checksum is accepted when its frequency, its six equaliser
    gains and its four compressor values are NaN. *)
Theorem validate_accepts_nan (L : libm) (calc : AudioConfig spec_float -> Z)
    (c : AudioConfig spec_float) :
  version c = CONFIG_VERSION ->
  (0 <= gain_level c < GAIN_LEVELS_COUNT)%Z ->
  calc c = checksum c ->
  highpass_freq c = S754_nan ->
  eq_gains c = repeat S754_nan EQ_BANDS_COUNT ->
  wdrc_threshold c = S754_nan -> wdrc_ratio c = S754_nan ->
  wdrc_attack c = S754_nan -> wdrc_release c = S754_nan ->
  @validate_audio_config _ (binary32 L) calc (Some c) = true.
Proof.
  intros Hv Hg Hc Hf He Ht Hr Ha Hl. unfold validate_audio_config.
  rewrite Hv, Hc, Hf, He, Ht, Hr, Ha, Hl, !Z.eqb_refl.
  replace (gain_level c <? 0)%Z with false
    by (symmetry; apply Z.ltb_ge; lia).
  replace (gain_level c >=? GAIN_LEVELS_COUNT)%Z with false
    by (symmetry; rewrite Z.geb_leb; apply Z.leb_gt; lia).
  vm_compute. reflexivity.
Qed.

(** Version 1, level 3 of 5 and NaN in every [float] field. *)
Lemma validate_accepts_nan_witness :
  @validate_audio_config _ (binary32 (ideal 24 128))
    (fun c => ((version c + gain_level c) mod 2 ^ 32)%Z)
    (Some {| version := 1; gain_level := 2;
             highpass_enabled := true; highpass_freq := S754_nan;
             eq_enabled := true;
             eq_gains := [S754_nan; S754_nan; S754_nan;
                          S754_nan; S754_nan; S754_nan];
             wdrc_enabled := true; wdrc_threshold := S754_nan;
             wdrc_ratio := S754_nan; wdrc_attack := S754_nan;
             wdrc_release := S754_nan;
             limiter_enabled := false; limiter_threshold := S754_nan;
             bluetooth_enabled := false; cross_mode_enabled := false;
             checksum := 3 |})
  = true.
Proof.
  apply (@validate_accepts_nan (ideal 24 128)
           (fun c => ((version c + gain_level c) mod 2 ^ 32)%Z));
    try reflexivity.
  cbn. unfold GAIN_LEVELS_COUNT. lia.
Defined.
End ConfigFacts.

(* ================================================================== *)
(** * Aurivox2/serial_commands.cpp: the stored configuration *)
(* ================================================================== *)

Module SerialFacts.
Import AudioConfig SerialCommands.

Section Serial.
Context {F : Type} `{CFloat F}.
Variable calc : AudioConfig F -> Z.

Lemma sync_config_to_system_ok (s : state F) :
  (0 <= gain_level (current_config s) <= 4)%Z ->
  exists s' : state F,
    sync_config_to_system s = Some s'
    /\ ButtonControl.gain_ok (system s')
    /\ ButtonControl.current_gain_level (system s')
       = gain_level (current_config s)
    /\ current_config s' = current_config s
    /\ nvs_initialized s' = nvs_initialized s.
Proof.
  intros Hl. unfold sync_config_to_system, ButtonControl.load_gain_factor.
  cbn [ButtonControl.set_current_gain_level ButtonControl.current_gain_level].
  destruct (@ButtonFacts.gain_levels_at_Some F _ _ Hl) as [g Eg].
  rewrite Eg. eexists. split; [reflexivity|].
  unfold ButtonControl.gain_ok. cbn. repeat split; try assumption; lia.
Qed.

Lemma sync_config_to_system_out (s : state F) :
  (gain_level (current_config s) < 0 \/ 4 < gain_level (current_config s))%Z ->
  sync_config_to_system s = None.
Proof.
  intros Hl. unfold sync_config_to_system, ButtonControl.load_gain_factor.
  cbn [ButtonControl.set_current_gain_level ButtonControl.current_gain_level].
  rewrite (ButtonFacts.gain_levels_at_None Hl). reflexivity.
Qed.

Lemma load_accepts (loaded : AudioConfig F) (s : state F) :
  nvs_initialized s = true ->
  calc loaded = checksum loaded -> version loaded = 1%Z ->
  load_config_from_nvs calc (AudioHardware.ESP_OK, loaded) s =
  match sync_config_to_system (set_current_config loaded s) with
  | Some s' => Some (true, s')
  | None => None
  end.
Proof.
  intros Hn Hc Hv. unfold load_config_from_nvs.
  rewrite Hn, Hc, Hv, !Z.eqb_refl. reflexivity.
Qed.
End Serial.

(** X22: [load_config_from_nvs] accepts what [nvs_get_blob] returns when
    the checksum matches and the version is 1, and tests nothing else.  An
    accepted object with a gain level of 0 to 4 becomes the current
    configuration and sets the gain level and the gain factor; an accepted
    object with a gain level outside 0 to 4 makes [sync_config_to_system]
    read [gain_levels] outside the array.  An error code, a checksum that
    does not match, another version, or NVS not being initialised leave
    the state as it is and return [false]. *)
Theorem load_checks_no_range {F : Type} `{CFloat F}
    (calc : AudioConfig F -> Z) (err : AudioHardware.esp_err_t)
    (loaded : AudioConfig F) (s : state F) :
  let accepted :=
    nvs_initialized s && (err =? AudioHardware.ESP_OK)%Z
    && (calc loaded =? checksum loaded)%Z && (version loaded =? 1)%Z in
  (accepted = false ->
   load_config_from_nvs calc (err, loaded) s = Some (false, s))
  /\ (accepted = true -> (0 <= gain_level loaded <= 4)%Z ->
      exists s' : state F,
        load_config_from_nvs calc (err, loaded) s = Some (true, s')
        /\ current_config s' = loaded
        /\ ButtonControl.current_gain_level (system s') = gain_level loaded
        /\ ButtonControl.gain_ok (system s'))
  /\ (accepted = true ->
      (gain_level loaded < 0 \/ 4 < gain_level loaded)%Z ->
      load_config_from_nvs calc (err, loaded) s = None).
Proof.
  intros accepted. unfold accepted. split; [|split].
  - unfold load_config_from_nvs.
    destruct (nvs_initialized s); [|reflexivity].
    destruct (err =? AudioHardware.ESP_OK)%Z; [|reflexivity].
    cbn [andb negb]. intros ->. reflexivity.
  - intros Ha Hl. repeat (apply andb_prop in Ha; destruct Ha as [Ha ?]).
    apply Z.eqb_eq in H0, H1, H2. subst err.
    rewrite (load_accepts calc loaded s Ha H1 H0).
    destruct (sync_config_to_system_ok (set_current_config loaded s) Hl)
      as (s' & E & Hg & Hlv & Hcfg & _).
    rewrite E. exists s'. repeat split; try assumption; apply Hg.
  - intros Ha Hl. repeat (apply andb_prop in Ha; destruct Ha as [Ha ?]).
    apply Z.eqb_eq in H0, H1, H2. subst err.
    rewrite (load_accepts calc loaded s Ha H1 H0).
    rewrite (sync_config_to_system_out (set_current_config loaded s) Hl).
    reflexivity.
Qed.

(** An object with version 1, a matching checksum and gain level 7. *)
Lemma load_checks_no_range_witness :
  @load_config_from_nvs R Exact.R_CFloat
    (fun c => ((version c + gain_level c) mod 2 ^ 32)%Z)
    (AudioHardware.ESP_OK,
     set_checksum 8
       {| version := 1; gain_level := 7;
          highpass_enabled := false; highpass_freq := 100%R;
          eq_enabled := false; eq_gains := [];
          wdrc_enabled := false; wdrc_threshold := 0%R;
          wdrc_ratio := 2%R; wdrc_attack := 10%R; wdrc_release := 100%R;
          limiter_enabled := false; limiter_threshold := 0%R;
          checksum := 0 |})
    {| nvs_initialized := true;
       current_config := @default_config R Exact.R_CFloat;
       system := @ButtonControl.initial R Exact.R_CFloat true false 2
                   (@lit _ Exact.R_CFloat (50 # 100)) |}
  = None.
Proof.
  apply (proj2 (proj2 (@load_checks_no_range R Exact.R_CFloat
           (fun c => ((version c + gain_level c) mod 2 ^ 32)%Z)
           AudioHardware.ESP_OK _ _))).
  - reflexivity.
  - right. cbn. lia.
Defined.

(** X23: when the byte sum does not cover the field [checksum], the object
    that [save_config_to_nvs] hands to [nvs_set_blob] has version 1, the
    current gain level and its own checksum; [load_config_from_nvs]
    accepts that object whenever [nvs_get_blob] returns it, and sets the
    gain level and the gain factor back to what they were at the save.
    Saving returns [true] exactly when [nvs_set_blob] and [nvs_commit] both
    return [ESP_OK], and does not change the globals of the sketch. *)
Theorem save_then_load {F : Type} `{CFloat F} (calc : AudioConfig F -> Z)
    (set_err commit_err : AudioHardware.esp_err_t) (s s2 : state F) :
  (forall k c, calc (set_checksum k c) = calc c) ->
  nvs_initialized s = true -> nvs_initialized s2 = true ->
  ButtonControl.gain_ok (system s) ->
  let saved := save_config_to_nvs calc set_err commit_err s in
  let blob := current_config (snd saved) in
  (fst saved = true <->
   set_err = AudioHardware.ESP_OK /\ commit_err = AudioHardware.ESP_OK)
  /\ system (snd saved) = system s
  /\ version blob = 1%Z
  /\ gain_level blob = ButtonControl.current_gain_level (system s)
  /\ checksum blob = calc blob
  /\ exists s3 : state F,
       load_config_from_nvs calc (AudioHardware.ESP_OK, blob) s2
       = Some (true, s3)
       /\ current_config s3 = blob
       /\ ButtonControl.current_gain_level (system s3)
          = ButtonControl.current_gain_level (system s)
       /\ ButtonControl.gain_factor (system s3)
          = ButtonControl.gain_factor (system s).
Proof.
  intros Hc Hn Hn2 Hg saved blob.
  assert (Eb : blob = current_config (sync_system_to_config calc s)).
  { unfold blob, saved, save_config_to_nvs. rewrite Hn. cbn [negb].
    destruct (set_err =? _)%Z; [destruct (commit_err =? _)%Z|]; reflexivity. }
  assert (Es : system (snd saved) = system s).
  { unfold saved, save_config_to_nvs. rewrite Hn. cbn [negb].
    destruct (set_err =? _)%Z; [destruct (commit_err =? _)%Z|]; reflexivity. }
  assert (Hv : version blob = 1%Z) by (rewrite Eb; reflexivity).
  assert (Hl : gain_level blob = ButtonControl.current_gain_level (system s))
    by (rewrite Eb; reflexivity).
  assert (Hk : checksum blob = calc blob).
  { rewrite Eb. unfold sync_system_to_config.
    cbn [current_config set_current_config]. rewrite Hc. reflexivity. }
  split; [|split; [exact Es|split; [exact Hv|split; [exact Hl|split;
           [exact Hk|]]]]].
  - unfold saved, save_config_to_nvs. rewrite Hn. cbn [negb].
    destruct (Z.eqb_spec set_err AudioHardware.ESP_OK) as [E1|E1];
      [destruct (Z.eqb_spec commit_err AudioHardware.ESP_OK) as [E2|E2]|];
      cbn [fst]; split; intros Hx; try discriminate;
      try (destruct Hx; contradiction); auto.
  - rewrite (load_accepts calc blob s2 Hn2 (eq_sym Hk) Hv).
    destruct Hg as [Hr Hf].
    destruct (sync_config_to_system_ok (set_current_config blob s2))
      as (s3 & E & Hg3 & Hl3 & Hc3 & _);
      [cbn [current_config set_current_config]; rewrite Hl; exact Hr|].
    rewrite E. exists s3.
    cbn [current_config set_current_config] in Hl3, Hc3.
    split; [reflexivity|]. split; [exact Hc3|].
    split; [congruence|].
    destruct Hg3 as [_ Hf3]. rewrite Hl3, Hl, Hf in Hf3. congruence.
Qed.

(** Saved at level 4 of 5, loaded again after the level went to 1. *)
Lemma save_then_load_witness :
  let calc := fun c : AudioConfig R =>
                ((version c + gain_level c) mod 2 ^ 32)%Z in
  let at_level l g :=
    {| nvs_initialized := true;
       current_config := @default_config R Exact.R_CFloat;
       system := @ButtonControl.initial R Exact.R_CFloat true false l g |} in
  exists s3 : state R,
    @load_config_from_nvs R Exact.R_CFloat calc
      (AudioHardware.ESP_OK,
       current_config
         (snd (save_config_to_nvs calc 0%Z 0%Z
                 (at_level 3%Z (@lit _ Exact.R_CFloat (75 # 100))))))
      (at_level 0%Z (@lit _ Exact.R_CFloat 0))
    = Some (true, s3)
    /\ ButtonControl.current_gain_level (system s3) = 3%Z.
Proof.
  intros calc at_level.
  destruct (@save_then_load R Exact.R_CFloat calc 0%Z 0%Z
              (at_level 3%Z (@lit _ Exact.R_CFloat (75 # 100)))
              (at_level 0%Z (@lit _ Exact.R_CFloat 0)))
    as (_ & _ & _ & _ & _ & s3 & E & _ & Hl & _).
  - intros k c. reflexivity.
  - reflexivity.
  - reflexivity.
  - split; [cbn; lia | reflexivity].
  - exists s3. split; [exact E | exact Hl].
Defined.

(** X24: the command [set_gain_level] and [reset_to_default] leave the
    gain level an index of [gain_levels] and the gain factor the entry at
    that index, whatever the state before.  For a level of 1 to 5 the
    command makes [get_current_gain_level] return that level and stops the
    pips; for any other number it changes nothing.  [reset_to_default]
    makes [default_config] the current configuration and sets level 3 of
    5. *)
Theorem serial_commands_set_level {F : Type} `{CFloat F} (level : Z)
    (s : state F) :
  (exists s' : state F,
     command_set_gain_level level s = Some s'
     /\ ((1 <= level <= 5)%Z ->
         ButtonControl.get_current_gain_level (system s') = level
         /\ ButtonControl.gain_ok (system s')
         /\ ButtonControl.are_pips_active (system s') = false
         /\ current_config s' = current_config s)
     /\ (~ (1 <= level <= 5)%Z -> s' = s))
  /\ (exists s' : state F,
        reset_to_default s = Some s'
        /\ ButtonControl.get_current_gain_level (system s') = 3%Z
        /\ ButtonControl.gain_ok (system s')
        /\ current_config s' = default_config).
Proof.
  split.
  - unfold command_set_gain_level.
    destruct ((level >=? 1)%Z && (level <=? 5)%Z) eqn:E.
    + apply andb_prop in E. destruct E as [E1 E5].
      apply Z.geb_le in E1. apply Z.leb_le in E5.
      unfold ButtonControl.load_gain_factor.
      cbn [ButtonControl.set_current_gain_level
           ButtonControl.current_gain_level].
      destruct (@ButtonFacts.gain_levels_at_Some F _ (level - 1)%Z
                  ltac:(lia)) as [g Eg].
      rewrite Eg. eexists. split; [reflexivity|]. split; [|intros; lia].
      intros _. unfold ButtonControl.force_stop_pips,
        ButtonControl.get_current_gain_level, ButtonControl.gain_ok,
        ButtonControl.are_pips_active.
      cbn [ButtonControl.pip_system ButtonControl.set_gain_factor
           ButtonControl.set_current_gain_level].
      destruct (active (ButtonControl.pip_system (system s))) eqn:Ea;
        cbn; rewrite ?Ea; repeat split; try assumption; try lia;
        reflexivity.
    + exists s. split; [reflexivity|]. split; [|reflexivity].
      intros Hl. exfalso.
      assert ((level >=? 1)%Z = true) by (apply Z.geb_le; lia).
      assert ((level <=? 5)%Z = true) by (apply Z.leb_le; lia).
      rewrite H0, H1 in E. discriminate.
  - unfold reset_to_default.
    destruct (sync_config_to_system_ok (set_current_config default_config s))
      as (s' & E & Hg & Hl & Hcfg & _); [cbn; lia|].
    exists s'. split; [exact E|].
    cbn [current_config set_current_config] in Hl, Hcfg.
    unfold ButtonControl.get_current_gain_level. rewrite Hl.
    repeat split; try apply Hg; try assumption.
Qed.
End SerialFacts.

(* ================================================================== *)
(** * Aurivox2/audio_config.cpp: samples and milliseconds *)
(* ================================================================== *)

Module ExactTiming.
Import Exact ExactFacts AudioConfig.
Local Open Scope R_scope.

Lemma lit_1000 : Q2R 1000 = 1000.
Proof. unfold Q2R; simpl; lra. Qed.

Lemma samples_to_ms_exact (SR n : Z) :
  samples_to_ms SR n = IZR n * 1000 / IZR SR.
Proof. unfold samples_to_ms. simpl. rewrite lit_1000. reflexivity. Qed.

Lemma PIP_SAMPLES_fifth (SR : Z) :
  (0 < SR)%Z -> PIP_SAMPLES SR = (SR / 5)%Z.
Proof.
  intros HSR. unfold PIP_SAMPLES.
  rewrite Z.quot_div_nonneg by lia.
  replace 1000%Z with (5 * 200)%Z by reflexivity.
  apply Z.div_mul_cancel_r; lia.
Qed.

(** X25: in exact arithmetic and for a positive sample rate,
    [ms_to_samples] undoes [samples_to_ms]; [validate_system_config]
    accepts exactly the buffer sizes of at most [SAMPLE_RATE / 40] samples
    (25 ms); and [PIP_SAMPLES] is [SAMPLE_RATE / 5] rounded down, a pip of
    at most the 200 ms of [PIP_DURATION_MS]. *)
Theorem timing_conversions (SR B n : Z) :
  (0 < SR)%Z ->
  ms_to_samples SR (samples_to_ms SR n) = IZR n
  /\ (validate_system_config SR B = true <-> (40 * B <= SR)%Z)
  /\ PIP_SAMPLES SR = (SR / 5)%Z
  /\ samples_to_ms SR (PIP_SAMPLES SR) <= IZR PIP_DURATION_MS.
Proof.
  intros HSR.
  assert (Hs : 0 < IZR SR) by (apply IZR_lt; exact HSR).
  split; [|split; [|split]].
  - unfold ms_to_samples. rewrite samples_to_ms_exact. simpl.
    rewrite lit_1000. field. lra.
  - unfold validate_system_config. rewrite samples_to_ms_exact.
    unfold fgt. simpl.
    replace (Q2R 25) with 25 by (unfold Q2R; simpl; lra).
    assert (Hq : IZR B * 1000 / IZR SR <= 25 <-> (40 * B <= SR)%Z).
    { split; intros Hle.
      - apply le_IZR. rewrite mult_IZR.
        apply (Rmult_le_compat_r (IZR SR)) in Hle; [|lra].
        unfold Rdiv in Hle. rewrite Rmult_assoc, Rinv_l, Rmult_1_r in Hle
          by lra. lra.
      - apply IZR_le in Hle. rewrite mult_IZR in Hle.
        apply (Rmult_le_reg_r (IZR SR)); [exact Hs|].
        unfold Rdiv. rewrite Rmult_assoc, Rinv_l, Rmult_1_r by lra. lra. }
    unfold Rltb. destruct (Rlt_dec 25 (IZR B * 1000 / IZR SR)) as [Hlt|Hge].
    + split; [discriminate|]. intros Hle. apply Hq in Hle. lra.
    + split; [|reflexivity]. intros _. apply Hq. lra.
  - apply PIP_SAMPLES_fifth. exact HSR.
  - rewrite PIP_SAMPLES_fifth, samples_to_ms_exact by exact HSR.
    pose proof (Z.mul_div_le SR 5 ltac:(lia)) as Hd.
    apply IZR_le in Hd. rewrite mult_IZR in Hd.
    apply (Rmult_le_reg_r (IZR SR)); [exact Hs|].
    unfold Rdiv. rewrite Rmult_assoc, Rinv_l, Rmult_1_r by lra.
    unfold PIP_DURATION_MS. lra.
Qed.

(** 16000 Hz and buffers of 128 samples, the values the comments of the
    header give: 8 ms of latency. *)
Lemma timing_conversions_witness :
  validate_system_config (F := R) 16000 128 = true.
Proof.
  apply (proj1 (proj2 (@timing_conversions 16000 128 0 eq_refl))).
  lia.
Defined.
End ExactTiming.

(* ================================================================== *)
(** * The processor of [config.h]: its compressors, and silence *)
(* ================================================================== *)

Module ExactProcessor.
Import Exact ExactFacts.
Local Open Scope R_scope.

(** A shorter time gives a smaller coefficient. *)
Lemma alpha_order (SR : Z) (ta tr : R) :
  (0 < SR)%Z -> 0 < ta < tr ->
  f_exp (- lit 1 / (of_int SR * ta))%cf
  < f_exp (- lit 1 / (of_int SR * tr))%cf.
Proof.
  intros HSR Ht. simpl. rewrite lit_1. apply exp_increasing.
  assert (Hs : 0 < IZR SR) by (apply IZR_lt; exact HSR).
  assert (H1 : 0 < IZR SR * ta) by (apply Rmult_lt_0_compat; lra).
  assert (H2 : IZR SR * ta < IZR SR * tr)
    by (apply Rmult_lt_compat_l; lra).
  assert (H3 : / (IZR SR * tr) < / (IZR SR * ta))
    by (apply Rinv_lt_contravar; [apply Rmult_lt_0_compat|]; lra).
  unfold Rdiv. lra.
Qed.

(** What [setParameters] makes of an entry of [BAND_PARAMS] whose values
    are in the ranges of the three entries of [config.h]. *)
Lemma setParameters_ranges (p : Config.BandParams R) (mem : WDRC.t R) :
  0 < Config.attack_time p < Config.release_time p ->
  let w := WDRC.setParameters 44100 p (WDRC.ctor mem) in
  WDRC.envelope w = 0
  /\ 0 < WDRC.alpha_attack w < WDRC.alpha_release w
  /\ WDRC.alpha_release w < 1
  /\ WDRC.ratio w = Config.ratio p
  /\ WDRC.knee_width w = Config.knee_width p
  /\ WDRC.threshold w = Config.threshold p
  /\ WDRC.band_gain w = Config.gain p.
Proof.
  intros Ht w.
  split; [simpl; apply lit_0|]. split; [split|split].
  - apply (@alpha_range 44100%Z); [reflexivity | lra].
  - apply (@alpha_order 44100%Z); [reflexivity | exact Ht].
  - apply (@alpha_range 44100%Z); [reflexivity | lra].
  - repeat split; reflexivity.
Qed.

(** X26: the three band compressors of a new [MultibandWDRC] built from
    [config.h] start with their envelope at 0 and with parameters that
    meet what the properties of the compressor ask for: coefficients with
    [0 < alpha_attack < alpha_release < 1], a ratio of 2 to 4, a knee of 6
    to 10 dB, a threshold of -50 to -40 dB and a band gain of 5 to 15 dB.
    The constructor does not write the two buffers. *)
Theorem config_h_compressors (fft : ArduinoFFT.t R)
    (mem : MultibandWDRC.t (F := R) (D := R)) (i : nat) (w : WDRC.t R) :
  length (MultibandWDRC.wdrc_bands mem) = 3%nat ->
  let m := MultibandWDRC.ctor Config.config_h fft mem in
  length (MultibandWDRC.wdrc_bands m) = 3%nat
  /\ MultibandWDRC.real m = MultibandWDRC.real mem
  /\ MultibandWDRC.imag m = MultibandWDRC.imag mem
  /\ (nth_error (MultibandWDRC.wdrc_bands m) i = Some w ->
      WDRC.envelope w = 0
      /\ 0 < WDRC.alpha_attack w < WDRC.alpha_release w
      /\ WDRC.alpha_release w < 1
      /\ 2 <= WDRC.ratio w <= 4
      /\ 6 <= WDRC.knee_width w <= 10
      /\ -50 <= WDRC.threshold w <= -40
      /\ 5 <= WDRC.band_gain w <= 15).
Proof.
  intros Hl m. unfold m, MultibandWDRC.ctor.
  cbn [MultibandWDRC.wdrc_bands MultibandWDRC.real MultibandWDRC.imag].
  destruct (MultibandWDRC.wdrc_bands mem) as [|a [|b [|c [|d l]]]];
    try discriminate.
  change (Config.NUM_BANDS Config.config_h) with 3%nat.
  cbn [Config.BAND_PARAMS Config.config_h combine firstn map fst snd length].
  split; [reflexivity|]. split; [reflexivity|]. split; [reflexivity|].
  change (Config.SAMPLE_RATE Config.config_h) with 44100%Z.
  destruct i as [|[|[|i]]]; cbn [nth_error];
    [intros [= <-] | intros [= <-] | intros [= <-]
     | destruct i; discriminate].
  - destruct (@setParameters_ranges
        {| Config.threshold := (- lit 50)%cf; Config.ratio := lit 2;
           Config.knee_width := lit 10; Config.gain := lit 15;
           Config.attack_time := lit (10 # 1000);
           Config.release_time := lit (100 # 1000) |} a)
      as (He & Ha & Hr & Hq & Hk & Ht & Hg);
      [simpl; unfold Q2R; simpl; lra|].
    split; [exact He|]. split; [exact Ha|]. split; [exact Hr|].
    simpl. unfold Q2R. simpl. repeat split; lra.
  - destruct (@setParameters_ranges
        {| Config.threshold := (- lit 45)%cf; Config.ratio := lit 3;
           Config.knee_width := lit 8; Config.gain := lit 10;
           Config.attack_time := lit (5 # 1000);
           Config.release_time := lit (50 # 1000) |} b)
      as (He & Ha & Hr & Hq & Hk & Ht & Hg);
      [simpl; unfold Q2R; simpl; lra|].
    split; [exact He|]. split; [exact Ha|]. split; [exact Hr|].
    simpl. unfold Q2R. simpl. repeat split; lra.
  - destruct (@setParameters_ranges
        {| Config.threshold := (- lit 40)%cf; Config.ratio := lit 4;
           Config.knee_width := lit 6; Config.gain := lit 5;
           Config.attack_time := lit (3 # 1000);
           Config.release_time := lit (25 # 1000) |} c)
      as (He & Ha & Hr & Hq & Hk & Ht & Hg);
      [simpl; unfold Q2R; simpl; lra|].
    split; [exact He|]. split; [exact Ha|]. split; [exact Hr|].
    simpl. unfold Q2R. simpl. repeat split; lra.
Qed.

(** A new processor on storage that holds three compressors. *)
Lemma config_h_compressors_witness :
  length
    (MultibandWDRC.wdrc_bands
       (MultibandWDRC.ctor Config.config_h arduinoFFT
          {| MultibandWDRC.FFT := arduinoFFT;
             MultibandWDRC.wdrc_bands :=
               repeat (WDRC.Build_t 1 1 1 1 1 1 1) 3;
             MultibandWDRC.real := repeat 0 512;
             MultibandWDRC.imag := repeat 0 512 |}))
  = 3%nat.
Proof.
  apply (proj1 (@config_h_compressors arduinoFFT
                  {| MultibandWDRC.FFT := arduinoFFT;
                     MultibandWDRC.wdrc_bands :=
                       repeat (WDRC.Build_t 1 1 1 1 1 1 1) 3;
                     MultibandWDRC.real := repeat 0 512;
                     MultibandWDRC.imag := repeat 0 512 |}
                  0%nat (WDRC.Build_t 1 1 1 1 1 1 1) eq_refl)).
Defined.

(** ** Silence *)

Lemma nth_zero_default (l : list R) (k : nat) :
  (forall j, nth j l 0 = 0) -> nth k l (Q2R 0) = 0.
Proof.
  intros Hl. destruct (Nat.lt_ge_cases k (length l)) as [Hk|Hk].
  - rewrite (nth_indep l (Q2R 0) 0 Hk). apply Hl.
  - rewrite nth_overflow by exact Hk. apply lit_0.
Qed.

Lemma zeros_map_seq (f : nat -> R) (N : nat) :
  (forall i, (i < N)%nat -> f i = 0) ->
  forall k, nth k (map f (seq 0 N)) 0 = 0.
Proof.
  intros Hf k. destruct (Nat.lt_ge_cases k N) as [Hk|Hk].
  - rewrite FourierFacts.nth_map_seq by exact Hk. apply Hf. exact Hk.
  - apply nth_overflow. rewrite length_map, length_seq. exact Hk.
Qed.

Lemma zeros_upd (l : list R) (i : nat) (x : R) :
  x = 0 -> (forall j, nth j l 0 = 0) -> forall k, nth k (upd i x l) 0 = 0.
Proof.
  intros -> Hl k. destruct (Nat.eq_dec i k) as [->|Hne].
  - destruct (Nat.lt_ge_cases k (length l)) as [Hk|Hk].
    + apply nth_upd_eq. exact Hk.
    + apply nth_overflow. rewrite length_upd. exact Hk.
  - rewrite nth_upd_neq by exact Hne. apply Hl.
Qed.

(** The sample 0.0 leaves a compressor as 0.0, whatever its state. *)
Lemma process_zero (w : WDRC.t R) : fst (WDRC.process w 0) = 0.
Proof.
  rewrite process_fst. unfold WDRC.pre_limit, WDRC.apply_gain.
  change (0 * WDRC.db_to_linear
                (- WDRC.gain_db_of w 0 + WDRC.band_gain w))%cf
    with (0 * WDRC.db_to_linear
                (- WDRC.gain_db_of w 0 + WDRC.band_gain w)).
  rewrite Rmult_0_l. apply limit_id. lra.
Qed.

Lemma bin_step_zeros (cfg : Config.t R) (i : nat) (s : MultibandWDRC.bins) :
  (forall k, nth k (MultibandWDRC.re_of s) 0 = 0) ->
  (forall k, nth k (MultibandWDRC.im_of s) 0 = 0) ->
  (forall k, nth k (MultibandWDRC.re_of (MultibandWDRC.bin_step cfg i s)) 0
             = 0)
  /\ (forall k, nth k (MultibandWDRC.im_of (MultibandWDRC.bin_step cfg i s)) 0
                = 0).
Proof.
  destruct s as [bands [re im]]. unfold MultibandWDRC.re_of,
    MultibandWDRC.im_of. cbn [fst snd]. intros Hre Him.
  unfold MultibandWDRC.bin_step.
  destruct (MultibandWDRC.getBandIndex cfg _ >=? 0)%Z; [|split; assumption].
  destruct (nth_error bands _) as [w|]; [|split; assumption].
  cbn [lit R_CFloat]. rewrite !(nth_zero_default re i Hre),
    !(nth_zero_default im i Him).
  cbn [fmul fadd fneg f_sqrt f_cos f_sin f_atan2 to_float to_double
       R_CFloat R_CPolar R_CCast].
  replace (0 * 0 + 0 * 0) with 0 by ring. rewrite sqrt_0.
  pose proof (process_zero w) as Hw.
  destruct (WDRC.process w 0) as [out w']. cbn [fst] in Hw. subst out.
  rewrite !Rmult_0_l.
  assert (Hre' : forall k, nth k (upd i 0 re) 0 = 0)
    by (apply zeros_upd; [reflexivity | exact Hre]).
  assert (Him' : forall k, nth k (upd i 0 im) 0 = 0)
    by (apply zeros_upd; [reflexivity | exact Him]).
  destruct (Nat.eqb i 0); cbn [fst snd]; [split; assumption|].
  split; apply zeros_upd; try assumption.
  - apply nth_zero_default. exact Hre'.
  - rewrite (nth_zero_default _ i Him'). ring.
Qed.

Lemma bin_steps_zeros (cfg : Config.t R) (l : list nat)
    (s : MultibandWDRC.bins) :
  (forall k, nth k (MultibandWDRC.re_of s) 0 = 0) ->
  (forall k, nth k (MultibandWDRC.im_of s) 0 = 0) ->
  (forall k, nth k (MultibandWDRC.re_of (MultibandWDRC.bin_steps cfg l s)) 0
             = 0)
  /\ (forall k, nth k (MultibandWDRC.im_of (MultibandWDRC.bin_steps cfg l s)) 0
                = 0).
Proof.
  revert s; induction l as [|i l IH]; intros s Hre Him; [split; assumption|].
  rewrite bin_steps_cons.
  destruct (bin_step_zeros cfg i s Hre Him) as [Hre' Him'].
  apply IH; assumption.
Qed.

(** The transform of the specification takes zero buffers to zero
    buffers. *)
Lemma dft_zeros (sgn : R) (buf : list R * list R) :
  (forall k, nth k (fst buf) 0 = 0) -> (forall k, nth k (snd buf) 0 = 0) ->
  (forall k, nth k (fst (dft sgn buf)) 0 = 0)
  /\ (forall k, nth k (snd (dft sgn buf)) 0 = 0).
Proof.
  intros Hre Him. unfold dft. cbn [fst snd].
  split; apply zeros_map_seq; intros i Hi; apply FourierFacts.sum_n_zero;
    intros n Hn; rewrite Hre, Him; ring.
Qed.

Lemma arduinoFFT_zeros :
  (forall wt dir buf,
     (forall k, nth k (fst buf) 0 = 0) -> (forall k, nth k (snd buf) 0 = 0) ->
     (forall k, nth k (fst (ArduinoFFT.windowing arduinoFFT wt dir buf)) 0 = 0)
     /\ (forall k,
           nth k (snd (ArduinoFFT.windowing arduinoFFT wt dir buf)) 0 = 0))
  /\ (forall dir buf,
        (forall k, nth k (fst buf) 0 = 0) ->
        (forall k, nth k (snd buf) 0 = 0) ->
        (forall k, nth k (fst (ArduinoFFT.compute arduinoFFT dir buf)) 0 = 0)
        /\ (forall k,
              nth k (snd (ArduinoFFT.compute arduinoFFT dir buf)) 0 = 0)).
Proof.
  split.
  - intros wt dir buf Hre Him. destruct wt; cbn [ArduinoFFT.windowing
      arduinoFFT fst snd]; split; try assumption.
    apply zeros_map_seq. intros i Hi. rewrite Hre.
    destruct dir; unfold Rdiv; ring.
  - intros dir buf Hre Him.
    destruct dir; cbn [ArduinoFFT.compute arduinoFFT]; apply dft_zeros;
      assumption.
Qed.

(** X27: in exact arithmetic, on a transform object that takes zero buffers
    to zero buffers, a block of [size <= FFT_SIZE] samples 0.0 comes out of
    [MultibandWDRC::process] as silence, whatever the tables and the
    envelopes of the band compressors, provided each compressor has a knee
    width above 0 (step 3 then never divides by 0): a bin of magnitude 0
    is given to its compressor as the sample 0.0, which the compressor
    returns as 0.0. *)
Theorem silence_in_silence_out (cfg : Config.t R)
    (m : MultibandWDRC.t (F := R) (D := R)) (input : list R) (size : nat) :
  (forall wt dir buf,
     (forall k, nth k (fst buf) 0 = 0) -> (forall k, nth k (snd buf) 0 = 0) ->
     (forall k, nth k (fst (ArduinoFFT.windowing (MultibandWDRC.FFT m)
                              wt dir buf)) 0 = 0)
     /\ (forall k, nth k (snd (ArduinoFFT.windowing (MultibandWDRC.FFT m)
                                 wt dir buf)) 0 = 0)) ->
  (forall dir buf,
     (forall k, nth k (fst buf) 0 = 0) -> (forall k, nth k (snd buf) 0 = 0) ->
     (forall k, nth k (fst (ArduinoFFT.compute (MultibandWDRC.FFT m)
                              dir buf)) 0 = 0)
     /\ (forall k, nth k (snd (ArduinoFFT.compute (MultibandWDRC.FFT m)
                                 dir buf)) 0 = 0)) ->
  Forall (fun w => 0 < WDRC.knee_width w) (MultibandWDRC.wdrc_bands m) ->
  (size <= Config.FFT_SIZE cfg)%nat -> (size <= length input)%nat ->
  (forall i, (i < size)%nat -> nth i input 0 = 0) ->
  forall k, nth k (fst (MultibandWDRC.process cfg m input size)) 0 = 0.
Proof.
  intros Hwin Hcomp _ _ _ Hin. unfold MultibandWDRC.process.
  set (buf0 := MultibandWDRC.prepare cfg input size).
  assert (Z0 : (forall k, nth k (fst buf0) 0 = 0)
               /\ (forall k, nth k (snd buf0) 0 = 0)).
  { unfold buf0, MultibandWDRC.prepare. cbn [fst snd].
    split; apply zeros_map_seq; intros i Hi; [|apply lit_0].
    destruct (Nat.ltb_spec i size) as [Hs|Hs]; [|apply lit_0].
    cbn [to_double R_CCast lit R_CFloat].
    destruct (Nat.lt_ge_cases i (length input)) as [Hl|Hl].
    - rewrite (nth_indep input (Q2R 0) 0 Hl). apply Hin. exact Hs.
    - rewrite nth_overflow by exact Hl. apply lit_0. }
  destruct Z0 as [Zr Zi].
  destruct (Hwin ArduinoFFT.FFT_WIN_TYP_HAMMING ArduinoFFT.FFT_FORWARD
              buf0 Zr Zi) as [Zr1 Zi1].
  destruct (Hcomp ArduinoFFT.FFT_FORWARD _ Zr1 Zi1) as [Zr2 Zi2].
  match goal with
  | |- context [MultibandWDRC.bin_loop cfg (?b, ?buf)] =>
      destruct (bin_steps_zeros cfg (seq 0 (Config.FFT_SIZE cfg / 2))
                  (b, buf) Zr2 Zi2) as [Zr3 Zi3];
      fold (MultibandWDRC.bin_loop cfg (b, buf)) in Zr3, Zi3;
      destruct (MultibandWDRC.bin_loop cfg (b, buf)) as [bands buf3]
  end.
  unfold MultibandWDRC.re_of, MultibandWDRC.im_of in Zr3, Zi3.
  cbn [fst snd] in Zr3, Zi3.
  destruct (Hcomp ArduinoFFT.FFT_REVERSE buf3 Zr3 Zi3) as [Zr4 _].
  cbn [fst]. unfold MultibandWDRC.normalize.
  apply zeros_map_seq. intros i Hi.
  cbn [to_float R_CCast fdiv R_CFloat lit].
  rewrite (nth_zero_default _ i Zr4). unfold Rdiv. ring.
Qed.

(** The processor of [config.h] (knee widths 10, 8 and 6 dB) on the
    transform of the specification, with its three compressors at some
    envelopes, on 512 samples 0.0. *)
Lemma silence_in_silence_out_witness :
  nth 7
    (fst (MultibandWDRC.process Config.config_h
            {| MultibandWDRC.FFT := arduinoFFT;
               MultibandWDRC.wdrc_bands := [band 0 0; band 1 (-30); band 2 5];
               MultibandWDRC.real := repeat 1 512;
               MultibandWDRC.imag := repeat 1 512 |}
            (repeat 0 512) 512)) 0
  = 0.
Proof.
  apply (@silence_in_silence_out Config.config_h
           {| MultibandWDRC.FFT := arduinoFFT;
              MultibandWDRC.wdrc_bands := [band 0 0; band 1 (-30); band 2 5];
              MultibandWDRC.real := repeat 1 512;
              MultibandWDRC.imag := repeat 1 512 |}
           (repeat 0 512) 512
           (proj1 arduinoFFT_zeros) (proj2 arduinoFFT_zeros)).
  - cbn [MultibandWDRC.wdrc_bands].
    repeat constructor; simpl; unfold Q2R; simpl; lra.
  - cbn [Config.FFT_SIZE Config.config_h]. lia.
  - rewrite repeat_length. lia.
  - intros i Hi. apply nth_repeat.
Defined.
End ExactProcessor.
